(** * Scoring pipeline of the Go technical-debt scanner

  A shallow embedding of the scoring core ([scoring/normalizer.py],
  [scoring/thresholds.py], [scoring/aggregator.py]), of the metric
  collectors and of the store of scans of the web service.

  The program is embedded in two layers.

  - In the first, Python numbers are exact rationals ([Q]); [==] and the
    order comparisons of Python are [Qeq_bool] and [Qle_bool], and results
    are compared up to [Qeq], the equality of fractions.  This layer carries
    the control flow, the dicts, the lists and the exceptions of the code.
    Its arithmetic is exact: a number it gives is the value of the
    expression that the code evaluates, before any rounding.  It is used
    for what rounding leaves in place: which branch is taken, which key is
    read, identities between the results of the same expression, counts,
    order and exact comparisons.
  - In the second ([Binary64]), the normalizer and the aggregator are
    embedded over the numbers of Python themselves: [int], exact and of any
    size, and [float], an IEEE 754 binary64 value, with the conversions,
    the rounding and the exceptions of CPython.  Totality, ranges and the
    values computed are proved on this layer.

  Further conventions:
  - A Python [dict] with string keys is a [gmap string _]; a subscript
    [d[k]] on a missing key raises [KeyError].  Where the order of the
    items matters the dict is the list of its items.
  - A function that can raise returns a [result]. *)

From Stdlib Require Import QArith Qminmax Lqa ZArith Lia SpecFloat.
From stdpp Require Import gmap strings list sorting.

#[local] Set Warnings "-register-all".

Local Open Scope Q_scope.

(** ** Exceptions and the error monad *)

Inductive exn : Type :=
| KeyError (key : string)
| ZeroDivisionError
| TypeError
| OverflowError.

Inductive result (A : Type) : Type :=
| Ok (a : A)
| Raise (e : exn).
Arguments Ok {A} a.
Arguments Raise {A} e.

#[global] Instance result_ret : MRet result := λ A a, Ok a.
#[global] Instance result_bind : MBind result := λ A B f r,
  match r with
  | Ok a => f a
  | Raise e => Raise e
  end.

(** [d[k]] *)
Definition getitem {V : Type} (d : gmap string V) (k : string) : result V :=
  match d !! k with
  | Some v => Ok v
  | None => Raise (KeyError k)
  end.

(** ** Python arithmetic on numbers *)

Module Py.

(** [a == b] *)
Definition eq (a b : Q) : bool := Qeq_bool a b.

(** [a >= b] *)
Definition ge (a b : Q) : bool := Qle_bool b a.

(** [a > b] *)
Definition gt (a b : Q) : bool := negb (Qle_bool a b).

(** [a < b] *)
Definition lt (a b : Q) : bool := negb (Qle_bool b a).

(** The builtin [max(a, b)]: the first argument is kept unless the second
    is strictly greater. *)
Definition max (a b : Q) : Q := if gt b a then b else a.

(** The builtin [min(a, b)]: the first argument is kept unless the second
    is strictly smaller. *)
Definition min (a b : Q) : Q := if lt b a then b else a.

(** True division [a / b], which raises on a zero divisor. *)
Definition truediv (a b : Q) : result Q :=
  if Qeq_bool b 0 then Raise ZeroDivisionError else Ok (a / b).

(** [len(l)] as a number. *)
Definition len {A : Type} (l : list A) : Z := Z.of_nat (length l).

End Py.

(** ** scoring/normalizer.py *)

Module ScoreNormalizer.

Definition normalize (value min_value max_value : Q) : result Q :=
  if Py.eq max_value min_value then Ok 0
  else
    ratio ← Py.truediv (value - min_value) (max_value - min_value);
    let normalized := ratio * 100 in
    Ok (Py.max 0 (Py.min 100 normalized)).

Definition normalize_inverse (value min_value max_value : Q) : result Q :=
  n ← normalize value min_value max_value;
  Ok (100 - n).

Definition normalize_complexity (value ideal worst : Q) : result Q :=
  normalize value ideal worst.

Definition normalize_percentage (value ideal worst : Q) : result Q :=
  normalize value ideal worst.

Definition normalize_inverse_percentage (value ideal worst : Q) : result Q :=
  normalize_inverse value worst ideal.

Definition normalize_count (value ideal worst : Q) : result Q :=
  normalize value ideal worst.

Definition normalize_ratio (value ideal worst : Q) : result Q :=
  if Py.gt ideal worst then normalize_inverse value worst ideal
  else normalize value ideal worst.

Definition normalize_churn (value ideal worst : Q) : result Q :=
  normalize value ideal worst.

End ScoreNormalizer.

(** The clamp of the specification's formula
  [clamp(((value - min) / (max - min)) * 100, 0, 100)], written with the
  library's minimum and maximum. *)
Definition spec_clamp (x lo hi : Q) : Q := Qmax lo (Qmin hi x).

(** A score is in range when it lies in [[0,100]], both ends included. *)
Definition in_range (s : Q) : Prop := 0 <= s /\ s <= 100.


(** ** scoring/thresholds.py *)

Module DebtThresholds.

(** [__init__]: the attribute [self.thresholds]. *)
Definition init (config : gmap string (gmap string Q)) : result (gmap string Q) :=
  getitem config "thresholds".

(** [get_debt_level], as a function of [self.thresholds] and the score.  The
    entry ['medium'] is read only when the first test fails. *)
Definition get_debt_level (thresholds : gmap string Q) (score : Q) : result string :=
  high ← getitem thresholds "high";
  if Py.ge score high then Ok "high"
  else
    medium ← getitem thresholds "medium";
    if Py.ge score medium then Ok "medium" else Ok "low".

End DebtThresholds.

(** ** Metric summaries

    A collector returns a dict whose values are numbers, booleans, strings
    and lists of such values or of dicts; a nested dict is kept as the list of
    its items. *)

Inductive pyval : Type :=
| PyBool (b : bool)
| PyNum (q : Q)
| PyStr (s : string)
| PyList (l : list pyval)
| PyDict (items : list (string * pyval)).

(** The number a value stands for in an arithmetic expression ([bool] is a
    subclass of [int]); any other value makes the expression raise
    [TypeError]. *)
Definition as_number (v : pyval) : result Q :=
  match v with
  | PyNum q => Ok q
  | PyBool b => Ok (if b then 1 else 0)
  | _ => Raise TypeError
  end.

(** [len(v)] *)
Definition py_len (v : pyval) : result Z :=
  match v with
  | PyList l => Ok (Py.len l)
  | PyDict items => Ok (Py.len items)
  | PyStr s => Ok (Z.of_nat (String.length s))
  | _ => Raise TypeError
  end.

(** [d[k1][k2]] *)
Definition getitem2 {V : Type} (d : gmap string (gmap string V)) (k1 k2 : string) : result V :=
  inner ← getitem d k1;
  getitem inner k2.

(** ** scoring/aggregator.py *)

Module ScoreAggregator.

(** The six fixed categories. *)
Definition categories : list string :=
  ["complexity"; "duplication"; "test_quality"; "dependencies"; "churn"; "readability"].

(** [sum(weights.values())]: every value stored in the dict is added, whatever
    its key.  The order in which a dict is walked does not change a sum of
    rationals. *)
Definition sum_values (weights : gmap string Q) : Q :=
  map_fold (λ _ w acc, acc + w) 0 weights.

(** One term [category_scores[c] * weights[c]] of the weighted sum: both
    operands are read before they are multiplied. *)
Definition weighted (category_scores : gmap string pyval) (weights : gmap string Q)
    (c : string) : result Q :=
  v ← getitem category_scores c;
  w ← getitem weights c;
  s ← as_number v;
  Ok (s * w).

Definition aggregate (config : gmap string (gmap string Q))
    (metrics : gmap string (gmap string pyval)) : result (Q * gmap string pyval) :=
  complexity ← getitem2 metrics "complexity" "overall_score";
  duplication ← getitem2 metrics "duplication" "score";
  test_quality ← getitem2 metrics "test_quality" "overall_score";
  dependencies ← getitem2 metrics "dependencies" "score";
  churn ← getitem2 metrics "churn" "score";
  readability ← getitem2 metrics "readability" "score";
  let category_scores : gmap string pyval :=
    <["readability" := readability]> (<["churn" := churn]> (
    <["dependencies" := dependencies]> (<["test_quality" := test_quality]> (
    <["duplication" := duplication]> (<["complexity" := complexity]> ∅))))) in
  weights ← getitem config "weights";
  t1 ← weighted category_scores weights "complexity";
  t2 ← weighted category_scores weights "duplication";
  t3 ← weighted category_scores weights "test_quality";
  t4 ← weighted category_scores weights "dependencies";
  t5 ← weighted category_scores weights "churn";
  t6 ← weighted category_scores weights "readability";
  overall_score ← Py.truediv (t1 + t2 + t3 + t4 + t5 + t6) (sum_values weights);
  Ok (overall_score, category_scores).

End ScoreAggregator.

(** ** scanner/go_tools.py: what the external tools report

    The collectors read the repository through [GoToolRunner], which looks at
    the file system and runs the Go tool chain.  The state of the repository
    they observe is a record: whether [go.mod] exists, the entries the two
    parsing loops of [analyze_dependencies] build from the output of
    [go list], the lines of the [govulncheck] output that mention a
    vulnerability (none when the tool is missing), and the dict that
    [run_go_test] builds from the coverage profile.  A run in which the [go]
    binary itself cannot be started is not represented. *)

Module GoToolRunner.

Record repository : Type := {
  go_mod_exists : bool;
  go_list_dependencies : list pyval;
  go_list_outdated : list pyval;
  govulncheck_lines : list string;
  coverage_profile : gmap string string
}.

Definition analyze_dependencies (repo : repository) : gmap string pyval :=
  if negb (go_mod_exists repo) then {[ "error" := PyStr "Not a Go module" ]}
  else
    <["outdated" := PyList (go_list_outdated repo)]>
      {[ "dependencies" := PyList (go_list_dependencies repo) ]}.

Definition run_go_test (repo : repository) : gmap string string :=
  coverage_profile repo.

End GoToolRunner.

(** ** metrics/dependencies.py *)

Module DependencyAnalyzer.

(** The summary of a repository that is not a Go module. *)
Definition not_a_module : gmap string pyval :=
  <["score" := PyNum 0]> (<["vulnerable_count" := PyNum 0]> (
  <["outdated_percentage" := PyNum 0]> (<["outdated_count" := PyNum 0]> (
  <["dependency_count" := PyNum 0]> {[ "is_module" := PyBool false ]})))).

(** The body of [analyze], from the dict that
    [GoToolRunner.analyze_dependencies] returned and the lines kept from the
    [govulncheck] run. *)
Definition analyze_info (config : gmap string (gmap string Q))
    (dependency_info : gmap string pyval) (vulnerable_deps : list string)
    : result (gmap string pyval) :=
  if bool_decide (is_Some (dependency_info !! "error")) then Ok not_a_module
  else
    dependencies ← getitem dependency_info "dependencies";
    dependency_count ← py_len dependencies;
    outdated ← getitem dependency_info "outdated";
    outdated_count ← py_len outdated;
    ratio ← Py.truediv (inject_Z outdated_count) (inject_Z (Z.max 1 dependency_count));
    let outdated_percentage := ratio * 100 in
    let vulnerable_count := Py.len vulnerable_deps in
    ideal_outdated ← getitem2 config "dependencies" "ideal_outdated";
    worst_outdated ← getitem2 config "dependencies" "worst_outdated";
    outdated_score ←
      ScoreNormalizer.normalize_percentage outdated_percentage ideal_outdated worst_outdated;
    worst_vulnerabilities ← getitem2 config "dependencies" "worst_vulnerabilities";
    vulnerable_score ←
      ScoreNormalizer.normalize_count (inject_Z vulnerable_count) 0 worst_vulnerabilities;
    outdated_weight ← getitem2 config "dependencies" "outdated_weight";
    vulnerable_weight ← getitem2 config "dependencies" "vulnerable_weight";
    overall_score ←
      Py.truediv (outdated_score * outdated_weight + vulnerable_score * vulnerable_weight)
                 (outdated_weight + vulnerable_weight);
    Ok (<["score" := PyNum overall_score]> (
        <["vulnerable_score" := PyNum vulnerable_score]> (
        <["outdated_score" := PyNum outdated_score]> (
        <["vulnerable_dependencies" := PyList (PyStr <$> vulnerable_deps)]> (
        <["vulnerable_count" := PyNum (inject_Z vulnerable_count)]> (
        <["outdated_dependencies" := outdated]> (
        <["outdated_percentage" := PyNum outdated_percentage]> (
        <["outdated_count" := PyNum (inject_Z outdated_count)]> (
        <["dependencies" := dependencies]> (
        <["dependency_count" := PyNum (inject_Z dependency_count)]>
        {[ "is_module" := PyBool true ]})))))))))).

Definition analyze (config : gmap string (gmap string Q))
    (repo : GoToolRunner.repository) : result (gmap string pyval) :=
  analyze_info config (GoToolRunner.analyze_dependencies repo)
    (GoToolRunner.govulncheck_lines repo).

End DependencyAnalyzer.

(** ** Strings and paths *)

(** [s.endswith(suffix)] *)
Definition endswith (s suffix : string) : bool :=
  let n := String.length s in
  let m := String.length suffix in
  (m <=? n)%nat && String.eqb (String.substring (n - m) m s) suffix.

(** [os.path.basename(p)] on a POSIX system: what follows the last slash. *)
Fixpoint basename (p : string) : string :=
  match p with
  | EmptyString => EmptyString
  | String c rest =>
      match String.index 0 "/" rest with
      | Some _ => basename rest
      | None => if Ascii.eqb c (Ascii.ascii_of_nat 47) then rest else p
      end
  end.

(** ** metrics/test_quality.py *)

Module TestQualityAnalyzer.

Section Analyze.

(** [os.path.relpath(path, start)], which depends on the working directory
    of the process. *)
Variable relpath : string → string → string.

(** The variables the loop over [go_files] updates. *)
Record loop_state : Type := {
  files_with_tests : Z;
  total_coverage : Q;
  covered_files : list pyval;
  uncovered_files : list string
}.

Definition loop_init : loop_state :=
  {| files_with_tests := 0; total_coverage := 0.0;
     covered_files := []; uncovered_files := [] |}.

(** The entry appended to [covered_files]. *)
Definition covered_entry (rel_path : string) (file_coverage : Q) : pyval :=
  PyDict [("file", PyStr rel_path); ("coverage", PyNum file_coverage)].

(** One iteration of the loop. *)
Definition loop_body (repo_path : string) (coverage_data : gmap string string)
    (st : loop_state) (file_path : string) : loop_state :=
  if endswith file_path "_test.go" then st
  else
    let rel_path := relpath file_path repo_path in
    match coverage_data !! rel_path with
    | Some coverage_info =>
        let file_coverage := 70.0 in
        {| files_with_tests := files_with_tests st + 1;
           total_coverage := total_coverage st + file_coverage;
           covered_files := covered_files st ++ [covered_entry rel_path file_coverage];
           uncovered_files := uncovered_files st |}
    | None =>
        {| files_with_tests := files_with_tests st;
           total_coverage := total_coverage st;
           covered_files := covered_files st;
           uncovered_files := uncovered_files st ++ [rel_path] |}
    end.

Definition analyze_coverage (config : gmap string (gmap string Q)) (repo_path : string)
    (go_files : list string) (coverage_data : gmap string string)
    : result (gmap string pyval) :=
  let total_files := Py.len go_files in
  let test_files := List.filter (λ f, endswith (basename f) "_test.go") go_files in
  let test_file_count := Py.len test_files in
  let st := foldl (loop_body repo_path coverage_data) loop_init go_files in
  avg_coverage ←
    Py.truediv (total_coverage st) (inject_Z (Z.max 1 (files_with_tests st)));
  test_to_code_ratio ←
    Py.truediv (inject_Z test_file_count)
               (inject_Z (Z.max 1 (total_files - test_file_count)));
  ideal_coverage ← getitem2 config "test_quality" "ideal_coverage";
  worst_coverage ← getitem2 config "test_quality" "worst_coverage";
  coverage_score ←
    ScoreNormalizer.normalize_inverse_percentage avg_coverage ideal_coverage worst_coverage;
  ideal_ratio ← getitem2 config "test_quality" "ideal_ratio";
  worst_ratio ← getitem2 config "test_quality" "worst_ratio";
  ratio_score ← ScoreNormalizer.normalize_ratio test_to_code_ratio ideal_ratio worst_ratio;
  coverage_weight ← getitem2 config "test_quality" "coverage_weight";
  ratio_weight ← getitem2 config "test_quality" "ratio_weight";
  overall_score ←
    Py.truediv (coverage_score * coverage_weight + ratio_score * ratio_weight)
               (coverage_weight + ratio_weight);
  Ok (<["overall_score" := PyNum overall_score]> (
      <["ratio_score" := PyNum ratio_score]> (
      <["coverage_score" := PyNum coverage_score]> (
      <["uncovered_files" := PyList (PyStr <$> uncovered_files st)]> (
      <["covered_files" := PyList (covered_files st)]> (
      <["test_to_code_ratio" := PyNum test_to_code_ratio]> (
      <["average_coverage" := PyNum avg_coverage]> (
      <["files_without_tests" := PyNum (inject_Z (Py.len (uncovered_files st)))]> (
      <["files_with_tests" := PyNum (inject_Z (files_with_tests st))]>
      {[ "test_file_count" := PyNum (inject_Z test_file_count) ]}))))))))).

(** [analyze]: the coverage data is what [GoToolRunner.run_go_test] returns
    for the repository. *)
Definition analyze (config : gmap string (gmap string Q)) (repo_path : string)
    (go_files : list string) (repo : GoToolRunner.repository)
    : result (gmap string pyval) :=
  analyze_coverage config repo_path go_files (GoToolRunner.run_go_test repo).


End Analyze.

End TestQualityAnalyzer.

(** ** The aggregator's precondition *)

(** The field of a category's summary that [aggregate] reads. *)
Definition score_field (category : string) : string :=
  if String.eqb category "complexity" || String.eqb category "test_quality"
  then "overall_score" else "score".

(** [metrics] holds the six categories, each with its score field, a number. *)
Definition has_scores (metrics : gmap string (gmap string pyval)) (score : string → Q) : Prop :=
  ∀ c, c ∈ ScoreAggregator.categories →
    ∃ summary, metrics !! c = Some summary
      ∧ summary !! score_field c = Some (PyNum (score c)).

(** [config['weights']] is a mapping over exactly the six categories. *)
Definition has_weights (config : gmap string (gmap string Q)) (weight : string → Q) : Prop :=
  ∃ weights : gmap string Q, config !! "weights" = Some weights
    ∧ dom weights = list_to_set ScoreAggregator.categories
    ∧ ∀ c, c ∈ ScoreAggregator.categories → weights !! c = Some (weight c).

(** [Σ weights[c]] over the six categories. *)
Definition total_weight (weight : string → Q) : Q :=
  foldr (λ c acc, weight c + acc) 0 ScoreAggregator.categories.

(** Membership of a given category in [categories], by evaluation. *)
Ltac category := apply (bool_decide_unpack _); by vm_compute.

(** ** Inputs of the specification's examples *)

(** A summary with one numeric field. *)
Definition summary_with (field : string) (s : Q) : gmap string pyval :=
  {[ field := PyNum s ]}.

(** Scores [{complexity:80, duplication:20, test_quality:50, dependencies:0,
    churn:40, readability:60}]. *)
Definition example_metrics : gmap string (gmap string pyval) :=
  <["complexity" := summary_with "overall_score" 80]> (
  <["duplication" := summary_with "score" 20]> (
  <["test_quality" := summary_with "overall_score" 50]> (
  <["dependencies" := summary_with "score" 0]> (
  <["churn" := summary_with "score" 40]> (
  {[ "readability" := summary_with "score" 60 ]}))))).

(** The same scores as a function of the category. *)
Definition example_score (c : string) : Q :=
  match example_metrics !! c ≫= (.!! score_field c) with
  | Some (PyNum s) => s
  | _ => 0
  end.

(** Weights [{1,1,1,1,1,1}]. *)
Definition unit_weights_config : gmap string (gmap string Q) :=
  {[ "weights" := list_to_map ((λ c, (c, 1)) <$> ScoreAggregator.categories) ]}.

(** The thresholds [{low:0, medium:40, high:70}]. *)
Definition example_thresholds : gmap string Q :=
  <["low" := 0]> (<["medium" := 40]> {[ "high" := 70 ]}).

(** A directory without [go.mod], where no tool reports anything. *)
Definition bare_repository : GoToolRunner.repository :=
  {| GoToolRunner.go_mod_exists := false;
     GoToolRunner.go_list_dependencies := [];
     GoToolRunner.go_list_outdated := [];
     GoToolRunner.govulncheck_lines := [];
     GoToolRunner.coverage_profile := ∅ |}.

(** ** The test-quality collector's configuration *)





(** * Further parts of the program *)

(** ** scoring/thresholds.py: category thresholds

    [DebtThresholds] reads two entries of the configuration:
    [config['thresholds']], a dict of numbers, and
    [config['category_thresholds']], a dict of such dicts.  Either may be
    absent. *)

Module CategoryThresholds.

Record settings : Type := {
  thresholds_entry : option (gmap string Q);
  category_thresholds_entry : option (gmap string (gmap string Q))
}.

(** The object built by [__init__]: [self.config] and [self.thresholds]. *)
Record debt_thresholds : Type := {
  config : settings;
  thresholds : gmap string Q
}.

Definition init (cfg : settings) : result debt_thresholds :=
  match thresholds_entry cfg with
  | Some t => Ok {| config := cfg; thresholds := t |}
  | None => Raise (KeyError "thresholds")
  end.

Definition get_debt_level (self : debt_thresholds) (score : Q) : result string :=
  DebtThresholds.get_debt_level (thresholds self) score.

Definition get_category_thresholds (self : debt_thresholds) (category : string)
    : result (gmap string Q) :=
  match category_thresholds_entry (config self) with
  | None => Raise (KeyError "category_thresholds")
  | Some overrides =>
      match overrides !! category with
      | Some t => Ok t
      | None => Ok (thresholds self)
      end
  end.

End CategoryThresholds.

(** ** Upper case

    [s.upper()] on ASCII text: the letters [a] to [z] are shifted, every
    other character is kept. *)

Definition upper_char (c : Ascii.ascii) : Ascii.ascii :=
  let n := Ascii.nat_of_ascii c in
  if (97 <=? n)%nat && (n <=? 122)%nat then Ascii.ascii_of_nat (n - 32) else c.

Fixpoint upper (s : string) : string :=
  match s with
  | EmptyString => EmptyString
  | String c rest => String (upper_char c) (upper rest)
  end.

(** ** cli.py: the debt breakdown printed by [main]

    The level printed for a category score:
    ["HIGH" if score > config['thresholds']['high'] else
     "MEDIUM" if score > config['thresholds']['medium'] else "LOW"]. *)

Module Cli.

Definition breakdown_level (config : gmap string (gmap string Q)) (score : Q)
    : result string :=
  high ← getitem2 config "thresholds" "high";
  if Py.gt score high then Ok "HIGH"
  else
    medium ← getitem2 config "thresholds" "medium";
    if Py.gt score medium then Ok "MEDIUM" else Ok "LOW".

End Cli.

(** The three levels in increasing order of debt. *)
Definition level_rank (level : string) : nat :=
  if String.eqb level "high" then 2
  else if String.eqb level "medium" then 1
  else 0.

(** ** A Go module and the test-quality block *)

(** A Go module with two dependencies, one of them outdated, and one line
    of the vulnerability check. *)
Definition module_repository : GoToolRunner.repository :=
  {| GoToolRunner.go_mod_exists := true;
     GoToolRunner.go_list_dependencies :=
       [PyDict [("name", PyStr "example.com/a"); ("version", PyStr "v1.0.0")];
        PyDict [("name", PyStr "example.com/b"); ("version", PyStr "v0.3.1")]];
     GoToolRunner.go_list_outdated :=
       [PyDict [("name", PyStr "example.com/b"); ("current_version", PyStr "v0.3.1");
                ("update_info", PyStr "[v0.4.0]")]];
     GoToolRunner.govulncheck_lines := ["Vulnerability #1: GO-2024-0001"];
     GoToolRunner.coverage_profile := ∅ |}.



(** ** Sorting in reverse order

    [sorted(items, key=key, reverse=True)] and
    [items.sort(key=key, reverse=True)]: the sort of Python is stable, also
    in reverse, so the result is the one list that holds the items in
    non-increasing order of their keys, items with equal keys in their
    original order.  Inserting the items one by one from the right, each
    before the first item whose key is not greater, builds that list. *)

Fixpoint insert_reverse {A : Type} (key : A → Q) (x : A) (l : list A) : list A :=
  match l with
  | [] => [x]
  | y :: rest =>
      if Py.gt (key y) (key x) then y :: insert_reverse key x rest else x :: l
  end.

Definition sorted_reverse {A : Type} (key : A → Q) (l : list A) : list A :=
  foldr (insert_reverse key) [] l.

(** The order of the result: the key does not increase. *)
Definition key_ge {A : Type} (key : A → Q) (a b : A) : Prop := key b <= key a.

(** ** metrics/complexity.py

    [GoToolRunner.run_gocyclo] and [run_gocognit] report the functions over
    the threshold they were called with, each with its complexity; the
    collector keeps the ten worst of them. *)

Module ComplexityAnalyzer.

Record function_entry : Type := {
  complexity : Z;
  file_info : string
}.

(** [sorted(functions, key=lambda x: x['complexity'], reverse=True)[:10]] *)
Definition worst_offenders (fs : list function_entry) : list function_entry :=
  take 10 (sorted_reverse (λ x, inject_Z (complexity x)) fs).

End ComplexityAnalyzer.

(** ** metrics/duplication.py

    [GoToolRunner.run_scc] returns the entries of the tool's JSON output for
    Go files (none when the output is not JSON).  The collector reads three
    keys of each entry with [.get]; a key may be absent. *)

Module DuplicationAnalyzer.

Record scc_file : Type := {
  Code : option Z;
  Duplicate : option Z;
  Location : option string
}.

(** [file_result.get('Code', 0)], [file_result.get('Duplicate', 0)] *)
Definition code (f : scc_file) : Z := default 0%Z (Code f).
Definition duplicate (f : scc_file) : Z := default 0%Z (Duplicate f).

(** [(a / max(1, n)) * 100] on integers; the divisor is at least 1. *)
Definition percent_of (a n : Z) : Q := inject_Z a / inject_Z (Z.max 1 n) * 100.

(** An entry of [files_with_duplication]. *)
Record duplication_entry : Type := {
  file : string;
  duplicated_lines : Z;
  total_lines : Z;
  percentage : Q
}.

Definition entry_of (f : scc_file) : duplication_entry :=
  {| file := default "" (Location f);
     duplicated_lines := duplicate f;
     total_lines := code f;
     percentage := percent_of (duplicate f) (code f) |}.

(** The files with duplicated lines, sorted by percentage in reverse. *)
Definition files_with_duplication (scc_results : list scc_file) : list duplication_entry :=
  sorted_reverse percentage
    (entry_of <$> List.filter (λ f, 0 <? duplicate f)%Z scc_results).

Definition entry_value (e : duplication_entry) : pyval :=
  PyDict [("file", PyStr (file e));
          ("duplicated_lines", PyNum (inject_Z (duplicated_lines e)));
          ("total_lines", PyNum (inject_Z (total_lines e)));
          ("percentage", PyNum (percentage e))].

Definition analyze (config : gmap string (gmap string Q)) (scc_results : list scc_file)
    : result (gmap string pyval) :=
  let total := foldl (λ acc f, acc + code f)%Z 0%Z scc_results in
  let duplicated := foldl (λ acc f, acc + duplicate f)%Z 0%Z scc_results in
  let duplication_percentage := percent_of duplicated total in
  let files := files_with_duplication scc_results in
  ideal_percentage ← getitem2 config "duplication" "ideal_percentage";
  worst_percentage ← getitem2 config "duplication" "worst_percentage";
  duplication_score ←
    ScoreNormalizer.normalize_percentage duplication_percentage
      ideal_percentage worst_percentage;
  Ok (<["score" := PyNum duplication_score]> (
      <["files_with_duplication" := PyList (entry_value <$> take 10 files)]> (
      <["duplication_percentage" := PyNum duplication_percentage]> (
      <["duplicated_lines" := PyNum (inject_Z duplicated)]>
      {[ "total_lines" := PyNum (inject_Z total) ]})))).

End DuplicationAnalyzer.



(** ** scanner/repo_scanner.py: finding the Go files

    [os.walk(repo_path)] yields, directory by directory, the path of the
    directory and the names of its subdirectories and files. *)

(** [needle in s] *)
Fixpoint contains (needle s : string) : bool :=
  String.prefix needle s
  || match s with
     | EmptyString => false
     | String _ rest => contains needle rest
     end.

(** [os.path.join(a, b)] on a POSIX system. *)
Definition path_join (a b : string) : string :=
  if String.prefix "/" b then b
  else if String.eqb a "" || endswith a "/" then a +:+ b
  else a +:+ "/" +:+ b.

Module RepoScanner.

Definition walk_entry : Type := string * list string * list string.

(** The test that skips a directory: ['/vendor/' in root or '/.' in root]. *)
Definition skipped (root : string) : bool :=
  contains "/vendor/" root || contains "/." root.

Fixpoint find_go_files (walk : list walk_entry) : list string :=
  match walk with
  | [] => []
  | (root, _, files) :: rest =>
      (if skipped root then []
       else path_join root <$> List.filter (λ file, endswith file ".go") files)
      ++ find_go_files rest
  end.

End RepoScanner.

(** A walk of a repository with a [vendor] directory and a hidden one. *)
Definition example_walk : list RepoScanner.walk_entry :=
  [ ("/src/app", [".git"; "vendor"], ["main.go"; "README.md"]);
    ("/src/app/.git", [], ["hooks.go"]);
    ("/src/app/vendor", ["lib"], ["modules.go"]);
    ("/src/app/vendor/lib", [], ["lib.go"]) ].

(** ** api/routes.py: the store of scans and the shared configuration

    The handlers work on two pieces of state that outlive a request: the
    module-level dict [scan_results] and the configuration [app.state.config],
    which [start_scan] updates in place.  A value of the configuration is a
    dict or something that is not a dict: [None], a bool, a number, a string
    or a list. *)

Module Routes.

Inductive other_value : Type :=
| NoneValue
| BoolValue (b : bool)
| NumValue (q : Q)
| StrValue (s : string)
| ListValue (l : list pyval).

Inductive config_value : Type :=
| ConfigDict (d : gmap string pyval)
| ConfigOther (v : other_value).

Record app : Type := {
  scan_results : gmap string (gmap string pyval);
  config : gmap string config_value
}.

(** What a handler answers: a value, an [HTTPException], or the
    [AttributeError] that [config[category].update(values)] raises on a value
    that is not a dict. *)
Inductive answer (A : Type) : Type :=
| Reply (a : A)
| HTTPException (status_code : Z) (detail : string)
| AttributeError.
Arguments Reply {A} a.
Arguments HTTPException {A} status_code detail.
Arguments AttributeError {A}.

Definition status_entry (status repo_path message : string) : gmap string pyval :=
  <["message" := PyStr message]> (
  <["repo_path" := PyStr repo_path]> {[ "status" := PyStr status ]}).

(** One step of the loop over [config_overrides.items()]. *)
Definition apply_override (config : gmap string config_value) (category : string)
    (values : config_value) : option (gmap string config_value) :=
  match config !! category, values with
  | Some (ConfigDict d), ConfigDict v => Some (<[category := ConfigDict (v ∪ d)]> config)
  | Some (ConfigOther _), ConfigDict _ => None
  | _, _ => Some (<[category := values]> config)
  end.

(** The loop: the configuration as the overrides leave it, and whether they
    were all applied. *)
Fixpoint apply_overrides (config : gmap string config_value)
    (overrides : list (string * config_value)) : gmap string config_value * bool :=
  match overrides with
  | [] => (config, true)
  | (category, values) :: rest =>
      match apply_override config category values with
      | Some config' => apply_overrides config' rest
      | None => (config, false)
      end
  end.

(** [start_scan], for the identifier that [uuid.uuid4()] produced.  The
    overrides are the items of [request.config_overrides], [None] when the
    request has none. *)
Definition start_scan (scan_id repo_path : string)
    (config_overrides : option (list (string * config_value))) (st : app)
    : answer (gmap string pyval) * app :=
  let stored := <[scan_id := status_entry "pending" repo_path "Scan queued"]>
                  (scan_results st) in
  let (merged, applied) := apply_overrides (config st) (default [] config_overrides) in
  let st' := {| scan_results := stored; config := merged |} in
  if applied
  then (Reply (<["message" := PyStr "Scan started"]> (
               <["scan_id" := PyStr scan_id]> {[ "status" := PyStr "pending" ]})), st')
  else (AttributeError, st').

(** The task that [start_scan] adds with [background_tasks.add_task]: the
    scan, its repository and the shared configuration as the overrides left
    it; none when an override raised, since the exception leaves the handler
    before the task is added. *)
Definition scheduled_task (scan_id repo_path : string)
    (config_overrides : option (list (string * config_value))) (st : app)
    : option (string * string * gmap string config_value) :=
  let (merged, applied) := apply_overrides (config st) (default [] config_overrides) in
  if applied then Some (scan_id, repo_path, merged) else None.

Definition get_scan_result (scan_id : string) (st : app) : answer (gmap string pyval) :=
  match scan_results st !! scan_id with
  | None => HTTPException 404 "Scan not found"
  | Some entry => Reply entry
  end.

Definition delete_scan (scan_id : string) (st : app) : answer unit * app :=
  match scan_results st !! scan_id with
  | None => (HTTPException 404 "Scan not found", st)
  | Some _ =>
      (Reply (), {| scan_results := delete scan_id (scan_results st); config := config st |})
  end.

(** How the awaited [scan_repository] ends: it returns the results, it
    raises an [Exception] [e] with the given [str(e)], or the task is ended
    by an exception that is not an [Exception] - [asyncio.CancelledError],
    [KeyboardInterrupt], [SystemExit] - which [except Exception] does not
    catch. *)
Inductive outcome : Type :=
| Returned (results : gmap string pyval)
| Raised (message : string)
| Interrupted.

Section Task.

(** [repr] of a string: [str(e)] of the [KeyError] for a missing scan. *)
Variable repr : string → string.

Definition failed_entry (repo_path text : string) : gmap string pyval :=
  status_entry "failed" repo_path ("Scan failed: " +:+ text).

(** The first part of [run_scan_task], up to the call of
    [scan_repository]: the entry is marked as running; when there is no
    entry the subscript raises [KeyError], which the handler turns into a
    failed entry, and the task ends ([None]). *)
Definition task_begin (scan_id repo_path : string) (st : app) : option app * app :=
  match scan_results st !! scan_id with
  | Some entry =>
      let st' := {| scan_results :=
                      <[scan_id := <["message" := PyStr "Scan in progress"]> (
                                   <["status" := PyStr "running"]> entry)]>
                        (scan_results st);
                    config := config st |} in
      (Some st', st')
  | None =>
      let st' := {| scan_results :=
                      <[scan_id := failed_entry repo_path (repr scan_id)]>
                        (scan_results st);
                    config := config st |} in
      (None, st')
  end.

(** The second part: the outcome of [scan_repository] is stored, either
    [{"status": "completed", ..., **results}] or the failed entry; an
    interruption stores nothing. *)
Definition task_end (scan_id repo_path : string) (o : outcome) (st : app) : app :=
  match o with
  | Returned results =>
      {| scan_results :=
           <[scan_id := results ∪ status_entry "completed" repo_path
                                    "Scan completed successfully"]> (scan_results st);
         config := config st |}
  | Raised message =>
      {| scan_results := <[scan_id := failed_entry repo_path message]> (scan_results st);
         config := config st |}
  | Interrupted => st
  end.

(** [run_scan_task] when nothing else touches the state meanwhile: the
    state it leaves, and whether an exception leaves the task. *)
Definition run_scan_task (scan_id repo_path : string) (o : outcome) (st : app)
    : app * bool :=
  match task_begin scan_id repo_path st with
  | (Some _, st') =>
      (task_end scan_id repo_path o st',
       match o with Interrupted => true | _ => false end)
  | (None, st') => (st', false)
  end.

End Task.

End Routes.

(** ** metrics/readability.py: the metrics of one file

    The lines of a file are what [content.splitlines()] gives.
    [line.strip()] and the test [re.match(r'^func\s+', line)] are taken as
    they are in Python. *)

Module ReadabilityAnalyzer.

Section FileMetrics.

Variable strip : string → string.
Variable starts_function : string → bool.

(** The variables of the loop that measures functions. *)
Record scan_state : Type := {
  function_lengths : list Z;
  current_function_lines : Z;
  in_function : bool
}.

Definition scan_init : scan_state :=
  {| function_lengths := []; current_function_lines := 0; in_function := false |}.

Definition scan_line (st : scan_state) (line : string) : scan_state :=
  let line := strip line in
  if starts_function line && contains "{" line then
    {| function_lengths := function_lengths st;
       current_function_lines := 1;
       in_function := true |}
  else if in_function st then
    let n := (current_function_lines st + 1)%Z in
    if String.eqb line "}" then
      {| function_lengths := function_lengths st ++ [n];
         current_function_lines := n;
         in_function := false |}
    else
      {| function_lengths := function_lengths st;
         current_function_lines := n;
         in_function := true |}
  else st.

(** [line.strip().startswith('//') or line.strip().startswith('/*')] *)
Definition is_comment (line : string) : bool :=
  String.prefix "//" (strip line) || String.prefix "/*" (strip line).

(** [sum(function_lengths)] *)
Definition sum_lengths (lengths : list Z) : Z := foldl Z.add 0%Z lengths.

(** The entry of [file_metrics] for one file. *)
Record file_metric : Type := {
  total_lines : Z;
  comment_lines : Z;
  comment_ratio : Q;
  function_count : Z;
  avg_function_length : Q
}.

Definition measure (lines : list string) : file_metric :=
  let total := Py.len lines in
  let comments := Py.len (List.filter is_comment lines) in
  let lengths := function_lengths (foldl scan_line scan_init lines) in
  {| total_lines := total;
     comment_lines := comments;
     comment_ratio := inject_Z comments / inject_Z (Z.max 1 total);
     function_count := Py.len lengths;
     avg_function_length := inject_Z (sum_lengths lengths) / inject_Z (Z.max 1 (Py.len lengths)) |}.

End FileMetrics.

End ReadabilityAnalyzer.

(** What the loop keeps true: every recorded length is at least 2, the
    counter is at least 1 inside a function, the recorded lengths and the
    running counter account for distinct lines, and each recorded function
    used up one closing line. *)
Definition scan_invariant (st : ReadabilityAnalyzer.scan_state) (seen closing : Z) : Prop :=
  Forall (λ n, 2 <= n)%Z (ReadabilityAnalyzer.function_lengths st)
  ∧ (ReadabilityAnalyzer.in_function st = true → 1 <= ReadabilityAnalyzer.current_function_lines st)%Z
  ∧ (ReadabilityAnalyzer.sum_lengths (ReadabilityAnalyzer.function_lengths st)
     + (if ReadabilityAnalyzer.in_function st then ReadabilityAnalyzer.current_function_lines st else 0) <= seen)%Z
  ∧ (Py.len (ReadabilityAnalyzer.function_lengths st) <= closing)%Z.

(** ** reporting/report_generator.py: the recommendations *)

Module ReportGenerator.

(** The block of advice of a category; a category that is none of the six
    has none. *)
Definition advice (category : string) : option (list string) :=
  if String.eqb category "complexity" then
    Some ["### Reduce Code Complexity";
          "";
          "- Refactor functions with high cyclomatic complexity";
          "- Break down large functions into smaller, more focused ones";
          "- Simplify nested conditionals and loops";
          "- Consider using design patterns to simplify complex logic";
          ""]
  else if String.eqb category "duplication" then
    Some ["### Reduce Code Duplication";
          "";
          "- Extract duplicated code into reusable functions or methods";
          "- Create utility packages for common functionality";
          "- Apply DRY (Don't Repeat Yourself) principles";
          "- Consider using code generation for repetitive patterns";
          ""]
  else if String.eqb category "test_quality" then
    Some ["### Improve Test Quality";
          "";
          "- Add tests for uncovered files and functions";
          "- Increase test coverage for critical components";
          "- Implement table-driven tests for better coverage";
          "- Add integration and end-to-end tests";
          "- Use test-driven development (TDD) for new features";
          ""]
  else if String.eqb category "dependencies" then
    Some ["### Improve Dependency Health";
          "";
          "- Update outdated dependencies";
          "- Fix vulnerable dependencies immediately";
          "- Implement dependency scanning in CI/CD pipeline";
          "- Consider using dependency management tools";
          "- Regularly audit and prune unnecessary dependencies";
          ""]
  else if String.eqb category "churn" then
    Some ["### Reduce Code Churn";
          "";
          "- Stabilize frequently changing files";
          "- Improve test coverage for high-churn files";
          "- Review and refactor hotspots";
          "- Consider breaking down large, frequently changed files";
          "- Implement more thorough code reviews for high-churn areas";
          ""]
  else if String.eqb category "readability" then
    Some ["### Improve Code Readability";
          "";
          "- Fix linting and formatting issues";
          "- Add meaningful comments and documentation";
          "- Break down long functions";
          "- Use descriptive variable and function names";
          "- Follow Go style guidelines and best practices";
          "- Run gofmt and golint as part of your workflow";
          ""]
  else None.

(** One round of the loop over the three worst categories: the threshold
    is read only for a category that has advice. *)
Definition add_advice (thresholds : gmap string Q) (section : list string)
    (item : string * Q) : result (list string) :=
  match advice item.1 with
  | None => Ok section
  | Some block =>
      medium ← getitem thresholds "medium";
      if Py.gt item.2 medium then Ok (section ++ block) else Ok section
  end.

Fixpoint add_all (thresholds : gmap string Q) (section : list string)
    (items : list (string * Q)) : result (list string) :=
  match items with
  | [] => Ok section
  | item :: rest =>
      section' ← add_advice thresholds section item;
      add_all thresholds section' rest
  end.

(** [_create_recommendations], from [self.thresholds.thresholds] and the
    items of [results['category_scores']] in the order of the dict. *)
Definition create_recommendations (thresholds : gmap string Q)
    (category_scores : list (string * Q)) : result (list string) :=
  let sorted_categories := sorted_reverse snd category_scores in
  add_all thresholds ["## Recommendations"; ""] (take 3 sorted_categories).

End ReportGenerator.

(** The advice given for the items whose score exceeds [medium]. *)
Definition advised (medium : Q) (items : list (string * Q)) : list string :=
  concat ((λ item : string * Q,
             if Py.gt item.2 medium then default [] (ReportGenerator.advice item.1)
             else []) <$> items).

(** The six scores of the example as the items of a dict. *)
Definition example_items : list (string * Q) :=
  [("complexity", 80); ("duplication", 20); ("test_quality", 50);
   ("dependencies", 0); ("churn", 40); ("readability", 60)].

(** * The scoring core over Python's numbers

    The value that [normalize] or [aggregate] returns depends on how Python
    rounds.  This part embeds the two functions once more, over the numbers
    as Python has them: an [int], of any size and exact, or a [float], an
    IEEE 754 binary64 value ([spec_float] of the standard library with
    precision 53 and exponents below 1024, rounding to nearest, ties to
    even).  The operations convert, round and raise as CPython does. *)

Module Binary64.

Local Open Scope Z_scope.

Definition prec : Z := 53.
Definition emax : Z := 1024.

Inductive num : Type :=
| Int (n : Z)
| Float (f : spec_float).

(** [float(n)]: the nearest float, [OverflowError] when the int is too
    large for one. *)
Definition of_int (n : Z) : result spec_float :=
  match binary_normalize prec emax n 0 false with
  | S754_infinity _ => Raise OverflowError
  | f => Ok f
  end.

(** The operand of a float operation. *)
Definition to_float (a : num) : result spec_float :=
  match a with
  | Int n => of_int n
  | Float f => Ok f
  end.

(** [a + b], [a - b], [a * b]: exact on two ints; otherwise both operands
    are converted, the first one first, and the float operation rounds.  A
    float operation that overflows gives an infinity, not an exception. *)
Definition arith (int_op : Z → Z → Z) (float_op : spec_float → spec_float → spec_float)
    (a b : num) : result num :=
  match a, b with
  | Int m, Int n => Ok (Int (int_op m n))
  | _, _ => x ← to_float a; y ← to_float b; Ok (Float (float_op x y))
  end.

Definition add : num → num → result num := arith Z.add (SFadd prec emax).
Definition sub : num → num → result num := arith Z.sub (SFsub prec emax).
Definition mul : num → num → result num := arith Z.mul (SFmul prec emax).

Definition is_zero (f : spec_float) : bool :=
  match f with S754_zero _ => true | _ => false end.

(** [m / n] on two ints: the float nearest to the exact quotient, whatever
    the size of the operands; [OverflowError] when that quotient is too
    large for a float. *)
Definition int_truediv (m n : Z) : result num :=
  match m, n with
  | _, Z0 => Raise ZeroDivisionError
  | Z0, _ => Ok (Float (S754_zero (n <? 0)))
  | _, _ =>
      match SFdiv prec emax (S754_finite (m <? 0) (Z.to_pos (Z.abs m)) 0)
                            (S754_finite (n <? 0) (Z.to_pos (Z.abs n)) 0) with
      | S754_infinity _ => Raise OverflowError
      | f => Ok (Float f)
      end
  end.

(** [a / b]: with a float operand both are converted, then a zero divisor
    raises. *)
Definition truediv (a b : num) : result num :=
  match a, b with
  | Int m, Int n => int_truediv m n
  | _, _ =>
      x ← to_float a; y ← to_float b;
      if is_zero y then Raise ZeroDivisionError else Ok (Float (SFdiv prec emax x y))
  end.

(** The value of a number as [m * 2^e], when it has one. *)
Inductive extended : Type :=
| Finite (m e : Z)
| Infinite (negative : bool)
| NaN.

Definition value (a : num) : extended :=
  match a with
  | Int n => Finite n 0
  | Float (S754_zero _) => Finite 0 0
  | Float (S754_finite s m e) => Finite (cond_Zopp s (Zpos m)) e
  | Float (S754_infinity s) => Infinite s
  | Float S754_nan => NaN
  end.

Definition compare_extended (x y : extended) : option comparison :=
  match x, y with
  | NaN, _ | _, NaN => None
  | Infinite s, Infinite t => Some (if s then (if t then Eq else Lt) else (if t then Gt else Eq))
  | Infinite s, _ => Some (if s then Lt else Gt)
  | _, Infinite t => Some (if t then Gt else Lt)
  | Finite m1 e1, Finite m2 e2 =>
      let e := Z.min e1 e2 in
      Some (m1 * 2 ^ (e1 - e) ?= m2 * 2 ^ (e2 - e))
  end.

(** The comparison of two numbers is exact, also between an [int] and a
    [float]; there is none ([None]) when one of them is a NaN, and then
    every test below is false. *)
Definition compare (a b : num) : option comparison :=
  compare_extended (value a) (value b).

(** [a == b], [a < b], [a > b], [a <= b], [a >= b] *)
Definition eq (a b : num) : bool := bool_decide (compare a b = Some Eq).
Definition lt (a b : num) : bool := bool_decide (compare a b = Some Lt).
Definition gt (a b : num) : bool := lt b a.
Definition le (a b : num) : bool :=
  bool_decide (compare a b = Some Lt ∨ compare a b = Some Eq).
Definition ge (a b : num) : bool := le b a.

(** The builtins [max(a, b)] and [min(a, b)]: the first argument is kept
    unless the second is strictly greater, or strictly smaller. *)
Definition max (a b : num) : num := if gt b a then b else a.
Definition min (a b : num) : num := if lt b a then b else a.

(** The float nearest to the fraction [n / d]: what a decimal literal
    denotes. *)
Definition ratio (n d : Z) : spec_float :=
  match int_truediv n d with
  | Ok (Float f) => f
  | _ => S754_nan
  end.

Definition decimal (n d : Z) : num := Float (ratio n d).

(** [float(100)] *)
Definition float_100 : spec_float := S754_finite false 7036874417766400 (-46).

(** A score is in range when [0 <= a <= 100]. *)
Definition in_range (a : num) : Prop := le (Int 0) a = true ∧ le a (Int 100) = true.

(** ** scoring/normalizer.py *)

Module ScoreNormalizer.

(** [max(0, min(100, normalized))] *)
Definition clamp (normalized : num) : num := max (Int 0) (min (Int 100) normalized).

Definition normalize (value min_value max_value : num) : result num :=
  if eq max_value min_value then Ok (Int 0)
  else
    a ← sub value min_value;
    b ← sub max_value min_value;
    q ← truediv a b;
    normalized ← mul q (Int 100);
    Ok (clamp normalized).

Definition normalize_inverse (value min_value max_value : num) : result num :=
  n ← normalize value min_value max_value;
  sub (Int 100) n.

Definition normalize_complexity (value ideal worst : num) : result num :=
  normalize value ideal worst.

Definition normalize_percentage (value ideal worst : num) : result num :=
  normalize value ideal worst.

Definition normalize_inverse_percentage (value ideal worst : num) : result num :=
  normalize_inverse value worst ideal.

Definition normalize_count (value ideal worst : num) : result num :=
  normalize value ideal worst.

Definition normalize_ratio (value ideal worst : num) : result num :=
  if gt ideal worst then normalize_inverse value worst ideal
  else normalize value ideal worst.

Definition normalize_churn (value ideal worst : num) : result num :=
  normalize value ideal worst.

(** The normalizer's eight functions. *)
Definition functions : list (num → num → num → result num) :=
  [normalize; normalize_inverse; normalize_complexity; normalize_percentage;
   normalize_inverse_percentage; normalize_count; normalize_ratio; normalize_churn].

End ScoreNormalizer.

(** The clamp [clamp(x, 0, 100)] of the specification on the numbers of
    Python: [x] between the two bounds, the bound it passes otherwise, and
    100 for a NaN, which compares false with every number. *)
Definition spec_clamp (x : num) : num :=
  if lt x (Int 100)
  then (if lt (Int 0) x then x else Int 0)
  else Int 100.

(** ** The builtin [sum]

    [sum] adds from the left, starting from the int 0.  Up to CPython 3.11
    every addition is the plain one.  From CPython 3.12 on, once the running
    total is a float, floats are added with Neumaier's compensation: the
    rounding errors are collected in a second float, which is added at the
    end; an int met meanwhile is added plainly when it fits a C [long] (64
    bits here), and otherwise ends the compensation.  The result of an
    aggregation with float weights depends on which of the two runs. *)

Inductive summation : Type :=
| left_to_right
| compensated.

(** [result = result + item] for each item in turn. *)
Fixpoint sum_from (acc : num) (items : list num) : result num :=
  match items with
  | [] => Ok acc
  | item :: rest => acc' ← add acc item; sum_from acc' rest
  end.

Definition fits_long (n : Z) : bool := (- 2 ^ 63 <=? n) && (n <? 2 ^ 63).

Definition is_finite (f : spec_float) : bool :=
  match f with
  | S754_zero _ | S754_finite _ _ _ => true
  | _ => false
  end.

(** The compensation is added when it is finite and not zero. *)
Definition compensate (f c : spec_float) : spec_float :=
  if negb (is_zero c) && is_finite c then SFadd prec emax f c else f.

(** The loop over the items once the total [f] is a float; [c] is the
    compensation. *)
Fixpoint sum_floats (f c : spec_float) (items : list num) : result num :=
  match items with
  | [] => Ok (Float (compensate f c))
  | Float x :: rest =>
      let t := SFadd prec emax f x in
      let c' :=
        if SFleb (SFabs x) (SFabs f)
        then SFadd prec emax c (SFadd prec emax (SFsub prec emax f t) x)
        else SFadd prec emax c (SFadd prec emax (SFsub prec emax x t) f) in
      sum_floats t c' rest
  | Int n :: rest =>
      if fits_long n then
        y ← of_int n;
        sum_floats (SFadd prec emax f y) c rest
      else
        acc ← add (Float (compensate f c)) (Int n);
        sum_from acc rest
  end.

(** The loop while the total is an int that fits a C [long]. *)
Fixpoint sum_ints (acc : Z) (items : list num) : result num :=
  match items with
  | [] => Ok (Int acc)
  | Int n :: rest =>
      if fits_long n && fits_long (acc + n) then sum_ints (acc + n) rest
      else sum_from (Int (acc + n)) rest
  | Float x :: rest =>
      first ← add (Int acc) (Float x);
      match first with
      | Float f => sum_floats f (S754_zero false) rest
      | Int _ => sum_from first rest
      end
  end.

(** [sum(items)] *)
Definition sum (algorithm : summation) (items : list num) : result num :=
  match algorithm with
  | left_to_right => sum_from (Int 0) items
  | compensated => sum_ints 0 items
  end.

(** ** scoring/aggregator.py

    A dict of numbers is the list of its items in insertion order, the order
    in which [weights.values()] yields the values; no key occurs twice. *)

Definition categories : list string := Eval cbv in ScoreAggregator.categories.

(** [d[k]] *)
Definition dict_getitem (d : list (string * num)) (k : string) : result num :=
  getitem (list_to_map d : gmap string num) k.

Module ScoreAggregator.

(** The six products are added from the left, as Python evaluates
    [a*u + b*v + ...]; of each product the score is read before the
    weight. *)
Definition aggregate (algorithm : summation) (config : gmap string (list (string * num)))
    (metrics : gmap string (gmap string num)) : result (num * list (string * num)) :=
  complexity ← getitem2 metrics "complexity" "overall_score";
  duplication ← getitem2 metrics "duplication" "score";
  test_quality ← getitem2 metrics "test_quality" "overall_score";
  dependencies ← getitem2 metrics "dependencies" "score";
  churn ← getitem2 metrics "churn" "score";
  readability ← getitem2 metrics "readability" "score";
  let category_scores :=
    [("complexity", complexity); ("duplication", duplication);
     ("test_quality", test_quality); ("dependencies", dependencies);
     ("churn", churn); ("readability", readability)] in
  weights ← getitem config "weights";
  w ← dict_getitem weights "complexity";
  total ← mul complexity w;
  w ← dict_getitem weights "duplication";
  p ← mul duplication w;
  total ← add total p;
  w ← dict_getitem weights "test_quality";
  p ← mul test_quality w;
  total ← add total p;
  w ← dict_getitem weights "dependencies";
  p ← mul dependencies w;
  total ← add total p;
  w ← dict_getitem weights "churn";
  p ← mul churn w;
  total ← add total p;
  w ← dict_getitem weights "readability";
  p ← mul readability w;
  total ← add total p;
  divisor ← sum algorithm weights.*2;
  overall_score ← truediv total divisor;
  Ok (overall_score, category_scores).

End ScoreAggregator.

(** [metrics] holds the six categories, each with its score field. *)
Definition has_scores (metrics : gmap string (gmap string num)) (score : string → num) : Prop :=
  ∀ c, c ∈ categories →
    ∃ summary, metrics !! c = Some summary ∧ summary !! score_field c = Some (score c).

(** The items of a dict over exactly the six categories, in any order. *)
Definition six_items (weights : list (string * num)) (weight : string → num) : Prop :=
  weights ≡ₚ (λ c, (c, weight c)) <$> categories.

(** The numerator [Σ category_scores[c] * weights[c]] as Python computes it:
    the products are added from the left, each operation rounded. *)
Definition weighted_sum (score weight : string → num) : result num :=
  foldl (λ total c, t ← total; p ← mul (score c) (weight c); add t p)
    (mul (score "complexity") (weight "complexity"))
    ["duplication"; "test_quality"; "dependencies"; "churn"; "readability"].

(** The items of [category_scores]. *)
Definition score_items (score : string → num) : list (string * num) :=
  (λ c, (c, score c)) <$> categories.

(** A number that every operation of [normalize] takes without overflow: an
    [int] below [2^52] in magnitude, or any [float]. *)
Definition regular (a : num) : Prop :=
  match a with
  | Int n => - 2 ^ 52 < n < 2 ^ 52
  | Float f => valid_binary prec emax f = true
  end.

(** [Σ w(c)] and [Σ s(c) * w(c)] over the six categories, for integers. *)
Definition total (w : string → Z) : Z := foldr (λ c acc, w c + acc) 0 categories.

Definition dot (s w : string → Z) : Z := foldr (λ c acc, s c * w c + acc) 0 categories.

(** The metrics of six scores. *)
Definition six_scores (a b c d e f : num) : gmap string (gmap string num) :=
  <["complexity" := {[ "overall_score" := a ]}]> (
  <["duplication" := {[ "score" := b ]}]> (
  <["test_quality" := {[ "overall_score" := c ]}]> (
  <["dependencies" := {[ "score" := d ]}]> (
  <["churn" := {[ "score" := e ]}]> (
  {[ "readability" := {[ "score" := f ]} ]}))))).

(** A configuration whose weights dict holds the six categories in the
    order of the aggregator. *)
Definition six_weights (a b c d e f : num) : gmap string (list (string * num)) :=
  {[ "weights" :=
       [("complexity", a); ("duplication", b); ("test_quality", c);
        ("dependencies", d); ("churn", e); ("readability", f)] ]}.

(** The six scores or weights as a function of the category. *)
Definition six {A : Type} (a b c d e f : A) (category : string) : A :=
  if String.eqb category "complexity" then a
  else if String.eqb category "duplication" then b
  else if String.eqb category "test_quality" then c
  else if String.eqb category "dependencies" then d
  else if String.eqb category "churn" then e
  else f.

(** The overall score of a result. *)
Definition overall_of (r : result (num * list (string * num))) : result num :=
  match r with
  | Ok (overall_score, _) => Ok overall_score
  | Raise e => Raise e
  end.

(** ** Bounds on floats

    [m * 2^e <= K] and [m * 2^e < K] for integers, without fractions. *)

Definition scaled_le (m e K : Z) : Prop :=
  m * 2 ^ (e - Z.min e 0) ≤ K * 2 ^ (0 - Z.min e 0).

Definition scaled_lt (m e K : Z) : Prop :=
  m * 2 ^ (e - Z.min e 0) < K * 2 ^ (0 - Z.min e 0).

(** A float of the given sign whose magnitude is at most [K]. *)
Definition float_le (sx : bool) (K : Z) (f : spec_float) : Prop :=
  match f with
  | S754_zero s => s = sx
  | S754_finite s m e => s = sx ∧ scaled_le (Zpos m) e K
  | _ => False
  end.

(** A float that is zero or positive and at most [K]. *)
Definition nonneg_le (K : Z) (f : spec_float) : Prop :=
  match f with
  | S754_zero _ => True
  | S754_finite false m e => scaled_le (Zpos m) e K
  | _ => False
  end.

(** A number between 0 and [K]. *)
Definition within (K : Z) (a : num) : Prop :=
  match a with
  | Int n => 0 ≤ n ≤ K
  | Float f => nonneg_le K f
  end.

(** [f] is the binary64 value of the number [a], exactly. *)
Definition represents (f : spec_float) (a : num) : Prop :=
  valid_binary prec emax f = true
  ∧ ∀ b, compare (Float f) b = compare a b ∧ compare b (Float f) = compare b a.

(** An [int] that converts to a float exactly, or any float. *)
Definition small (a : num) : Prop :=
  match a with
  | Int n => - 2 ^ 53 < n < 2 ^ 53
  | Float _ => True
  end.

(** A divisor that is not zero. *)
Definition nonzero (a : num) : Prop :=
  match a with
  | Int n => n ≠ 0
  | Float f => is_zero f = false
  end.

End Binary64.

(** * Properties *)

(** ** Python arithmetic *)

Lemma py_ge_true (a b : Q) : Py.ge a b = true ↔ b <= a.
Proof. unfold Py.ge. apply Qle_bool_iff. Qed.

Lemma py_ge_false (a b : Q) : Py.ge a b = false ↔ a < b.
Proof.
  unfold Py.ge. destruct (Qle_bool b a) eqn:E.
  - apply Qle_bool_iff in E. split; [done|]. intros H. by apply Qlt_not_le in H.
  - split; [|done]. intros _. apply Qnot_le_lt. intros H.
    apply Qle_bool_iff in H. congruence.
Qed.

Lemma py_gt_true (a b : Q) : Py.gt a b = true ↔ b < a.
Proof. unfold Py.gt. rewrite negb_true_iff. apply (py_ge_false b a). Qed.

Lemma py_gt_false (a b : Q) : Py.gt a b = false ↔ a <= b.
Proof. unfold Py.gt. rewrite negb_false_iff. apply Qle_bool_iff. Qed.



Lemma py_eq_true (a b : Q) : Py.eq a b = true ↔ a == b.
Proof. apply Qeq_bool_iff. Qed.






Lemma truediv_ok (a b : Q) : ¬ b == 0 → Py.truediv a b = Ok (a / b).
Proof.
  intros H. unfold Py.truediv.
  destruct (Qeq_bool b 0) eqn:E; [|done]. by apply Qeq_bool_iff in E.
Qed.

(** ** The normalizer *)

Section Normalizer.

Import ScoreNormalizer.

Lemma normalize_degenerate (value min_value max_value : Q) :
  max_value == min_value → normalize value min_value max_value = Ok 0.
Proof. intros H. unfold normalize. apply py_eq_true in H. by rewrite H. Qed.






(** C4: on a degenerate range, [normalize(value, X, X)] returns 0 whatever
    the value; no exception is raised. *)
Theorem normalize_degenerate_range (value X : Q) :
  normalize value X X = Ok 0.
Proof. by apply normalize_degenerate. Qed.

(** C6: [normalize_ratio] takes its direction from the order of [ideal] and
    [worst]: it is [normalize_inverse(value, worst, ideal)] when
    [ideal > worst] and [normalize(value, ideal, worst)] otherwise; so
    [normalize_ratio(v, 10, 1)] is [normalize_inverse(v, 1, 10)] and
    [normalize_ratio(v, 1, 10)] is [normalize(v, 1, 10)]. *)
Theorem normalize_ratio_direction (value ideal worst : Q) :
  (worst < ideal → normalize_ratio value ideal worst = normalize_inverse value worst ideal)
  ∧ (¬ worst < ideal → normalize_ratio value ideal worst = normalize value ideal worst)
  ∧ normalize_ratio value 10 1 = normalize_inverse value 1 10
  ∧ normalize_ratio value 1 10 = normalize value 1 10.
Proof.
  repeat split.
  - intros H. unfold normalize_ratio. apply py_gt_true in H. by rewrite H.
  - intros H. unfold normalize_ratio. apply Qnot_lt_le, py_gt_false in H. by rewrite H.
Qed.

Lemma normalize_ratio_direction_witness :
  normalize_ratio 5 10 1 = normalize_inverse 5 1 10
  ∧ normalize_ratio 5 1 10 = normalize 5 1 10.
Proof.
  split.
  - apply (proj1 (normalize_ratio_direction 5 10 1)). reflexivity.
  - apply (proj1 (proj2 (normalize_ratio_direction 5 1 10))).
    intros H. vm_compute in H. discriminate H.
Defined.

(** C10: on a degenerate range the inverse direction yields the worst score:
    [normalize_inverse(v, X, X)] and [normalize_inverse_percentage(v, X, X)]
    return 100, where [normalize(v, X, X)] and its ascending wrappers
    return 0. *)
Theorem normalize_inverse_degenerate_range (v X : Q) :
  normalize_inverse v X X = Ok 100
  ∧ normalize_inverse_percentage v X X = Ok 100
  ∧ normalize v X X = Ok 0
  ∧ normalize_complexity v X X = Ok 0
  ∧ normalize_percentage v X X = Ok 0
  ∧ normalize_count v X X = Ok 0
  ∧ normalize_churn v X X = Ok 0.
Proof.
  assert (normalize v X X = Ok 0) as H0 by by apply normalize_degenerate.
  assert (normalize_inverse v X X = Ok 100) as H100.
  { unfold normalize_inverse. by rewrite H0. }
  repeat split; done.
Qed.

End Normalizer.

(** ** The threshold classifier *)

Section Thresholds.

Import DebtThresholds.

Lemma get_debt_level_high (thresholds : gmap string Q) (score high : Q) :
  thresholds !! "high" = Some high → high <= score →
  get_debt_level thresholds score = Ok "high".
Proof.
  intros Hh H. unfold get_debt_level, getitem. rewrite Hh. simpl.
  apply py_ge_true in H. by rewrite H.
Qed.

Lemma get_debt_level_medium (thresholds : gmap string Q) (score medium high : Q) :
  thresholds !! "medium" = Some medium → thresholds !! "high" = Some high →
  score < high → medium <= score →
  get_debt_level thresholds score = Ok "medium".
Proof.
  intros Hm Hh H1 H2. unfold get_debt_level, getitem. rewrite Hh. simpl.
  apply py_ge_false in H1. rewrite H1, Hm. simpl.
  apply py_ge_true in H2. by rewrite H2.
Qed.

Lemma get_debt_level_low (thresholds : gmap string Q) (score medium high : Q) :
  thresholds !! "medium" = Some medium → thresholds !! "high" = Some high →
  score < high → score < medium →
  get_debt_level thresholds score = Ok "low".
Proof.
  intros Hm Hh H1 H2. unfold get_debt_level, getitem. rewrite Hh. simpl.
  apply py_ge_false in H1. rewrite H1, Hm. simpl.
  apply py_ge_false in H2. by rewrite H2.
Qed.

(** C5: with thresholds that hold [medium] and [high], [get_debt_level]
    returns ['high'] exactly when [score >= high], ['medium'] exactly when
    [medium <= score < high], and ['low'] exactly in the remaining case, so a
    score on a boundary belongs to the higher level; with
    [{low:0, medium:40, high:70}] the scores 40, 39.999, 70 and 69.999 are
    classified medium, low, high and medium.  (The entry [low] is never
    read.) *)
Theorem get_debt_level_boundaries :
  (∀ (thresholds : gmap string Q) (score medium high : Q),
     thresholds !! "medium" = Some medium →
     thresholds !! "high" = Some high →
     ∃ level, get_debt_level thresholds score = Ok level
       ∧ (level = "high" ↔ high <= score)
       ∧ (level = "medium" ↔ medium <= score ∧ score < high)
       ∧ (level = "low" ↔ ¬ high <= score ∧ ¬ (medium <= score ∧ score < high)))
  ∧ get_debt_level example_thresholds 40 = Ok "medium"
  ∧ get_debt_level example_thresholds 39.999 = Ok "low"
  ∧ get_debt_level example_thresholds 70 = Ok "high"
  ∧ get_debt_level example_thresholds 69.999 = Ok "medium".
Proof.
  split; [|by vm_compute].
  intros thresholds score medium high Hm Hh.
  destruct (Qlt_le_dec score high) as [H1|H1].
  - destruct (Qlt_le_dec score medium) as [H2|H2].
    + exists "low". split; [by eapply get_debt_level_low|].
      repeat split; try done; try lra.
    + exists "medium". split; [by eapply get_debt_level_medium|].
      repeat split; try done; try lra.
  - exists "high". split; [by eapply get_debt_level_high|].
    repeat split; try done; try lra.
Qed.

Lemma get_debt_level_boundaries_witness :
  ∃ level, get_debt_level example_thresholds 40 = Ok level
    ∧ (level = "medium" ↔ 40 <= 40 ∧ 40 < 70).
Proof.
  destruct (proj1 get_debt_level_boundaries example_thresholds 40 40 70 eq_refl eq_refl)
    as (level & H & _ & Hm & _).
  exists level. split; [exact H | exact Hm].
Defined.

End Thresholds.

(** ** The aggregator *)

Section Aggregator.

Import ScoreAggregator.

Lemma sum_values_insert (k : string) (w : Q) (weights : gmap string Q) :
  weights !! k = None →
  sum_values (<[k := w]> weights) == sum_values weights + w.
Proof.
  intros Hk. unfold sum_values.
  apply (map_fold_insert Qeq (λ _ w acc, acc + w)); [| |done].
  - intros _ z x y Hxy. by rewrite Hxy.
  - intros. lra.
Qed.

Lemma categories_NoDup : NoDup categories.
Proof. apply (bool_decide_unpack _). by vm_compute. Qed.

(** A mapping over exactly the six categories is the one built from them. *)
Lemma weights_six (weights : gmap string Q) (weight : string → Q) :
  dom weights = list_to_set categories →
  (∀ c, c ∈ categories → weights !! c = Some (weight c)) →
  weights = list_to_map ((λ c, (c, weight c)) <$> categories).
Proof.
  intros Hdom Hw. apply map_eq. intros i.
  destruct (decide (i ∈ categories)) as [Hi|Hi].
  - rewrite (Hw i Hi). symmetry. apply elem_of_list_to_map.
    + change (NoDup categories). apply categories_NoDup.
    + apply list_elem_of_fmap. by exists i.
  - transitivity (@None Q).
    + apply not_elem_of_dom. rewrite Hdom. set_solver.
    + symmetry. apply not_elem_of_list_to_map. exact Hi.
Qed.

Lemma sum_values_six (weights : gmap string Q) (weight : string → Q) :
  dom weights = list_to_set categories →
  (∀ c, c ∈ categories → weights !! c = Some (weight c)) →
  sum_values weights == total_weight weight.
Proof.
  intros Hdom Hw. rewrite (weights_six weights weight Hdom Hw).
  unfold total_weight, categories. simpl.
  rewrite !sum_values_insert by done.
  unfold sum_values. rewrite map_fold_empty. lra.
Qed.

Lemma getitem_Some {V : Type} (d : gmap string V) (k : string) (v : V) :
  d !! k = Some v → getitem d k = Ok v.
Proof. intros H. unfold getitem. by rewrite H. Qed.

Lemma getitem2_Some {V : Type} (d : gmap string (gmap string V)) (inner : gmap string V)
    (k1 k2 : string) (v : V) :
  d !! k1 = Some inner → inner !! k2 = Some v → getitem2 d k1 k2 = Ok v.
Proof.
  intros H1 H2. unfold getitem2. rewrite (getitem_Some _ _ _ H1). simpl.
  by apply getitem_Some.
Qed.

Lemma weighted_Some (category_scores : gmap string pyval) (weights : gmap string Q)
    (c : string) (s w : Q) :
  category_scores !! c = Some (PyNum s) → weights !! c = Some w →
  weighted category_scores weights c = Ok (s * w).
Proof.
  intros H1 H2. unfold weighted.
  rewrite (getitem_Some _ _ _ H1). simpl. by rewrite (getitem_Some _ _ _ H2).
Qed.

(** What [aggregate] returns on an input with the six scores and the six
    weights, as the source computes it. *)
Lemma aggregate_returns (config : gmap string (gmap string Q))
    (metrics : gmap string (gmap string pyval)) (weights : gmap string Q)
    (score weight : string → Q) :
  has_scores metrics score →
  config !! "weights" = Some weights →
  (∀ c, c ∈ categories → weights !! c = Some (weight c)) →
  ¬ sum_values weights == 0 →
  ∃ category_scores,
    aggregate config metrics =
      Ok ((score "complexity" * weight "complexity"
           + score "duplication" * weight "duplication"
           + score "test_quality" * weight "test_quality"
           + score "dependencies" * weight "dependencies"
           + score "churn" * weight "churn"
           + score "readability" * weight "readability") / sum_values weights,
          category_scores)
    ∧ ∀ c, c ∈ categories → category_scores !! c = Some (PyNum (score c)).
Proof.
  intros Hs Hc Hw Hnz.
  destruct (Hs "complexity" ltac:(category)) as (m1 & Hm1 & Hf1).
  destruct (Hs "duplication" ltac:(category)) as (m2 & Hm2 & Hf2).
  destruct (Hs "test_quality" ltac:(category)) as (m3 & Hm3 & Hf3).
  destruct (Hs "dependencies" ltac:(category)) as (m4 & Hm4 & Hf4).
  destruct (Hs "churn" ltac:(category)) as (m5 & Hm5 & Hf5).
  destruct (Hs "readability" ltac:(category)) as (m6 & Hm6 & Hf6).
  eexists. split.
  - unfold aggregate.
    rewrite (getitem2_Some metrics m1 "complexity" "overall_score" _ Hm1 Hf1). simpl.
    rewrite (getitem2_Some metrics m2 "duplication" "score" _ Hm2 Hf2). simpl.
    rewrite (getitem2_Some metrics m3 "test_quality" "overall_score" _ Hm3 Hf3). simpl.
    rewrite (getitem2_Some metrics m4 "dependencies" "score" _ Hm4 Hf4). simpl.
    rewrite (getitem2_Some metrics m5 "churn" "score" _ Hm5 Hf5). simpl.
    rewrite (getitem2_Some metrics m6 "readability" "score" _ Hm6 Hf6). simpl.
    rewrite (getitem_Some _ _ _ Hc). simpl.
    rewrite (weighted_Some _ _ "complexity" (score "complexity") (weight "complexity"))
      by (done || (apply Hw; category)). simpl.
    rewrite (weighted_Some _ _ "duplication" (score "duplication") (weight "duplication"))
      by (done || (apply Hw; category)). simpl.
    rewrite (weighted_Some _ _ "test_quality" (score "test_quality") (weight "test_quality"))
      by (done || (apply Hw; category)). simpl.
    rewrite (weighted_Some _ _ "dependencies" (score "dependencies") (weight "dependencies"))
      by (done || (apply Hw; category)). simpl.
    rewrite (weighted_Some _ _ "churn" (score "churn") (weight "churn"))
      by (done || (apply Hw; category)). simpl.
    rewrite (weighted_Some _ _ "readability" (score "readability") (weight "readability"))
      by (done || (apply Hw; category)). simpl.
    rewrite truediv_ok by done. reflexivity.
  - intros c Hc'. unfold categories in Hc'.
    repeat (apply elem_of_cons in Hc' as [->|Hc']; [done|]).
    by apply elem_of_nil in Hc'.
Qed.

Lemma elem_of_categories (P : string → Prop) :
  P "complexity" → P "duplication" → P "test_quality" →
  P "dependencies" → P "churn" → P "readability" →
  ∀ c, c ∈ categories → P c.
Proof.
  intros ? ? ? ? ? ? c Hc. unfold categories in Hc.
  repeat (apply elem_of_cons in Hc as [->|Hc]; [done|]).
  by apply elem_of_nil in Hc.
Qed.

Lemma example_has_scores : has_scores example_metrics example_score.
Proof.
  unfold has_scores. apply elem_of_categories; eexists; (split; [reflexivity|]);
    reflexivity.
Qed.

Lemma unit_weights_has_weights : has_weights unit_weights_config (λ _, 1).
Proof.
  eexists. split; [reflexivity|]. split.
  - apply set_eq. intros c. rewrite elem_of_dom, elem_of_list_to_set.
    split.
    + intros [w Hw]. apply elem_of_list_to_map_2 in Hw.
      apply list_elem_of_fmap in Hw as (c' & [= -> _] & Hc'). done.
    + intros Hc. exists 1. apply elem_of_list_to_map_1.
      * change (NoDup categories). apply categories_NoDup.
      * apply list_elem_of_fmap. by exists c.
  - apply elem_of_categories; reflexivity.
Qed.

End Aggregator.

(** ** The dependency collector *)

Section Dependencies.

Import DependencyAnalyzer.

Lemma analyze_info_error (config : gmap string (gmap string Q))
    (dependency_info : gmap string pyval) (vulnerable_deps : list string) :
  is_Some (dependency_info !! "error") →
  analyze_info config dependency_info vulnerable_deps = Ok not_a_module.
Proof. intros H. unfold analyze_info. by rewrite bool_decide_eq_true_2. Qed.

(** C8: when the dependency analysis reports an error (the repository is not
    a Go module), [analyze] raises nothing and returns a summary with
    [score] 0 and [is_module] false, the same for every configuration. *)
Theorem analyze_not_a_module (config : gmap string (gmap string Q))
    (repo : GoToolRunner.repository) :
  is_Some (GoToolRunner.analyze_dependencies repo !! "error") →
  ∃ summary,
    analyze config repo = Ok summary
    ∧ summary !! "score" = Some (PyNum 0)
    ∧ summary !! "is_module" = Some (PyBool false)
    ∧ ∀ config', analyze config' repo = Ok summary.
Proof.
  intros H. exists not_a_module. unfold analyze.
  split; [by apply analyze_info_error|]. split; [reflexivity|]. split; [reflexivity|].
  intros config'. by apply analyze_info_error.
Qed.

Lemma analyze_not_a_module_witness :
  ∃ summary,
    analyze ∅ bare_repository = Ok summary
    ∧ summary !! "score" = Some (PyNum 0)
    ∧ summary !! "is_module" = Some (PyBool false)
    ∧ ∀ config', analyze config' bare_repository = Ok summary.
Proof.
  apply (analyze_not_a_module ∅ bare_repository).
  exists (PyStr "Not a Go module"). reflexivity.
Defined.

End Dependencies.

(** ** The test-quality collector *)

Section TestQuality.

Import TestQualityAnalyzer.

Variable relpath : string → string → string.
Variable repo_path : string.
Variable coverage_data : gmap string string.




Lemma max_1_nonzero (n : Z) : ¬ inject_Z (Z.max 1 n) == 0.
Proof. unfold Qeq. simpl. lia. Qed.



End TestQuality.




(** * Further properties of the scoring core *)

(** ** The normalizer: end points, monotonicity, direction *)

Section NormalizerShape.

Import ScoreNormalizer.







End NormalizerShape.

(** ** The classifier: missing entries, monotonicity, the two front ends *)

Section ThresholdsShape.

Import DebtThresholds.

(** X4: the level never decreases when the score grows, whatever the order
    of the two thresholds. *)
Theorem get_debt_level_monotone (thresholds : gmap string Q)
    (score1 score2 medium high : Q) :
  thresholds !! "medium" = Some medium →
  thresholds !! "high" = Some high →
  score1 <= score2 →
  ∃ level1 level2,
    get_debt_level thresholds score1 = Ok level1
    ∧ get_debt_level thresholds score2 = Ok level2
    ∧ (level_rank level1 <= level_rank level2)%nat.
Proof.
  intros Hm Hh Hs.
  destruct (Qlt_le_dec score2 high) as [H2|H2].
  - destruct (Qlt_le_dec score2 medium) as [M2|M2].
    + exists "low", "low".
      rewrite !(get_debt_level_low thresholds _ medium high) by (done || lra).
      by repeat split.
    + destruct (Qlt_le_dec score1 medium) as [M1|M1].
      * exists "low", "medium".
        rewrite (get_debt_level_low thresholds _ medium high) by (done || lra).
        rewrite (get_debt_level_medium thresholds _ medium high) by (done || lra).
        repeat split. vm_compute. lia.
      * exists "medium", "medium".
        rewrite !(get_debt_level_medium thresholds _ medium high) by (done || lra).
        by repeat split.
  - destruct (get_debt_level thresholds score1) as [level1|e] eqn:E1.
    + exists level1, "high".
      rewrite (get_debt_level_high thresholds _ high) by done.
      split; [done|]. split; [done|].
      unfold level_rank. change (String.eqb "high" "high") with true.
      cbv iota. repeat case_match; lia.
    + exfalso. unfold get_debt_level, getitem in E1. rewrite Hh in E1. simpl in E1.
      destruct (Py.ge score1 high); [done|]. rewrite Hm in E1. simpl in E1.
      by destruct (Py.ge score1 medium).
Qed.

Lemma get_debt_level_monotone_witness :
  ∃ level1 level2,
    get_debt_level example_thresholds 39.999 = Ok level1
    ∧ get_debt_level example_thresholds 40 = Ok level2
    ∧ (level_rank level1 <= level_rank level2)%nat.
Proof.
  apply (get_debt_level_monotone example_thresholds 39.999 40 40 70);
    [reflexivity | reflexivity |].
  intros H. vm_compute in H. discriminate H.
Defined.

(** X5: missing entries.  Without [high] every classification raises
    [KeyError('high')].  Without [medium] a score at or above [high] is still
    classified, and every lower score raises [KeyError('medium')]. *)
Theorem get_debt_level_missing_entry (thresholds : gmap string Q) (score : Q) :
  (thresholds !! "high" = None →
   get_debt_level thresholds score = Raise (KeyError "high"))
  ∧ (∀ high, thresholds !! "high" = Some high → thresholds !! "medium" = None →
       (high <= score → get_debt_level thresholds score = Ok "high")
       ∧ (score < high → get_debt_level thresholds score = Raise (KeyError "medium"))).
Proof.
  split.
  - intros H. unfold get_debt_level, getitem. by rewrite H.
  - intros high Hh Hm. split; intros Hs.
    + by apply (get_debt_level_high thresholds score high).
    + unfold get_debt_level, getitem. rewrite Hh. simpl.
      apply py_ge_false in Hs. rewrite Hs, Hm. done.
Qed.

Lemma get_debt_level_missing_entry_witness :
  get_debt_level ∅ 50 = Raise (KeyError "high")
  ∧ get_debt_level {[ "high" := 70 ]} 80 = Ok "high"
  ∧ get_debt_level {[ "high" := 70 ]} 50 = Raise (KeyError "medium").
Proof.
  split; [|split].
  - apply (proj1 (get_debt_level_missing_entry ∅ 50)). reflexivity.
  - apply (proj2 (get_debt_level_missing_entry {[ "high" := 70 ]} 80) 70);
      [reflexivity | reflexivity |].
    intros H. vm_compute in H. discriminate H.
  - apply (proj2 (get_debt_level_missing_entry {[ "high" := 70 ]} 50) 70);
      reflexivity.
Defined.

(** X6: [get_category_thresholds] returns the category's own thresholds when
    the configuration has them and the global ones otherwise; when the
    configuration has no [category_thresholds] entry at all it raises
    [KeyError] for every category, although the object was built and
    [get_debt_level] works. *)
Theorem get_category_thresholds_lookup (cfg : CategoryThresholds.settings)
    (global : gmap string Q) (category : string) :
  CategoryThresholds.thresholds_entry cfg = Some global →
  ∃ self,
    CategoryThresholds.init cfg = Ok self
    ∧ CategoryThresholds.get_debt_level self = get_debt_level global
    ∧ match CategoryThresholds.category_thresholds_entry cfg with
      | None =>
          CategoryThresholds.get_category_thresholds self category
          = Raise (KeyError "category_thresholds")
      | Some overrides =>
          CategoryThresholds.get_category_thresholds self category
          = Ok (default global (overrides !! category))
      end.
Proof.
  intros H. eexists. unfold CategoryThresholds.init. rewrite H.
  split; [done|]. split; [done|].
  unfold CategoryThresholds.get_category_thresholds. simpl.
  destruct (CategoryThresholds.category_thresholds_entry cfg) as [overrides|]; [|done].
  by destruct (overrides !! category).
Qed.

Lemma get_category_thresholds_lookup_witness :
  ∃ self,
    CategoryThresholds.init
      {| CategoryThresholds.thresholds_entry := Some example_thresholds;
         CategoryThresholds.category_thresholds_entry := None |} = Ok self
    ∧ CategoryThresholds.get_category_thresholds self "complexity"
      = Raise (KeyError "category_thresholds").
Proof.
  destruct (get_category_thresholds_lookup
              {| CategoryThresholds.thresholds_entry := Some example_thresholds;
                 CategoryThresholds.category_thresholds_entry := None |}
              example_thresholds "complexity" eq_refl) as (self & Hinit & _ & Hget).
  exists self. split; [exact Hinit | exact Hget].
Defined.

(** X7: the breakdown printed by the command line and the level of
    [get_debt_level] (in upper case, as the service reports it) agree except
    on a boundary: the command line tests [score > threshold], so a score
    equal to [high], or equal to [medium] and below [high], is printed one
    level lower - or two, when it equals [high] and does not exceed
    [medium]. *)
Theorem breakdown_level_boundary (config : gmap string (gmap string Q))
    (thresholds : gmap string Q) (score medium high : Q) :
  config !! "thresholds" = Some thresholds →
  thresholds !! "medium" = Some medium →
  thresholds !! "high" = Some high →
  ∃ printed level,
    Cli.breakdown_level config score = Ok printed
    ∧ get_debt_level thresholds score = Ok level
    ∧ (printed = upper level ↔ ¬ score == high ∧ ¬ (score == medium ∧ score < high)).
Proof.
  intros Hc Hm Hh. unfold Cli.breakdown_level.
  rewrite (getitem2_Some config thresholds "thresholds" "high" high Hc Hh). simpl.
  destruct (Qlt_le_dec high score) as [H1|H1].
  - exists "HIGH", "high".
    rewrite (proj2 (py_gt_true score high) H1).
    rewrite (get_debt_level_high thresholds score high) by (done || lra).
    split; [done|]. split; [done|]. split; [|done].
    intros _. split; [lra|]. intros [_ ?]. lra.
  - rewrite (proj2 (py_gt_false score high) H1).
    rewrite (getitem2_Some config thresholds "thresholds" "medium" medium Hc Hm). simpl.
    destruct (Qlt_le_dec score high) as [H2|H2].
    + destruct (Qlt_le_dec medium score) as [M|M].
      * exists "MEDIUM", "medium".
        rewrite (proj2 (py_gt_true score medium) M).
        rewrite (get_debt_level_medium thresholds score medium high) by (done || lra).
        split; [done|]. split; [done|]. split; [|done].
        intros _. split; [lra|]. intros [? _]. lra.
      * rewrite (proj2 (py_gt_false score medium) M).
        destruct (Qlt_le_dec score medium) as [M'|M'].
        -- exists "LOW", "low".
           rewrite (get_debt_level_low thresholds score medium high) by (done || lra).
           split; [done|]. split; [done|]. split; [|done].
           intros _. split; [lra|]. intros [? _]. lra.
        -- exists "LOW", "medium".
           rewrite (get_debt_level_medium thresholds score medium high) by (done || lra).
           split; [done|]. split; [done|]. split; [done|].
           intros [_ H]. destruct H. split; [lra | done].
    + exists (if Py.gt score medium then "MEDIUM" else "LOW"), "high".
      rewrite (get_debt_level_high thresholds score high) by (done || lra).
      split; [by destruct (Py.gt score medium)|]. split; [done|]. split.
      * by destruct (Py.gt score medium).
      * intros [H _]. destruct H. lra.
Qed.

Lemma breakdown_level_boundary_witness :
  ∃ printed level,
    Cli.breakdown_level {[ "thresholds" := example_thresholds ]} 70 = Ok printed
    ∧ get_debt_level example_thresholds 70 = Ok level
    ∧ printed ≠ upper level.
Proof.
  destruct (breakdown_level_boundary {[ "thresholds" := example_thresholds ]}
              example_thresholds 70 40 70)
    as (printed & level & Hp & Hl & Hiff); [reflexivity..|].
  exists printed, level. split; [exact Hp|]. split; [exact Hl|].
  intros E. apply Hiff in E as [E _]. apply E. reflexivity.
Defined.

End ThresholdsShape.

(** ** The aggregator: what is passed through *)

Section AggregatorShape.

Import ScoreAggregator.

(** X11: whatever [aggregate] returns as category scores is exactly the six
    score fields of the metrics, one per category and nothing else, each
    passed through unchanged. *)
Theorem aggregate_passes_scores (config : gmap string (gmap string Q))
    (metrics : gmap string (gmap string pyval)) (overall_score : Q)
    (category_scores : gmap string pyval) :
  aggregate config metrics = Ok (overall_score, category_scores) →
  dom category_scores = list_to_set categories
  ∧ ∀ c, c ∈ categories →
      ∃ summary v, metrics !! c = Some summary
        ∧ summary !! score_field c = Some v
        ∧ category_scores !! c = Some v.
Proof.
  unfold aggregate. intros H.
  repeat match type of H with
         | mbind _ (getitem2 ?d ?k1 ?k2) = Ok _ =>
             let E := fresh "E" in
             destruct (getitem2 d k1 k2) eqn:E; simpl in H; [|discriminate H]
         end.
  repeat match type of H with
         | mbind _ ?r = Ok _ => destruct r; simpl in H; [|discriminate H]
         end.
  injection H as _ <-. split.
  - rewrite !dom_insert_L, dom_empty_L. unfold categories. set_solver.
  - assert (∀ k1 k2 v, getitem2 metrics k1 k2 = Ok v →
              ∃ summary, metrics !! k1 = Some summary ∧ summary !! k2 = Some v) as Hinv.
    { intros k1 k2 v. unfold getitem2, getitem.
      destruct (metrics !! k1) as [m|]; simpl; [|done].
      destruct (m !! k2) eqn:Em; [|done]. intros [= ->]. by exists m. }
    apply elem_of_categories;
      match goal with
      | |- ∃ _ _, metrics !! ?c = _ ∧ _ =>
          match goal with
          | E : getitem2 metrics c _ = Ok ?v |- _ =>
              destruct (Hinv _ _ _ E) as (m & Hm & Hv); exists m, v;
              split; [exact Hm|]; split; [exact Hv | reflexivity]
          end
      end.
Qed.

Lemma aggregate_passes_scores_witness :
  ∃ overall_score category_scores,
    aggregate unit_weights_config example_metrics = Ok (overall_score, category_scores)
    ∧ dom category_scores = list_to_set categories.
Proof.
  destruct unit_weights_has_weights as (weights & Hc & Hdom & Hw).
  destruct (aggregate_returns unit_weights_config example_metrics weights example_score
              (λ _, 1) example_has_scores Hc Hw) as (cs & Hagg & _).
  { rewrite (sum_values_six weights (λ _, 1) Hdom Hw).
    intros H. vm_compute in H. discriminate H. }
  eexists _, cs. split; [exact Hagg|].
  exact (proj1 (aggregate_passes_scores _ _ _ _ Hagg)).
Defined.

End AggregatorShape.

(** ** The dependency collector on a Go module *)

Section DependencyModule.

Import DependencyAnalyzer.

(** X13: the configuration matters for Go modules only.  Without a
    [dependencies] block [analyze] raises [KeyError('dependencies')] on a Go
    module and still returns the fixed summary elsewhere; and whenever a
    summary is returned, its [is_module] flag tells whether [go.mod]
    exists. *)
Theorem analyze_reads_config_for_modules (config : gmap string (gmap string Q))
    (repo : GoToolRunner.repository) :
  (config !! "dependencies" = None →
   analyze config repo =
     if GoToolRunner.go_mod_exists repo then Raise (KeyError "dependencies")
     else Ok not_a_module)
  ∧ (∀ summary, analyze config repo = Ok summary →
       summary !! "is_module" = Some (PyBool (GoToolRunner.go_mod_exists repo))).
Proof.
  unfold analyze, analyze_info, GoToolRunner.analyze_dependencies.
  destruct (GoToolRunner.go_mod_exists repo); simpl negb; cbv iota.
  - rewrite bool_decide_eq_false_2 by (intros [v Hv]; by vm_compute in Hv).
    assert (∀ o d, getitem (<["outdated" := o]> ({[ "dependencies" := d ]} : gmap string pyval))
                     "dependencies" = Ok d) as -> by reflexivity.
    simpl.
    assert (∀ o d, getitem (<["outdated" := o]> ({[ "dependencies" := d ]} : gmap string pyval))
                     "outdated" = Ok o) as -> by reflexivity.
    simpl. rewrite truediv_ok by apply max_1_nonzero. simpl. split.
    + intros Hc. unfold getitem2, getitem. by rewrite Hc.
    + intros summary H.
      repeat match type of H with
             | mbind _ ?r = Ok _ => destruct r; simpl in H; [|discriminate H]
             end.
      by injection H as <-.
  - rewrite bool_decide_eq_true_2 by (by eexists). split; [done|].
    by intros summary [= <-].
Qed.

Lemma analyze_reads_config_for_modules_witness :
  analyze ∅ module_repository = Raise (KeyError "dependencies")
  ∧ analyze ∅ bare_repository = Ok not_a_module.
Proof.
  split.
  - apply (proj1 (analyze_reads_config_for_modules ∅ module_repository)). reflexivity.
  - apply (proj1 (analyze_reads_config_for_modules ∅ bare_repository)). reflexivity.
Defined.

End DependencyModule.

(** ** Strings: suffixes and base names *)

Lemma substring_full (s : string) : String.substring 0 (String.length s) s = s.
Proof. induction s as [|c s IH]; simpl; [done|]. by rewrite IH. Qed.

(** A suffix of [c :: rest] is a suffix of [rest] or the whole string. *)
Lemma endswith_cons (c : Ascii.ascii) (rest suffix : string) :
  endswith (String c rest) suffix
  = endswith rest suffix || String.eqb (String c rest) suffix.
Proof.
  unfold endswith. change (String.length (String c rest)) with (S (String.length rest)).
  set (lr := String.length rest). set (m := String.length suffix).
  destruct (String.eqb (String c rest) suffix) eqn:E.
  - apply String.eqb_eq in E.
    assert (m = S lr) as Hm by (unfold m, lr; by rewrite <- E).
    rewrite Hm, Nat.sub_diag, Nat.leb_refl, orb_true_r.
    clearbody m. subst suffix. unfold lr.
    change (S (String.length rest)) with (String.length (String c rest)).
    rewrite substring_full. by rewrite String.eqb_refl.
  - rewrite orb_false_r.
    destruct (le_lt_dec m lr) as [H|H].
    + rewrite (proj2 (Nat.leb_le m lr) H), (proj2 (Nat.leb_le m (S lr))) by lia.
      by replace (S lr - m)%nat with (S (lr - m)) by lia.
    + rewrite (proj2 (Nat.leb_gt m lr) H). cbn [andb].
      destruct (Nat.eq_dec m (S lr)) as [Hm|Hm].
      * rewrite Hm, Nat.sub_diag, Nat.leb_refl. unfold lr.
        change (S (String.length rest)) with (String.length (String c rest)).
        by rewrite substring_full, E.
      * by rewrite (proj2 (Nat.leb_gt m (S lr))) by lia.
Qed.


(** ** The test-quality collector: accounting and the coverage score *)

Section TestQualityShape.

Import TestQualityAnalyzer.

Variable relpath : string → string → string.
Variable repo_path : string.
Variable coverage_data : gmap string string.





End TestQualityShape.







(** ** Sorting in reverse order *)

Section SortedReverse.

Context {A : Type} (key : A → Q).

Lemma insert_reverse_perm (x : A) (l : list A) :
  insert_reverse key x l ≡ₚ x :: l.
Proof.
  induction l as [|y l IH]; simpl; [done|].
  destruct (Py.gt (key y) (key x)); [|done].
  rewrite IH. apply Permutation_swap.
Qed.

Lemma sorted_reverse_perm (l : list A) : sorted_reverse key l ≡ₚ l.
Proof.
  induction l as [|x l IH]; simpl; [done|].
  by rewrite insert_reverse_perm, IH.
Qed.

Lemma insert_reverse_sorted (x : A) (l : list A) :
  StronglySorted (key_ge key) l → StronglySorted (key_ge key) (insert_reverse key x l).
Proof.
  induction l as [|y l IH]; simpl; intros Hl.
  - by repeat constructor.
  - apply StronglySorted_cons in Hl as [Hy Hl].
    destruct (Py.gt (key y) (key x)) eqn:E.
    + apply py_gt_true in E. apply StronglySorted_cons. split; [|by apply IH].
      rewrite insert_reverse_perm. constructor; [|done]. unfold key_ge. lra.
    + apply py_gt_false in E. apply StronglySorted_cons. split.
      * constructor; [done|]. eapply Forall_impl; [exact Hy|].
        unfold key_ge. intros z Hz. simpl in Hz. lra.
      * by apply StronglySorted_cons.
Qed.

Lemma sorted_reverse_sorted (l : list A) :
  StronglySorted (key_ge key) (sorted_reverse key l).
Proof.
  induction l as [|x l IH]; simpl; [constructor|]. by apply insert_reverse_sorted.
Qed.

(** Stability: the items with a given key keep their order. *)
Lemma insert_reverse_stable (k : Q) (x : A) (l : list A) :
  List.filter (λ y, Qeq_bool (key y) k) (insert_reverse key x l)
  = List.filter (λ y, Qeq_bool (key y) k) (x :: l).
Proof.
  induction l as [|y l IH]; [done|]. simpl insert_reverse.
  destruct (Py.gt (key y) (key x)) eqn:E; [|done].
  apply py_gt_true in E. simpl in *. rewrite IH.
  destruct (Qeq_bool (key x) k) eqn:Ex; [|done].
  destruct (Qeq_bool (key y) k) eqn:Ey; [|done].
  apply Qeq_bool_iff in Ex, Ey. lra.
Qed.

Lemma sorted_reverse_stable (k : Q) (l : list A) :
  List.filter (λ y, Qeq_bool (key y) k) (sorted_reverse key l)
  = List.filter (λ y, Qeq_bool (key y) k) l.
Proof.
  induction l as [|x l IH]; [done|]. simpl sorted_reverse.
  rewrite insert_reverse_stable. simpl. by rewrite IH.
Qed.

(** The first [n] items of the sorted list: as many as asked for, in order,
    and no item left out has a greater key than an item kept. *)
Lemma sorted_reverse_take (n : nat) (l : list A) :
  let top := take n (sorted_reverse key l) in
  let rest := drop n (sorted_reverse key l) in
  length top = min n (length l)
  ∧ StronglySorted (key_ge key) top
  ∧ l ≡ₚ top ++ rest
  ∧ ∀ x y, x ∈ top → y ∈ rest → key y <= key x.
Proof.
  intros top rest. pose proof (sorted_reverse_sorted l) as Hs.
  rewrite <- (take_drop n (sorted_reverse key l)) in Hs. fold top rest in Hs.
  split; [|split; [|split]].
  - unfold top. by rewrite length_take, sorted_reverse_perm.
  - by apply StronglySorted_app_1_l in Hs.
  - unfold top, rest. by rewrite take_drop, sorted_reverse_perm.
  - intros x y Hx Hy.
    apply (StronglySorted_app_1_elem_of (key_ge key) top rest x y Hs Hx Hy).
Qed.

End SortedReverse.

Lemma StronglySorted_weaken {A : Type} (R R' : A → A → Prop) (l : list A) :
  (∀ a b, R a b → R' a b) → StronglySorted R l → StronglySorted R' l.
Proof.
  intros HR. induction 1 as [|x l Hl IH Hx]; constructor; [done|].
  eapply Forall_impl; [exact Hx|]. intros y. apply HR.
Qed.

(** ** The complexity collector *)

Section Complexity.

Import ComplexityAnalyzer.

(** X17: the worst offenders are the ten most complex functions: at most
    ten, as many as there are when fewer; in non-increasing order of
    complexity; taken from the reported functions, none twice; no function
    left out is more complex than one listed; and functions of equal
    complexity keep the order of the tool's output. *)
Theorem worst_offenders_top_ten (fs : list function_entry) :
  length (worst_offenders fs) = min 10 (length fs)
  ∧ StronglySorted (λ a b, (complexity b <= complexity a)%Z) (worst_offenders fs)
  ∧ (∃ rest,
       fs ≡ₚ worst_offenders fs ++ rest
       ∧ ∀ x y, x ∈ worst_offenders fs → y ∈ rest → (complexity y <= complexity x)%Z)
  ∧ ∀ k : Z,
      List.filter (λ x, Z.eqb (complexity x) k) (worst_offenders fs)
      `prefix_of` List.filter (λ x, Z.eqb (complexity x) k) fs.
Proof.
  unfold worst_offenders.
  destruct (sorted_reverse_take (λ x, inject_Z (complexity x)) 10 fs)
    as (Hlen & Hsorted & Hperm & Htop).
  split; [exact Hlen|]. split; [|split].
  - eapply StronglySorted_weaken; [|exact Hsorted].
    intros a b Hab. unfold key_ge in Hab. by rewrite Zle_Qle.
  - eexists. split; [exact Hperm|]. intros x y Hx Hy. rewrite Zle_Qle. by apply Htop.
  - intros k.
    assert (∀ l : list function_entry,
              List.filter (λ x, Z.eqb (complexity x) k) l
              = List.filter (λ x, Qeq_bool (inject_Z (complexity x)) (inject_Z k)) l) as Hf.
    { intros l. apply List.filter_ext. intros x.
      destruct (Z.eqb_spec (complexity x) k) as [->|Hne].
      - symmetry. apply Qeq_bool_iff. reflexivity.
      - symmetry. apply not_true_is_false. intros E. apply Qeq_bool_iff in E.
        apply (proj1 (inject_Z_injective _ _)) in E. congruence. }
    rewrite !Hf.
    rewrite <- (sorted_reverse_stable (λ x, inject_Z (complexity x)) (inject_Z k) fs).
    rewrite <- (take_drop 10 (sorted_reverse _ fs)) at 2.
    rewrite List.filter_app. by eexists.
Qed.

End Complexity.

(** ** The duplication collector *)

Section Duplication.

Import DuplicationAnalyzer.






(** X21: the files listed with duplication are those whose [Duplicate] count
    is positive, in non-increasing order of their percentage; the summary
    keeps the first ten. *)
Theorem files_with_duplication_sorted (scc_results : list scc_file) :
  StronglySorted (λ a b, percentage b <= percentage a)
    (files_with_duplication scc_results)
  ∧ files_with_duplication scc_results
    ≡ₚ entry_of <$> List.filter (λ f, 0 <? duplicate f)%Z scc_results
  ∧ (∀ e, e ∈ files_with_duplication scc_results → (0 < duplicated_lines e)%Z)
  ∧ ∀ a b, a ∈ take 10 (files_with_duplication scc_results) →
           b ∈ drop 10 (files_with_duplication scc_results) →
           percentage b <= percentage a.
Proof.
  unfold files_with_duplication.
  set (l := entry_of <$> List.filter (λ f, 0 <? duplicate f)%Z scc_results).
  split; [apply sorted_reverse_sorted|]. split; [apply sorted_reverse_perm|]. split.
  - intros e He. rewrite sorted_reverse_perm in He. unfold l in He.
    apply list_elem_of_fmap in He as (f & -> & Hf).
    apply list_elem_of_In, List.filter_In in Hf as [_ Hf]. simpl. lia.
  - intros a b Ha Hb.
    pose proof (sorted_reverse_sorted percentage l) as Hs.
    rewrite <- (take_drop 10 (sorted_reverse percentage l)) in Hs.
    apply (StronglySorted_app_1_elem_of _ _ _ a b Hs Ha Hb).
Qed.

End Duplication.

(** ** Finding the Go files *)

Section FindGoFiles.

Import RepoScanner.

Lemma endswith_app (a b suffix : string) :
  endswith b suffix = true → endswith (a +:+ b) suffix = true.
Proof.
  intros H. induction a as [|c a IH]; [done|].
  change (String c a +:+ b) with (String c (a +:+ b)).
  by rewrite endswith_cons, IH.
Qed.

Lemma prefix_app (needle a b : string) :
  String.prefix needle a = true → String.prefix needle (a +:+ b) = true.
Proof.
  revert needle. induction a as [|c' a IH]; intros [|c needle]; simpl;
    [by destruct b | done | done |].
  destruct (Ascii.ascii_dec c c'); [apply IH | done].
Qed.

Lemma contains_cons (needle : string) (c : Ascii.ascii) (rest : string) :
  contains needle (String c rest)
  = String.prefix needle (String c rest) || contains needle rest.
Proof. reflexivity. Qed.

Lemma contains_app (needle a b : string) :
  contains needle a = true → contains needle (a +:+ b) = true.
Proof.
  induction a as [|c a IH].
  - destruct needle as [|c needle]; [|done]. intros _. by destruct b.
  - rewrite contains_cons. intros [H|H]%orb_true_iff.
    + change (String c a +:+ b) with (String c (a +:+ b)). rewrite contains_cons.
      change (String c (a +:+ b)) with (String c a +:+ b).
      by rewrite prefix_app.
    + change (String c a +:+ b) with (String c (a +:+ b)). rewrite contains_cons.
      rewrite IH by done. apply orb_true_r.
Qed.

Lemma endswith_path_join (a b suffix : string) :
  endswith b suffix = true → endswith (path_join a b) suffix = true.
Proof.
  intros H. unfold path_join.
  destruct (String.prefix "/" b); [done|].
  destruct (String.eqb a "" || endswith a "/"); by repeat apply endswith_app.
Qed.

(** X22: a path is returned exactly when it joins a walked directory whose
    path contains neither ['/vendor/'] nor ['/.'] with one of its files whose
    name ends in [.go]; every returned path ends in [.go]. *)
Theorem find_go_files_spec (walk : list walk_entry) (path : string) :
  (path ∈ find_go_files walk ↔
   ∃ root dirs files file,
     (root, dirs, files) ∈ walk ∧ file ∈ files
     ∧ contains "/vendor/" root = false ∧ contains "/." root = false
     ∧ endswith file ".go" = true
     ∧ path = path_join root file)
  ∧ (path ∈ find_go_files walk → endswith path ".go" = true).
Proof.
  assert (path ∈ find_go_files walk ↔
          ∃ root dirs files file,
            (root, dirs, files) ∈ walk ∧ file ∈ files
            ∧ contains "/vendor/" root = false ∧ contains "/." root = false
            ∧ endswith file ".go" = true
            ∧ path = path_join root file) as Hiff.
  { induction walk as [|[[root dirs] files] rest IH]; simpl.
    - split; [by intros ?%elem_of_nil|]. by intros (?&?&?&?&?%elem_of_nil&_).
    - rewrite elem_of_app, IH. clear IH. split.
      + intros [H|(r & d & fs & f & Hin & Hrest)].
        * unfold skipped in H.
          destruct (contains "/vendor/" root) eqn:Ev; simpl in H;
            [by apply elem_of_nil in H|].
          destruct (contains "/." root) eqn:Eh; simpl in H;
            [by apply elem_of_nil in H|].
          apply list_elem_of_fmap in H as (f & -> & Hf).
          apply list_elem_of_In, List.filter_In in Hf as [Hf Hgo].
          exists root, dirs, files, f.
          split; [apply elem_of_cons; by left|].
          split; [by apply list_elem_of_In|]. by repeat split.
        * exists r, d, fs, f. rewrite elem_of_cons. by split; [right|].
      + intros (r & d & fs & f & Hin & Hf & Hv & Hh & Hgo & ->).
        apply elem_of_cons in Hin as [[= -> -> ->]|Hin].
        * left. unfold skipped. rewrite Hv, Hh. simpl.
          apply list_elem_of_fmap. exists f. split; [done|].
          apply list_elem_of_In, List.filter_In. by rewrite <- list_elem_of_In.
        * right. by exists r, d, fs, f. }
  split; [exact Hiff|].
  intros H. apply Hiff in H as (root & dirs & files & file & _ & _ & _ & _ & Hgo & ->).
  by apply endswith_path_join.
Qed.

Lemma find_go_files_spec_witness :
  "/src/app/vendor/modules.go" ∈ find_go_files example_walk
  ∧ endswith "/src/app/vendor/modules.go" ".go" = true.
Proof.
  destruct (find_go_files_spec example_walk "/src/app/vendor/modules.go") as [Hiff Hgo].
  assert ("/src/app/vendor/modules.go" ∈ find_go_files example_walk) as Hin.
  { apply Hiff. exists "/src/app/vendor", ["lib"], ["modules.go"], "modules.go".
    split; [|split; [|repeat split]].
    - apply list_elem_of_In. simpl. tauto.
    - apply list_elem_of_In. simpl. tauto. }
  split; [exact Hin | exact (Hgo Hin)].
Defined.

(** X23: the tests apply to the whole path of each directory, so a
    repository that itself lies under a hidden directory, or under a
    directory named [vendor], has no Go files at all: when the repository
    path contains ['/.'] or ['/vendor/'] and every walked directory extends
    it, nothing is returned. *)
Theorem find_go_files_hidden_repository (repo_path : string) (walk : list walk_entry) :
  contains "/." repo_path = true ∨ contains "/vendor/" repo_path = true →
  Forall (λ entry : walk_entry, ∃ below, entry.1.1 = repo_path +:+ below) walk →
  find_go_files walk = [].
Proof.
  intros Hrepo Hwalk. induction Hwalk as [|[[root dirs] files] rest [below Hroot] _ IH];
    simpl; [done|].
  simpl in Hroot. rewrite IH, app_nil_r. unfold skipped. rewrite Hroot.
  destruct Hrepo as [H|H]; rewrite (contains_app _ _ below H); [|done].
  by rewrite orb_true_r.
Qed.

Lemma find_go_files_hidden_repository_witness :
  find_go_files [ ("/home/dev/.cache/app", ["cmd"], ["main.go"]);
                  ("/home/dev/.cache/app/cmd", [], ["run.go"]) ] = [].
Proof.
  apply (find_go_files_hidden_repository "/home/dev/.cache/app").
  - left. reflexivity.
  - repeat constructor; simpl.
    + by exists "".
    + by exists "/cmd".
Defined.

End FindGoFiles.

(** ** The store of scans *)

Section Store.

Import Routes.

(** X24: deleting a scan makes it unknown - a later [get_scan_result] or
    [delete_scan] for it answers 404 - and touches no other scan; deleting an
    unknown scan answers 404 and changes nothing. *)
Theorem delete_scan_forgets (scan_id : string) (st : app) :
  let (deleted, st') := delete_scan scan_id st in
  get_scan_result scan_id st' = HTTPException 404 "Scan not found"
  ∧ (delete_scan scan_id st').1 = HTTPException 404 "Scan not found"
  ∧ (∀ other, other ≠ scan_id → get_scan_result other st' = get_scan_result other st)
  ∧ config st' = config st
  ∧ match scan_results st !! scan_id with
    | Some _ => deleted = Reply ()
    | None => deleted = HTTPException 404 "Scan not found" ∧ st' = st
    end.
Proof.
  unfold delete_scan, get_scan_result.
  destruct (scan_results st !! scan_id) eqn:E; simpl.
  - rewrite !lookup_delete_eq. simpl. split; [done|]. split; [done|].
    split; [|done]. intros other Hne. by rewrite lookup_delete_ne.
  - rewrite !E. by repeat split.
Qed.

Section Task.

Variable repr : string → string.

(** The status that [task_end] leaves for a scan, given the status [before]
    it. *)
Lemma task_end_status (scan_id repo_path : string) (o : outcome) (st : app) :
  (∀ results, o = Returned results → results !! "status" = None) →
  scan_results (task_end scan_id repo_path o st) !! scan_id ≫= (.!! "status")
  = match o with
    | Returned _ => Some (PyStr "completed")
    | Raised _ => Some (PyStr "failed")
    | Interrupted => scan_results st !! scan_id ≫= (.!! "status")
    end.
Proof.
  intros Hstatus. destruct o as [results|message|]; simpl; [| |done].
  - rewrite lookup_insert_eq. simpl.
    rewrite lookup_union_r by (by apply Hstatus). reflexivity.
  - rewrite lookup_insert_eq. reflexivity.
Qed.

(** X25: [run_scan_task] settles the scan unless the task is interrupted.
    When the scan returns or raises an [Exception], the store afterwards has
    an entry for it whose status is [completed] - when there was an entry and
    the scan returned - or [failed], and no exception leaves the task; so a
    scan deleted before its task starts comes back as failed.  When the task
    is ended by an exception that [except Exception] does not catch, such as
    a cancellation, that exception leaves the task and the entry stays
    [running].  In every case no other scan and no part of the configuration
    change; and a scan deleted while it runs comes back with the scan's
    outcome, since the final assignment does not look at the store.  (The
    results of a scan have no [status] key of their own.) *)
Theorem run_scan_task_settles (scan_id repo_path : string) (o : outcome) (st : app) :
  (∀ results, o = Returned results → results !! "status" = None) →
  let (st', escapes) := run_scan_task repr scan_id repo_path o st in
  (scan_results st' !! scan_id ≫= (.!! "status"), escapes)
  = match scan_results st !! scan_id, o with
    | None, _ => (Some (PyStr "failed"), false)
    | Some _, Returned _ => (Some (PyStr "completed"), false)
    | Some _, Raised _ => (Some (PyStr "failed"), false)
    | Some _, Interrupted => (Some (PyStr "running"), true)
    end
  ∧ (∀ other, other ≠ scan_id → scan_results st' !! other = scan_results st !! other)
  ∧ config st' = config st
  ∧ scan_results (task_end scan_id repo_path o (delete_scan scan_id st).2) !! scan_id
      ≫= (.!! "status")
    = match o with
      | Returned _ => Some (PyStr "completed")
      | Raised _ => Some (PyStr "failed")
      | Interrupted => None
      end.
Proof.
  intros Hstatus. unfold run_scan_task, task_begin.
  destruct (scan_results st !! scan_id) as [entry|] eqn:E.
  - split; [|split; [|split]].
    + rewrite (task_end_status _ _ _ _ Hstatus). simpl. rewrite lookup_insert_eq. simpl.
      rewrite lookup_insert_ne by done. rewrite lookup_insert_eq.
      by destruct o.
    + intros other Hne. destruct o; simpl; by rewrite ?lookup_insert_ne.
    + by destruct o.
    + rewrite (task_end_status _ _ _ _ Hstatus). unfold delete_scan. rewrite E. simpl.
      rewrite lookup_delete_eq. by destruct o.
  - simpl. rewrite lookup_insert_eq. simpl. split; [by destruct o|].
    split; [intros other Hne; by rewrite lookup_insert_ne|]. split; [done|].
    rewrite (task_end_status _ _ _ _ Hstatus). unfold delete_scan. rewrite E. simpl.
    rewrite E. by destruct o.
Qed.

End Task.

Lemma run_scan_task_settles_witness :
  let st := {| scan_results := {[ "7f3c" := status_entry "pending" "/src/app" "Scan queued" ]};
               config := ∅ |} in
  let (st', escapes) := run_scan_task (λ s, s) "7f3c" "/src/app" Interrupted st in
  scan_results st' !! "7f3c" ≫= (.!! "status") = Some (PyStr "running") ∧ escapes = true.
Proof.
  pose proof (run_scan_task_settles (λ s, s) "7f3c" "/src/app" Interrupted
                {| scan_results :=
                     {[ "7f3c" := status_entry "pending" "/src/app" "Scan queued" ]};
                   config := ∅ |}) as H.
  simpl. destruct (run_scan_task _ _ _ _ _) as [st' escapes].
  destruct H as [H _].
  - intros results E. discriminate E.
  - injection H as H1 H2. split; [exact H1 | exact H2].
Defined.

(** X26: an override that is a dict is merged into the category of the
    shared configuration key by key - its keys win, the other keys of the
    category stay - and the merged configuration outlives the request: a
    later [start_scan] without overrides runs with it.  Anything else
    replaces the category as a whole. *)
Theorem start_scan_merges_overrides (scan_id repo_path category : string)
    (values : config_value) (st : app) :
  (∀ v, config st !! category ≠ Some (ConfigOther v)) →
  let (answer, st') := start_scan scan_id repo_path (Some [(category, values)]) st in
  (∃ body, answer = Reply body ∧ body !! "scan_id" = Some (PyStr scan_id))
  ∧ scan_results st' !! scan_id = Some (status_entry "pending" repo_path "Scan queued")
  ∧ (∀ other, other ≠ category → config st' !! other = config st !! other)
  ∧ config st' !! category =
      Some (match config st !! category, values with
            | Some (ConfigDict d), ConfigDict v => ConfigDict (v ∪ d)
            | _, _ => values
            end)
  ∧ ∀ scan_id' repo_path',
      config (start_scan scan_id' repo_path' None st').2 = config st'.
Proof.
  intros Hdict. unfold start_scan. simpl. unfold apply_override.
  destruct (config st !! category) as [[d|x]|] eqn:E; [| by destruct (Hdict x) |];
    destruct values as [v|y]; simpl; rewrite !lookup_insert_eq;
    (split; [eexists; split; reflexivity|]); (split; [done|]);
    (split; [|done]); intros other Hne; by rewrite lookup_insert_ne.
Qed.

Lemma start_scan_merges_overrides_witness :
  let st := {| scan_results := ∅;
               config := {[ "thresholds" :=
                              ConfigDict (<["high" := PyNum 70]> {[ "medium" := PyNum 40 ]}) ]} |} in
  let (answer, st') :=
    start_scan "7f3c" "/src/app"
      (Some [("thresholds", ConfigDict {[ "high" := PyNum 90 ]})]) st in
  config st' !! "thresholds" =
    Some (ConfigDict ({[ "high" := PyNum 90 ]}
                      ∪ (<["high" := PyNum 70]> {[ "medium" := PyNum 40 ]}))).
Proof.
  pose proof (start_scan_merges_overrides "7f3c" "/src/app" "thresholds"
                (ConfigDict {[ "high" := PyNum 90 ]})
                {| scan_results := ∅;
                   config := {[ "thresholds" :=
                                  ConfigDict (<["high" := PyNum 70]>
                                                {[ "medium" := PyNum 40 ]}) ]} |}) as H.
  simpl in H. simpl.
  destruct (start_scan _ _ _ _) as [answer st'].
  destruct H as (_ & _ & _ & H & _).
  - intros v E. vm_compute in E. discriminate E.
  - exact H.
Defined.

Lemma apply_overrides_app (config : gmap string config_value)
    (before after : list (string * config_value)) :
  apply_overrides config (before ++ after)
  = let (config', applied) := apply_overrides config before in
    if applied then apply_overrides config' after else (config', false).
Proof.
  revert config. induction before as [|[category values] before IH]; intros config.
  - reflexivity.
  - simpl. destruct (apply_override config category values) as [config'|]; [apply IH|done].
Qed.

(** X27: when the override of a category is a dict but the configuration -
    as the overrides before it have left it - holds something that is not a
    dict under that category, [start_scan] fails with [AttributeError]; the
    scan has been stored as pending before, and it stays so, since no task is
    added for it; the overrides before the failing one stay applied to the
    shared configuration, those after it are not looked at. *)
Theorem start_scan_failed_override (scan_id repo_path category : string)
    (v : gmap string pyval) (x : other_value)
    (before rest : list (string * config_value)) (st : app)
    (config' : gmap string config_value) :
  apply_overrides (config st) before = (config', true) →
  config' !! category = Some (ConfigOther x) →
  let overrides := Some (before ++ (category, ConfigDict v) :: rest) in
  let (answer, st') := start_scan scan_id repo_path overrides st in
  answer = AttributeError
  ∧ get_scan_result scan_id st' = Reply (status_entry "pending" repo_path "Scan queued")
  ∧ config st' = config'
  ∧ scheduled_task scan_id repo_path overrides st = None.
Proof.
  intros Hbefore H overrides. subst overrides.
  unfold start_scan, scheduled_task, get_scan_result.
  cbn [from_option id]. rewrite apply_overrides_app, Hbefore.
  cbn [apply_overrides]. unfold apply_override. rewrite H.
  simpl. rewrite lookup_insert_eq. done.
Qed.

Lemma start_scan_failed_override_witness :
  let st := {| scan_results := ∅;
               config := <["weights" := ConfigDict {[ "churn" := PyNum 1 ]}]>
                           {[ "thresholds" := ConfigOther (NumValue 70) ]} |} in
  let overrides :=
    Some [("weights", ConfigDict {[ "churn" := PyNum 2 ]});
          ("thresholds", ConfigDict {[ "high" := PyNum 90 ]});
          ("weights", ConfigDict {[ "churn" := PyNum 3 ]})] in
  let (answer, st') := start_scan "7f3c" "/src/app" overrides st in
  answer = AttributeError
  ∧ get_scan_result "7f3c" st'
    = Reply (status_entry "pending" "/src/app" "Scan queued")
  ∧ config st' !! "weights"
    = Some (ConfigDict ({[ "churn" := PyNum 2 ]} ∪ {[ "churn" := PyNum 1 ]}))
  ∧ scheduled_task "7f3c" "/src/app" overrides st = None.
Proof.
  pose proof (start_scan_failed_override "7f3c" "/src/app" "thresholds"
                {[ "high" := PyNum 90 ]} (NumValue 70)
                [("weights", ConfigDict {[ "churn" := PyNum 2 ]})]
                [("weights", ConfigDict {[ "churn" := PyNum 3 ]})]
                {| scan_results := ∅;
                   config := <["weights" := ConfigDict {[ "churn" := PyNum 1 ]}]>
                               {[ "thresholds" := ConfigOther (NumValue 70) ]} |}
                _ eq_refl eq_refl) as H.
  simpl in H. simpl.
  destruct (start_scan _ _ _ _) as [answer st'].
  destruct H as (Ha & Hg & Hc & Ht).
  split; [exact Ha|]. split; [exact Hg|]. split; [|exact Ht].
  rewrite Hc. reflexivity.
Defined.

End Store.

(** ** The readability collector: the metrics of one file *)

Section Readability.

Import ReadabilityAnalyzer.

Variable strip : string → string.
Variable starts_function : string → bool.

Lemma sum_lengths_app (l : list Z) (n : Z) :
  sum_lengths (l ++ [n]) = (sum_lengths l + n)%Z.
Proof. unfold sum_lengths. by rewrite foldl_app. Qed.

Lemma sum_lengths_nonneg (l : list Z) :
  Forall (λ n, 2 <= n)%Z l → (0 <= sum_lengths l)%Z.
Proof.
  induction l as [|n l IH] using rev_ind; intros H; [done|].
  apply Forall_app in H as [Hl Hn]. apply Forall_inv in Hn.
  rewrite sum_lengths_app. specialize (IH Hl). lia.
Qed.

Lemma scan_line_invariant (st : scan_state) (line : string) (seen closing : Z) :
  scan_invariant st seen closing →
  scan_invariant (scan_line strip starts_function st line) (seen + 1)
    (closing + if String.eqb (strip line) "}" then 1 else 0).
Proof.
  intros (Hlen & Hcur & Hsum & Hcount). unfold scan_line, scan_invariant.
  pose proof (sum_lengths_nonneg _ Hlen) as Hnonneg.
  destruct (starts_function (strip line) && contains "{" (strip line)); simpl.
  - destruct (in_function st); destruct (String.eqb (strip line) "}");
      repeat split; try done; try lia; specialize (Hcur eq_refl); lia.
  - destruct (in_function st) eqn:Ein; simpl.
    + specialize (Hcur eq_refl).
      destruct (String.eqb (strip line) "}"); simpl.
      * repeat split; [| done | |].
        -- apply Forall_app. split; [done|]. apply Forall_singleton. lia.
        -- rewrite sum_lengths_app. lia.
        -- unfold Py.len in *. rewrite length_app. simpl length. lia.
      * repeat split; [done | lia | lia | lia].
    + rewrite Ein. destruct (String.eqb (strip line) "}");
        repeat split; try done; lia.
Qed.

Lemma scan_invariant_lines (lines : list string) (st : scan_state) (seen closing : Z) :
  scan_invariant st seen closing →
  scan_invariant (foldl (scan_line strip starts_function) st lines)
    (seen + Py.len lines)
    (closing + Py.len (List.filter (λ line, String.eqb (strip line) "}") lines)).
Proof.
  revert st seen closing. induction lines as [|line lines IH]; intros st seen closing H.
  - unfold Py.len. simpl. by rewrite !Z.add_0_r.
  - simpl foldl. apply (scan_line_invariant st line) in H.
    apply IH in H. simpl List.filter.
    destruct (String.eqb (strip line) "}"); unfold Py.len in *; simpl length;
      rewrite ?Nat2Z.inj_succ;
      match goal with
      | |- scan_invariant _ ?a ?b =>
          match type of H with
          | scan_invariant _ ?a' ?b' =>
              replace a with a' by lia; replace b with b' by lia
          end
      end; exact H.
Qed.

(** X19: in the metrics of a file, every function that is counted is at
    least two lines long, the counted functions are at most as many as the
    lines that consist of a closing brace, and their lengths add up to at
    most the number of lines; hence the average function length is at most
    the number of lines, and the comment ratio lies between 0 and 1. *)
Theorem measure_bounds (lines : list string) :
  let m := measure strip starts_function lines in
  let lengths :=
    function_lengths (foldl (scan_line strip starts_function) scan_init lines) in
  Forall (λ n, 2 <= n)%Z lengths
  ∧ (function_count m
     <= Py.len (List.filter (λ line, String.eqb (strip line) "}") lines))%Z
  ∧ (sum_lengths lengths <= total_lines m)%Z
  ∧ 0 <= avg_function_length m ∧ avg_function_length m <= inject_Z (total_lines m)
  ∧ 0 <= comment_ratio m ∧ comment_ratio m <= 1.
Proof.
  intros m lengths.
  destruct (scan_invariant_lines lines scan_init 0 0) as (Hlen & Hcur & Hsum & Hcount).
  { repeat split; simpl; try done; lia. }
  fold lengths in Hlen, Hsum, Hcount. rewrite Z.add_0_l in Hsum, Hcount.
  pose proof (sum_lengths_nonneg _ Hlen) as Hnonneg.
  assert (sum_lengths lengths <= Py.len lines)%Z as Hsum'.
  { destruct (in_function _); [specialize (Hcur eq_refl)|]; lia. }
  assert (∀ a b : Z, (0 <= a)%Z → (a <= b)%Z →
            0 <= inject_Z a / inject_Z (Z.max 1 b)
            ∧ inject_Z a / inject_Z (Z.max 1 b) <= 1) as Hratio.
  { intros a b Ha Hab.
    assert (0 < inject_Z (Z.max 1 b)) as Hpos.
    { change 0 with (inject_Z 0). rewrite <- Zlt_Qlt. lia. }
    split.
    - apply Qle_shift_div_l; [done|]. rewrite Qmult_0_l.
      change 0 with (inject_Z 0). rewrite <- Zle_Qle. done.
    - apply Qle_shift_div_r; [done|]. rewrite Qmult_1_l. rewrite <- Zle_Qle. lia. }
  split; [exact Hlen|]. split; [exact Hcount|]. split; [exact Hsum'|].
  assert (0 < inject_Z (Z.max 1 (Py.len lengths))) as Hpos.
  { change 0 with (inject_Z 0). rewrite <- Zlt_Qlt. lia. }
  split; [|split; [|split]].
  - simpl. apply Qle_shift_div_l; [done|]. rewrite Qmult_0_l.
    change 0 with (inject_Z 0). by rewrite <- Zle_Qle.
  - simpl. apply Qle_shift_div_r; [done|].
    rewrite <- inject_Z_mult, <- Zle_Qle.
    fold lengths. etransitivity; [exact Hsum'|].
    rewrite <- (Z.mul_1_r (Py.len lines)) at 1.
    apply Z.mul_le_mono_nonneg_l; [unfold Py.len|]; lia.
  - apply Hratio; [unfold Py.len; lia|].
    unfold Py.len. apply inj_le. apply List.filter_length_le.
  - apply Hratio; [unfold Py.len; lia|].
    unfold Py.len. apply inj_le. apply List.filter_length_le.
Qed.

End Readability.

(** ** The recommendations of the report *)

Section Recommendations.

Import ReportGenerator.

Lemma add_all_advised (thresholds : gmap string Q) (medium : Q)
    (section : list string) (items : list (string * Q)) :
  thresholds !! "medium" = Some medium →
  add_all thresholds section items = Ok (section ++ advised medium items).
Proof.
  intros Hm. revert section. induction items as [|item items IH]; intros section.
  - unfold advised. simpl. by rewrite app_nil_r.
  - simpl. unfold add_advice, advised. simpl.
    destruct (advice item.1) as [block|]; simpl.
    + rewrite (getitem_Some _ _ _ Hm). simpl.
      destruct (Py.gt item.2 medium); simpl; rewrite IH; [by rewrite app_assoc|done].
    + rewrite IH. by destruct (Py.gt item.2 medium).
Qed.

(** X28: the recommendations are the heading followed by the advice for
    those of the three categories with the highest scores whose score is
    strictly above [medium], in the order of their scores.  So a category
    gets no advice when its score equals [medium] - although
    [get_debt_level] calls that level medium - and none when three
    categories score at least as high, however high its own score. *)
Theorem create_recommendations_top_three (thresholds : gmap string Q) (medium : Q)
    (category_scores : list (string * Q)) :
  thresholds !! "medium" = Some medium →
  let worst := take 3 (sorted_reverse snd category_scores) in
  create_recommendations thresholds category_scores
    = Ok (["## Recommendations"; ""] ++ advised medium worst)
  ∧ length worst = min 3 (length category_scores)
  ∧ (∀ a b, a ∈ worst → b ∈ drop 3 (sorted_reverse snd category_scores) → b.2 <= a.2)
  ∧ (∀ item, item.2 <= medium → advised medium [item] = [])
  ∧ (∀ item high, thresholds !! "high" = Some high → item.2 == medium → medium < high →
       DebtThresholds.get_debt_level thresholds item.2 = Ok "medium"
       ∧ advised medium [item] = []).
Proof.
  intros Hm worst.
  destruct (sorted_reverse_take snd 3 category_scores) as (Hlen & _ & _ & Htop).
  split; [by apply add_all_advised|]. split; [exact Hlen|]. split; [exact Htop|].
  assert (∀ item : string * Q, item.2 <= medium → advised medium [item] = []) as Hnone.
  { intros item Hle. unfold advised. simpl.
    by rewrite (proj2 (py_gt_false item.2 medium) Hle). }
  split; [exact Hnone|].
  intros item high Hh He Hlt. split.
  - apply (get_debt_level_medium thresholds item.2 medium high); [done|done|lra|lra].
  - apply Hnone. lra.
Qed.

Lemma create_recommendations_top_three_witness :
  create_recommendations example_thresholds example_items
  = Ok (["## Recommendations"; ""]
        ++ advised 40 (take 3 (sorted_reverse snd example_items))).
Proof.
  apply (create_recommendations_top_three example_thresholds 40 example_items).
  reflexivity.
Defined.

End Recommendations.

(** * Properties of the scoring core over Python's numbers *)

Section Binary64Properties.

Local Open Scope Z_scope.
Import Binary64.

(** ** Shifting a mantissa to the right *)

Section Rounding.

Lemma fexp_eq (e : Z) : fexp prec emax e = Z.max (e - 53) (-1074).
Proof. reflexivity. Qed.

Lemma digits2_pos_bounds (m : positive) :
  2 ^ (Zpos (digits2_pos m) - 1) ≤ Zpos m < 2 ^ Zpos (digits2_pos m).
Proof.
  induction m as [m IH|m IH|]; simpl digits2_pos.
  - rewrite Pos2Z.inj_succ, Z.pow_succ_r by lia.
    replace (Z.succ (Zpos (digits2_pos m)) - 1) with (Z.succ (Zpos (digits2_pos m) - 1)) by lia.
    rewrite Z.pow_succ_r by lia. lia.
  - rewrite Pos2Z.inj_succ, Z.pow_succ_r by lia.
    replace (Z.succ (Zpos (digits2_pos m)) - 1) with (Z.succ (Zpos (digits2_pos m) - 1)) by lia.
    rewrite Z.pow_succ_r by lia. lia.
  - simpl. lia.
Qed.

Lemma Zdigits2_bounds (m : Z) :
  0 ≤ m → 0 ≤ Zdigits2 m ∧ m < 2 ^ Zdigits2 m ∧ (0 < m → 2 ^ (Zdigits2 m - 1) ≤ m).
Proof.
  intros Hm. destruct m as [|p|p]; [simpl; lia| |lia].
  pose proof (digits2_pos_bounds p). simpl Zdigits2. lia.
Qed.

Lemma iter_pos_nat {A : Type} (f : A → A) (p : positive) (x : A) :
  SpecFloat.iter_pos f p x = Nat.iter (Pos.to_nat p) f x.
Proof.
  revert x. induction p as [p IH|p IH|]; intros x; simpl SpecFloat.iter_pos.
  - rewrite !IH, Pos2Nat.inj_xI.
    replace (S (2 * Pos.to_nat p)) with (Pos.to_nat p + S (Pos.to_nat p))%nat by lia.
    by rewrite Nat.iter_add, Nat.iter_succ_r.
  - rewrite !IH, Pos2Nat.inj_xO.
    replace (2 * Pos.to_nat p)%nat with (Pos.to_nat p + Pos.to_nat p)%nat by lia.
    by rewrite Nat.iter_add.
  - reflexivity.
Qed.

Lemma shr_1_spec (mrs : shr_record) :
  0 ≤ shr_m mrs →
  shr_m (shr_1 mrs) = shr_m mrs / 2
  ∧ (shr_r (shr_1 mrs) = true → shr_m mrs = 2 * (shr_m mrs / 2) + 1).
Proof.
  destruct mrs as [m r s]. simpl shr_m. intros Hm.
  assert (∀ q : positive, Zpos q~1 / 2 = Zpos q) as HI.
  { intros q. symmetry. apply (Z.div_unique_pos _ 2 _ 1); lia. }
  assert (∀ q : positive, Zpos q~0 / 2 = Zpos q) as HO.
  { intros q. symmetry. apply (Z.div_unique_pos _ 2 _ 0); lia. }
  destruct m as [|[p|p|]|p]; simpl; rewrite ?HI, ?HO; try lia;
    (split; [done|]); intros H; try discriminate H; try lia; reflexivity.
Qed.

Lemma iter_shr_1_spec (k : nat) (mrs : shr_record) :
  0 ≤ shr_m mrs →
  let mrs' := Nat.iter k shr_1 mrs in
  0 ≤ shr_m mrs'
  ∧ shr_m mrs' = shr_m mrs / 2 ^ Z.of_nat k
  ∧ ((0 < k)%nat → shr_r mrs' = true → shr_m mrs' * 2 ^ Z.of_nat k < shr_m mrs).
Proof.
  intros Hm. induction k as [|k IH]; simpl.
  - rewrite Z.div_1_r. split; [done|]. split; [done|]. lia.
  - destruct IH as (H0 & Hdiv & Hr).
    destruct (shr_1_spec _ H0) as [E1 E2].
    assert (0 < 2 ^ Z.of_nat k) as Hpow by (apply Z.pow_pos_nonneg; lia).
    split; [rewrite E1; apply Z.div_pos; lia|].
    split.
    + rewrite E1, Hdiv, Z.div_div by lia. f_equal.
      rewrite Nat2Z.inj_succ, Z.pow_succ_r by lia. lia.
    + intros _ Hr'. specialize (E2 Hr').
      rewrite Nat2Z.inj_succ, Z.pow_succ_r by lia. rewrite E1.
      assert (shr_m (Nat.iter k shr_1 mrs) * 2 ^ Z.of_nat k ≤ shr_m mrs).
      { rewrite Hdiv. rewrite Z.mul_comm. apply Z.mul_div_le. lia. }
      nia.
Qed.

(** What [shr] does to a mantissa that is not negative. *)
Lemma shr_spec (m : Z) (l : location) (e n : Z) :
  0 ≤ m →
  let '(mrs, e') := shr (shr_record_of_loc m l) e n in
  0 ≤ shr_m mrs
  ∧ ((n ≤ 0 ∧ mrs = shr_record_of_loc m l ∧ e' = e)
     ∨ (0 < n ∧ e' = e + n ∧ shr_m mrs = m / 2 ^ n
        ∧ (shr_r mrs = true → shr_m mrs * 2 ^ n < m))).
Proof.
  intros Hm.
  assert (shr_m (shr_record_of_loc m l) = m) as Em by (by destruct l as [|[]]).
  destruct n as [|p|p]; simpl.
  - rewrite Em. split; [done|]. left. done.
  - rewrite iter_pos_nat.
    destruct (iter_shr_1_spec (Pos.to_nat p) (shr_record_of_loc m l)) as (H0 & Hdiv & Hr);
      [by rewrite Em|].
    rewrite positive_nat_Z, Em in *. split; [done|]. right.
    split; [lia|]. split; [done|]. split; [done|]. intros H. apply Hr; [lia|done].
  - rewrite Em. split; [done|]. left. done.
Qed.

End Rounding.

(** ** Rounding keeps a bound that is an integer below [2^53] *)

Section RoundingBound.

Lemma scaled_le_alt (m e K c : Z) :
  c ≤ e → c ≤ 0 → scaled_le m e K ↔ m * 2 ^ (e - c) ≤ K * 2 ^ (0 - c).
Proof.
  intros Hce Hc0. unfold scaled_le.
  set (c0 := Z.min e 0).
  assert (c ≤ c0) by lia.
  replace (e - c) with ((e - c0) + (c0 - c)) by lia.
  replace (0 - c) with ((0 - c0) + (c0 - c)) by lia.
  rewrite !Z.pow_add_r, !Z.mul_assoc by lia.
  assert (0 < 2 ^ (c0 - c)) by (apply Z.pow_pos_nonneg; lia).
  split; intros Hle.
  - by apply Z.mul_le_mono_nonneg_r; [lia|].
  - by apply Z.mul_le_mono_pos_r in Hle.
Qed.

Lemma scaled_lt_alt (m e K c : Z) :
  c ≤ e → c ≤ 0 → scaled_lt m e K ↔ m * 2 ^ (e - c) < K * 2 ^ (0 - c).
Proof.
  intros Hce Hc0. unfold scaled_lt.
  set (c0 := Z.min e 0).
  assert (c ≤ c0) by lia.
  replace (e - c) with ((e - c0) + (c0 - c)) by lia.
  replace (0 - c) with ((0 - c0) + (c0 - c)) by lia.
  rewrite !Z.pow_add_r, !Z.mul_assoc by lia.
  assert (0 < 2 ^ (c0 - c)) by (apply Z.pow_pos_nonneg; lia).
  split; intros Hlt.
  - by apply Z.mul_lt_mono_pos_r.
  - by apply Z.mul_lt_mono_pos_r in Hlt.
Qed.

Lemma scaled_le_digits (m e K : Z) :
  0 < m → K < 2 ^ 53 → scaled_le m e K → Zdigits2 m + e ≤ 53.
Proof.
  intros Hm HK Hle.
  destruct (Zdigits2_bounds m) as (Hd0 & _ & Hd); [lia|]. specialize (Hd Hm).
  set (c := Z.min e 0).
  apply (scaled_le_alt m e K c) in Hle; [|lia..].
  assert (0 < 2 ^ (e - c)) by (apply Z.pow_pos_nonneg; lia).
  assert (0 < 2 ^ (0 - c)) by (apply Z.pow_pos_nonneg; lia).
  assert (2 ^ (Zdigits2 m - 1) * 2 ^ (e - c) < 2 ^ 53 * 2 ^ (0 - c)) as Hlt.
  { eapply Z.le_lt_trans; [apply Z.mul_le_mono_nonneg_r; [lia|exact Hd]|].
    eapply Z.le_lt_trans; [exact Hle|]. by apply Z.mul_lt_mono_pos_r. }
  destruct (Z.eq_dec (Zdigits2 m) 0) as [E|NE].
  { destruct m; simpl in E; lia. }
  rewrite <- !Z.pow_add_r in Hlt by lia.
  apply Z.pow_lt_mono_r_iff in Hlt; lia.
Qed.

Lemma scaled_le_shift (m e K n : Z) :
  0 ≤ m → 0 < n → scaled_le m e K → scaled_le (m / 2 ^ n) (e + n) K.
Proof.
  intros Hm Hn Hle. set (c := Z.min e 0).
  apply (scaled_le_alt m e K c) in Hle; [|lia..].
  apply (scaled_le_alt _ (e + n) K c); [lia..|].
  replace (e + n - c) with (n + (e - c)) by lia.
  rewrite Z.pow_add_r, Z.mul_assoc by lia.
  assert (0 < 2 ^ n) by (apply Z.pow_pos_nonneg; lia).
  assert (0 < 2 ^ (e - c)) by (apply Z.pow_pos_nonneg; lia).
  assert (m / 2 ^ n * 2 ^ n ≤ m) as Hdiv by (rewrite Z.mul_comm; apply Z.mul_div_le; lia).
  eapply Z.le_trans; [|exact Hle].
  apply Z.mul_le_mono_nonneg_r; [lia|exact Hdiv].
Qed.

Lemma round_nearest_even_bounds (mrs : shr_record) :
  let m := round_nearest_even (shr_m mrs) (loc_of_shr_record mrs) in
  shr_m mrs ≤ m ≤ shr_m mrs + 1 ∧ (m ≠ shr_m mrs → shr_r mrs = true).
Proof.
  destruct mrs as [m [] []]; simpl; try destruct (Z.even m); lia.
Qed.

Lemma loc_of_shr_record_of_loc (m : Z) (l : location) :
  shr_r (shr_record_of_loc m l) = true → l ≠ loc_Exact.
Proof. by destruct l as [|[]]. Qed.

Lemma shr_m_record_of_loc (m : Z) (l : location) : shr_m (shr_record_of_loc m l) = m.
Proof. by destruct l as [|[]]. Qed.

(** The last step of every operation: a mantissa and exponent whose value
    is at most [K] round to a float that is at most [K], for an integer [K]
    below [2^53] - such a [K] is itself a float, and rounding to nearest
    does not pass a float. *)
Lemma binary_round_aux_le (sx : bool) (mx ex : Z) (lx : location) (K : Z) :
  0 ≤ mx → 0 ≤ K < 2 ^ 53 →
  scaled_le mx ex K →
  (lx ≠ loc_Exact → scaled_lt mx ex K ∧ ex ≤ 0) →
  float_le sx K (binary_round_aux prec emax sx mx ex lx).
Proof.
  intros Hmx HK Hle Hlx. unfold binary_round_aux, shr_fexp.
  rewrite !fexp_eq.
  pose proof (shr_spec mx lx ex (Z.max (Zdigits2 mx + ex - 53) (-1074) - ex) Hmx) as H1.
  destruct (shr _ _ _) as [mrs' e'].
  destruct H1 as [Hm1 H1].
  pose proof (round_nearest_even_bounds mrs') as Hround.
  set (m2 := round_nearest_even (shr_m mrs') (loc_of_shr_record mrs')) in *.
  simpl in Hround. destruct Hround as [Hm2 Hup].
  assert (scaled_le m2 e' K) as Hle2.
  { destruct H1 as [(Hn & -> & ->)|(Hn & -> & Em1 & Hstrict)].
    - rewrite shr_m_record_of_loc in *.
      destruct (Z.eq_dec m2 mx) as [->|Hne]; [done|].
      destruct Hlx as [Hlt Hex]; [by apply (loc_of_shr_record_of_loc mx), Hup|].
      unfold scaled_lt in Hlt. unfold scaled_le.
      rewrite Z.min_l in * by lia. rewrite Z.sub_diag in *. simpl in *. lia.
    - set (n := Z.max (Zdigits2 mx + ex - 53) (-1074) - ex) in *.
      assert (ex + n ≤ 0) as He'.
      { destruct (Z.eq_dec mx 0) as [->|Hpos].
        { unfold n in *. simpl Zdigits2 in *. clear -Hn.
          destruct (Z.max_spec (0 + ex - 53) (-1074)) as [[? E]|[? E]]; rewrite E in *; lia. }
        pose proof (scaled_le_digits mx ex K ltac:(lia) ltac:(lia) Hle). unfold n in *. lia. }
      pose proof (scaled_le_shift mx ex K n Hmx Hn Hle) as Hle1.
      rewrite <- Em1 in Hle1.
      destruct (Z.eq_dec m2 (shr_m mrs')) as [->|Hne]; [done|].
      specialize (Hstrict (Hup Hne)).
      apply (scaled_le_alt _ _ _ ex); [lia..|].
      apply (scaled_le_alt _ _ _ ex) in Hle; [|lia..].
      rewrite Z.sub_diag in Hle. simpl in Hle.
      replace (ex + n - ex) with n by lia.
      assert (0 < 2 ^ n) by (apply Z.pow_pos_nonneg; lia).
      replace (2 ^ (0 - ex)) with (2 ^ (0 - (ex + n)) * 2 ^ n) in *
        by (rewrite <- Z.pow_add_r by lia; f_equal; lia).
      rewrite Z.mul_1_r in Hle. rewrite Z.mul_assoc in *.
      assert (shr_m mrs' < K * 2 ^ (0 - (ex + n))) as Hlt.
      { apply (Z.mul_lt_mono_pos_r (2 ^ n)); [done|]. lia. }
      apply Z.mul_le_mono_nonneg_r; lia. }
  assert (0 ≤ m2) as Hm2' by lia.
  pose proof (shr_spec m2 loc_Exact e' (Z.max (Zdigits2 m2 + e' - 53) (-1074) - e') Hm2') as H2.
  simpl shr_record_of_loc in H2.
  destruct (shr _ _ _) as [mrs'' e''].
  destruct H2 as [Hm3 H2].
  assert (scaled_le (shr_m mrs'') e'' K ∧ (0 < shr_m mrs'' → e'' ≤ 53)) as [Hle3 He3].
  { destruct H2 as [(Hn & -> & ->)|(Hn & -> & Em3 & _)].
    - simpl. split; [done|]. intros Hpos.
      pose proof (scaled_le_digits m2 e' K Hpos ltac:(lia) Hle2).
      destruct (Zdigits2_bounds m2) as (? & ? & ?); [lia|].
      assert (0 < Zdigits2 m2) by (destruct m2; simpl in *; lia). lia.
    - split; [rewrite Em3; apply scaled_le_shift; [lia..|done]|].
      intros Hpos.
      assert (0 < m2) as Hpos2.
      { destruct (Z.eq_dec m2 0) as [E|]; [|lia].
        assert (m2 / 2 ^ (Z.max (Zdigits2 m2 + e' - 53) (-1074) - e') = 0) as E0.
        { rewrite E at 1. apply Z.div_0_l, Z.pow_nonzero; lia. }
        lia. }
      pose proof (scaled_le_digits m2 e' K Hpos2 ltac:(lia) Hle2). lia. }
  destruct (shr_m mrs'') as [|m3|m3] eqn:E3; [done| |lia].
  change (Z.sub emax prec) with 971.
  destruct (Z.leb_spec e'' 971) as [_|Hbig]; [by split|].
  specialize (He3 eq_refl). lia.
Qed.

End RoundingBound.

(** ** Conversions, products and sums within a bound *)

Section Operations.

Lemma iter_xO_spec (p k : positive) :
  Zpos (Pos.iter xO p k) = Zpos p * 2 ^ Zpos k
  ∧ Zpos (digits2_pos (Pos.iter xO p k)) = Zpos (digits2_pos p) + Zpos k.
Proof.
  induction k as [|k IH] using Pos.peano_ind.
  - simpl. lia.
  - rewrite Pos.iter_succ. destruct IH as [IH1 IH2].
    simpl digits2_pos. rewrite Pos2Z.inj_succ, Z.pow_succ_r by lia.
    rewrite Pos2Z.inj_xO, IH1. rewrite !Pos2Z.inj_succ. lia.
Qed.

Lemma shl_align_spec (m : positive) (e e' : Z) :
  let '(m', e'') := shl_align m e e' in
  e'' = Z.min e e' ∧ Zpos m' = Zpos m * 2 ^ (e - e'')
  ∧ Zpos (digits2_pos m') + e'' = Zpos (digits2_pos m) + e.
Proof.
  unfold shl_align. destruct (e' - e) as [|d|d] eqn:E.
  - rewrite Z.min_l by lia. rewrite Z.sub_diag. simpl. lia.
  - rewrite Z.min_l by lia. rewrite Z.sub_diag. simpl. lia.
  - destruct (iter_xO_spec m d) as [E1 E2].
    rewrite Z.min_r by lia. replace (e - e') with (Zpos d) by lia. lia.
Qed.

Lemma scaled_le_mono (m e K K' : Z) : K ≤ K' → scaled_le m e K → scaled_le m e K'.
Proof.
  unfold scaled_le. intros HK Hle.
  assert (0 < 2 ^ (0 - Z.min e 0)) by (apply Z.pow_pos_nonneg; lia). nia.
Qed.

Lemma float_le_nonneg_le (K : Z) (f : spec_float) : float_le false K f → nonneg_le K f.
Proof. destruct f as [| | |s m e]; simpl; try done. by intros [-> ?]. Qed.

Lemma nonneg_le_mono (K K' : Z) (f : spec_float) : K ≤ K' → nonneg_le K f → nonneg_le K' f.
Proof.
  intros HK. destruct f as [| | |[] m e]; simpl; try done. by apply scaled_le_mono.
Qed.

Lemma binary_round_le (sx : bool) (m : positive) (e K : Z) :
  0 ≤ K < 2 ^ 53 → scaled_le (Zpos m) e K → float_le sx K (binary_round prec emax sx m e).
Proof.
  intros HK Hle. unfold binary_round.
  pose proof (shl_align_spec m e (fexp prec emax (Zpos (digits2_pos m) + e))) as Hs.
  destruct (shl_align _ _ _) as [mz ez]. destruct Hs as (Ez & Em & _).
  apply binary_round_aux_le; [lia|done| |done].
  set (c := Z.min ez 0).
  apply (scaled_le_alt _ _ _ c); [lia..|].
  apply (scaled_le_alt _ _ _ c) in Hle; [|lia..].
  rewrite Em, <- Z.mul_assoc, <- Z.pow_add_r by lia.
  by replace (e - ez + (ez - c)) with (e - c) by lia.
Qed.

Lemma binary_normalize_le (M e K : Z) :
  0 ≤ M → 0 ≤ K < 2 ^ 53 → scaled_le M e K →
  float_le false K (binary_normalize prec emax M e false).
Proof.
  intros HM HK Hle. destruct M as [|m|m]; [done| |lia].
  by apply binary_round_le.
Qed.

(** [float(n)] for a small integer that is not negative. *)
Lemma of_int_bounded (n K : Z) :
  0 ≤ n ≤ K → K < 2 ^ 53 → ∃ f, of_int n = Ok f ∧ nonneg_le K f.
Proof.
  intros Hn HK. unfold of_int.
  assert (scaled_le n 0 K) as Hle.
  { unfold scaled_le. change (2 ^ (0 - Z.min 0 0)) with 1. lia. }
  pose proof (binary_normalize_le n 0 K ltac:(lia) ltac:(lia) Hle) as H.
  destruct (binary_normalize _ _ _ _ _) as [| | |s m e]; try done.
  - by eexists.
  - eexists. split; [done|]. by apply float_le_nonneg_le.
Qed.

Lemma to_float_bounded (a : num) (K : Z) :
  within K a → K < 2 ^ 53 → ∃ f, to_float a = Ok f ∧ nonneg_le K f.
Proof.
  destruct a as [n|f]; simpl; intros Ha HK.
  - by apply of_int_bounded.
  - by exists f.
Qed.

(** Products and sums of floats between 0 and an integer bound stay within
    the product and the sum of the bounds. *)
Lemma SFmul_bounded (A B : Z) (x y : spec_float) :
  0 ≤ A → 0 ≤ B → A * B < 2 ^ 53 → nonneg_le A x → nonneg_le B y →
  nonneg_le (A * B) (SFmul prec emax x y).
Proof.
  intros HA HB HAB Hx Hy.
  destruct x as [sx| | |[] m e], y as [sy| | |[] m' e']; simpl in Hx, Hy; try done.
  apply float_le_nonneg_le. unfold SFmul. simpl xorb.
  apply binary_round_aux_le; [lia|lia| |done].
  set (c1 := Z.min e 0). set (c2 := Z.min e' 0).
  unfold scaled_le in Hx, Hy. fold c1 in Hx. fold c2 in Hy.
  apply (scaled_le_alt _ _ _ (c1 + c2)); [lia..|].
  replace (e + e' - (c1 + c2)) with ((e - c1) + (e' - c2)) by lia.
  replace (0 - (c1 + c2)) with ((0 - c1) + (0 - c2)) by lia.
  rewrite !Z.pow_add_r by lia. rewrite Pos2Z.inj_mul.
  assert (0 < 2 ^ (e - c1)) by (apply Z.pow_pos_nonneg; lia).
  assert (0 < 2 ^ (e' - c2)) by (apply Z.pow_pos_nonneg; lia).
  assert (0 < 2 ^ (0 - c1)) by (apply Z.pow_pos_nonneg; lia).
  assert (0 < 2 ^ (0 - c2)) by (apply Z.pow_pos_nonneg; lia).
  replace (Zpos m * Zpos m' * (2 ^ (e - c1) * 2 ^ (e' - c2)))
    with ((Zpos m * 2 ^ (e - c1)) * (Zpos m' * 2 ^ (e' - c2))) by ring.
  replace (A * B * (2 ^ (0 - c1) * 2 ^ (0 - c2)))
    with ((A * 2 ^ (0 - c1)) * (B * 2 ^ (0 - c2))) by ring.
  apply Z.mul_le_mono_nonneg; lia.
Qed.

Lemma SFadd_bounded (A B : Z) (x y : spec_float) :
  0 ≤ A → 0 ≤ B → A + B < 2 ^ 53 → nonneg_le A x → nonneg_le B y →
  nonneg_le (A + B) (SFadd prec emax x y).
Proof.
  intros HA HB HAB Hx Hy.
  destruct x as [sx| | |[] m e], y as [sy| | |[] m' e']; simpl in Hx, Hy; try done.
  - by destruct sx, sy.
  - simpl. apply (scaled_le_mono _ _ B); [lia|done].
  - simpl. apply (scaled_le_mono _ _ A); [lia|done].
  - apply float_le_nonneg_le. unfold SFadd.
    set (ez := Z.min e e').
    pose proof (shl_align_spec m e ez) as Ha. pose proof (shl_align_spec m' e' ez) as Hb.
    destruct (shl_align m e ez) as [ma ea], (shl_align m' e' ez) as [mb eb].
    destruct Ha as (Ea & Ema & _), Hb as (Eb & Emb & _).
    simpl fst. simpl cond_Zopp.
    apply binary_normalize_le; [lia|lia|].
    set (c := Z.min ez 0).
    apply (scaled_le_alt _ _ _ c) in Hx; [|lia..].
    apply (scaled_le_alt _ _ _ c) in Hy; [|lia..].
    apply (scaled_le_alt _ _ _ c); [lia..|].
    rewrite Ema, Emb.
    replace ea with ez by lia. replace eb with ez by lia.
    rewrite !Z.mul_add_distr_r, <- !Z.mul_assoc, <- !Z.pow_add_r by lia.
    replace (e - ez + (ez - c)) with (e - c) by lia.
    replace (e' - ez + (ez - c)) with (e' - c) by lia. lia.
Qed.

Lemma binary_round_aux_exact (sx : bool) (m : positive) (e : Z) :
  fexp prec emax (Zpos (digits2_pos m) + e) ≤ e → e ≤ 971 →
  binary_round_aux prec emax sx (Zpos m) e loc_Exact = S754_finite sx m e.
Proof.
  intros Hf He. unfold binary_round_aux, shr_fexp. simpl Zdigits2.
  simpl shr_record_of_loc.
  assert (∀ mrs, shr mrs e (fexp prec emax (Zpos (digits2_pos m) + e) - e) = (mrs, e)) as Hshr.
  { intros mrs. unfold shr.
    destruct (fexp prec emax (Zpos (digits2_pos m) + e) - e) eqn:E; [done|lia|done]. }
  rewrite Hshr. simpl. rewrite Hshr. simpl.
  destruct (Z.leb_spec e (emax - prec)) as [|Hbig]; [done|].
  change (emax - prec) with 971 in Hbig. lia.
Qed.

(** [float(n)] is exact for a positive integer below [2^53]. *)
Lemma of_int_exact (n : Z) :
  0 < n < 2 ^ 53 →
  ∃ m e, of_int n = Ok (S754_finite false m e) ∧ e ≤ 0 ∧ Zpos m = n * 2 ^ (0 - e).
Proof.
  intros Hn. destruct n as [|p|p]; try lia.
  unfold of_int, binary_normalize, binary_round.
  pose proof (shl_align_spec p 0 (fexp prec emax (Zpos (digits2_pos p) + 0))) as Hs.
  destruct (shl_align _ _ _) as [mz ez]. destruct Hs as (Ez & Em & Ed).
  pose proof (digits2_pos_bounds p) as Hd.
  assert (Zpos (digits2_pos p) ≤ 53) as Hd53.
  { destruct (Z.le_gt_cases (Zpos (digits2_pos p)) 53) as [|Hgt]; [done|].
    assert (2 ^ 53 ≤ 2 ^ (Zpos (digits2_pos p) - 1)) by (apply Z.pow_le_mono_r; lia). lia. }
  rewrite fexp_eq in Ez.
  rewrite binary_round_aux_exact.
  - exists mz, ez. split; [done|]. split; [lia|]. rewrite Em. f_equal.
  - rewrite Ed, fexp_eq. lia.
  - lia.
Qed.

End Operations.

(** ** Quotients within a bound *)

Section Division.

Lemma new_location_exact (nb r : Z) : new_location nb r ≠ loc_Exact → r ≠ 0.
Proof.
  intros H ->. apply H. unfold new_location, new_location_even, new_location_odd.
  by destruct (Z.even nb).
Qed.

(** The quotient of two floats whose exact ratio is at most [K] is at most
    [K] before rounding, and so after it. *)
Lemma SFdiv_core_le (K : Z) (m1 m2 : positive) (e1 e2 : Z) :
  0 ≤ K < 2 ^ 53 →
  Zpos m1 * 2 ^ (e1 - Z.min e1 e2) ≤ K * Zpos m2 * 2 ^ (e2 - Z.min e1 e2) →
  let '(q, e', l) := SFdiv_core_binary prec emax (Zpos m1) e1 (Zpos m2) e2 in
  0 ≤ q ∧ scaled_le q e' K ∧ (l ≠ loc_Exact → scaled_lt q e' K ∧ e' ≤ 0).
Proof.
  intros HK H. unfold SFdiv_core_binary. simpl Zdigits2. rewrite fexp_eq.
  set (c := Z.min e1 e2) in *.
  set (d1 := Zpos (digits2_pos m1)). set (d2 := Zpos (digits2_pos m2)).
  set (e' := Z.min (Z.max (d1 + e1 - (d2 + e2) - 53) (-1074)) (e1 - e2)).
  set (s := e1 - e2 - e').
  assert (0 ≤ s) as Hs by (unfold s, e'; lia).
  set (m' := match s with Zpos _ => Z.shiftl (Zpos m1) s | Z0 => Zpos m1 | Zneg _ => 0 end).
  assert (m' = Zpos m1 * 2 ^ s) as Em'.
  { unfold m'. destruct s as [|p|p] eqn:Es; [simpl; lia| |lia].
    by rewrite Z.shiftl_mul_pow2. }
  pose proof (Z_div_mod m' (Zpos m2) ltac:(lia)) as Hdiv.
  destruct (Z.div_eucl m' (Zpos m2)) as [q r]. destruct Hdiv as [Hq Hr].
  pose proof (digits2_pos_bounds m1) as Hd1. pose proof (digits2_pos_bounds m2) as Hd2.
  fold d1 in Hd1. fold d2 in Hd2.
  assert (0 < 2 ^ (e1 - c)) as Hp1 by (apply Z.pow_pos_nonneg; lia).
  assert (0 < 2 ^ (e2 - c)) as Hp2 by (apply Z.pow_pos_nonneg; lia).
  assert (d1 + e1 - (d2 + e2) ≤ 53) as Hd.
  { assert (2 ^ (d1 - 1) * 2 ^ (e1 - c) < 2 ^ 53 * 2 ^ d2 * 2 ^ (e2 - c)) as Hlt.
    { eapply Z.le_lt_trans; [apply Z.mul_le_mono_nonneg_r; [lia|apply Hd1]|].
      eapply Z.le_lt_trans; [exact H|].
      apply Z.mul_lt_mono_pos_r; [done|].
      assert (0 < 2 ^ d2) by (apply Z.pow_pos_nonneg; lia). nia. }
    rewrite <- !Z.pow_add_r in Hlt by lia.
    apply Z.pow_lt_mono_r_iff in Hlt; lia. }
  assert (e' ≤ 0) as He' by (unfold e'; lia).
  assert (0 < 2 ^ (0 - e')) as Hp3 by (apply Z.pow_pos_nonneg; lia).
  assert (Zpos m1 * 2 ^ s ≤ K * 2 ^ (0 - e') * Zpos m2) as Hbound.
  { set (x := c - e2 - e').
    assert (0 ≤ x) by (unfold x, s, c in *; lia).
    replace s with ((e1 - c) + x) by (unfold x, s; lia).
    replace (0 - e') with ((e2 - c) + x) by (unfold x; lia).
    rewrite !Z.pow_add_r, !Z.mul_assoc by lia.
    assert (0 < 2 ^ x) by (apply Z.pow_pos_nonneg; lia).
    replace (K * 2 ^ (e2 - c) * 2 ^ x * Zpos m2) with (K * Zpos m2 * 2 ^ (e2 - c) * 2 ^ x) by ring.
    apply Z.mul_le_mono_nonneg_r; lia. }
  assert (0 ≤ q) as Hq0.
  { destruct (Z.le_gt_cases 0 q) as [|Hneg]; [done|].
    assert (0 ≤ m') by (rewrite Em'; apply Z.mul_nonneg_nonneg; lia). nia. }
  assert (q ≤ K * 2 ^ (0 - e')) as Hqle.
  { apply (Z.mul_le_mono_pos_l _ _ (Zpos m2)); [lia|]. lia. }
  split; [done|]. split.
  - unfold scaled_le. rewrite Z.min_l by lia. rewrite Z.sub_diag. simpl (2 ^ 0). lia.
  - intros Hl. apply new_location_exact in Hl. split; [|done].
    unfold scaled_lt. rewrite Z.min_l by lia. rewrite Z.sub_diag. simpl (2 ^ 0).
    rewrite Z.mul_1_r. apply (Z.mul_lt_mono_pos_l (Zpos m2)); [lia|]. lia.
Qed.

Lemma SFdiv_bounded (K : Z) (x : spec_float) (m2 : positive) (e2 : Z) :
  0 ≤ K < 2 ^ 53 →
  match x with
  | S754_zero _ => True
  | S754_finite false m1 e1 =>
      Zpos m1 * 2 ^ (e1 - Z.min e1 e2) ≤ K * Zpos m2 * 2 ^ (e2 - Z.min e1 e2)
  | _ => False
  end →
  float_le false K (SFdiv prec emax x (S754_finite false m2 e2)) ∨
  ∃ s, SFdiv prec emax x (S754_finite false m2 e2) = S754_zero s.
Proof.
  intros HK Hx. destruct x as [sx| | |[] m1 e1]; try done.
  - right. by eexists.
  - left. unfold SFdiv.
    pose proof (SFdiv_core_le K m1 m2 e1 e2 HK Hx) as H.
    destruct (SFdiv_core_binary _ _ _ _ _ _) as [[q e'] l].
    destruct H as (Hq & Hle & Hl). simpl xorb.
    by apply binary_round_aux_le.
Qed.

(** Division by a positive integer keeps a ratio that is at most [K]. *)
Lemma truediv_bounded (K W : Z) (a : num) :
  0 ≤ K → 0 < W → K * W < 2 ^ 53 → W < 2 ^ 53 → within (K * W) a →
  ∃ f, truediv a (Int W) = Ok (Float f) ∧ nonneg_le K f.
Proof.
  intros HK HW HKW HW53 Ha.
  assert (K < 2 ^ 53) as HK53 by nia.
  destruct a as [n|x]; simpl in Ha.
  - unfold truediv, int_truediv. destruct W as [|w|w]; try lia.
    destruct n as [|p|p]; try lia.
    { by eexists. }
    change (Zpos p <? 0) with false. change (Zpos w <? 0) with false.
    change (Z.to_pos (Z.abs (Zpos p))) with p. change (Z.to_pos (Z.abs (Zpos w))) with w.
    destruct (SFdiv_bounded K (S754_finite false p 0) w 0) as [Hf|[s Hf]]; [lia| |..].
    + rewrite Z.min_id, Z.sub_diag. simpl (2 ^ 0). lia.
    + destruct (SFdiv _ _ _ _) as [| | |s m e]; try done; eexists; (split; [done|]);
        by apply float_le_nonneg_le.
    + rewrite Hf. by eexists.
  - unfold truediv. simpl to_float.
    destruct (of_int_exact W) as (mw & ew & -> & Hew & Emw); [lia|].
    simpl. eexists. split; [done|].
    destruct (SFdiv_bounded K x mw ew) as [Hf|[s Hf]]; [lia| |..].
    + destruct x as [sx| | |[] m e]; try done. simpl in Ha.
      set (c := Z.min e ew).
      apply (scaled_le_alt _ _ _ c) in Ha; [|lia..].
      rewrite Emw.
      replace (K * (W * 2 ^ (0 - ew)) * 2 ^ (ew - c)) with (K * W * (2 ^ (0 - ew) * 2 ^ (ew - c))) by ring.
      rewrite <- Z.pow_add_r by lia.
      by replace (0 - ew + (ew - c)) with (0 - c) by lia.
    + by apply float_le_nonneg_le.
    + by rewrite Hf.
Qed.

Lemma to_float_100 : to_float (Int 100) = Ok float_100.
Proof. reflexivity. Qed.

(** [100 - x] for a float strictly between 0 and 100. *)
Lemma SFsub_100 (m : positive) (e : Z) :
  scaled_lt (Zpos m) e 100 →
  nonneg_le 100 (SFsub prec emax float_100 (S754_finite false m e)).
Proof.
  intros Hlt. apply float_le_nonneg_le. unfold float_100, SFsub.
  set (ez := Z.min (-46) e).
  pose proof (shl_align_spec 7036874417766400 (-46) ez) as Ha.
  pose proof (shl_align_spec m e ez) as Hb.
  destruct (shl_align 7036874417766400 (-46) ez) as [ma ea], (shl_align m e ez) as [mb eb].
  destruct Ha as (Ea & Ema & _), Hb as (Eb & Emb & _).
  simpl fst. simpl cond_Zopp.
  replace ea with ez in * by lia. replace eb with ez in * by lia.
  apply (scaled_lt_alt _ _ _ ez) in Hlt; [|lia..].
  assert (Zpos ma = 100 * 2 ^ (0 - ez)) as Ema'.
  { rewrite Ema. change 7036874417766400 with (100 * 2 ^ 46).
    rewrite <- Z.mul_assoc, <- Z.pow_add_r by lia. do 2 f_equal. lia. }
  apply binary_normalize_le; [lia|lia|].
  apply (scaled_le_alt _ _ _ ez); [lia..|].
  rewrite Z.sub_diag. simpl (2 ^ 0). lia.
Qed.

End Division.

(** ** Comparisons *)

Section Comparisons.

Lemma lt_le (a b : num) : lt a b = true → le a b = true.
Proof.
  unfold lt, le. intros H. apply bool_decide_eq_true in H.
  apply bool_decide_eq_true. by left.
Qed.

Lemma le_finite (a b : num) (m1 e1 m2 e2 : Z) :
  value a = Finite m1 e1 → value b = Finite m2 e2 →
  le a b = true ↔ m1 * 2 ^ (e1 - Z.min e1 e2) ≤ m2 * 2 ^ (e2 - Z.min e1 e2).
Proof.
  intros Ha Hb. unfold le, compare. rewrite Ha, Hb. simpl compare_extended.
  rewrite bool_decide_eq_true, <- Z.compare_le_iff.
  destruct (_ ?= _); split; intros H; try done; try (by left); try (by right).
  by destruct H.
Qed.

Lemma lt_finite (a b : num) (m1 e1 m2 e2 : Z) :
  value a = Finite m1 e1 → value b = Finite m2 e2 →
  lt a b = true ↔ m1 * 2 ^ (e1 - Z.min e1 e2) < m2 * 2 ^ (e2 - Z.min e1 e2).
Proof.
  intros Ha Hb. unfold lt, compare. rewrite Ha, Hb. simpl compare_extended.
  rewrite bool_decide_eq_true, <- Z.compare_lt_iff.
  split; [by intros [= ->]|by intros ->].
Qed.

Lemma eq_finite (a b : num) (m1 e1 m2 e2 : Z) :
  value a = Finite m1 e1 → value b = Finite m2 e2 →
  eq a b = true ↔ m1 * 2 ^ (e1 - Z.min e1 e2) = m2 * 2 ^ (e2 - Z.min e1 e2).
Proof.
  intros Ha Hb. unfold eq, compare. rewrite Ha, Hb. simpl compare_extended.
  rewrite bool_decide_eq_true, <- Z.compare_eq_iff.
  split; [by intros [= ->]|by intros ->].
Qed.

(** The range of a score, in terms of the mantissa and the exponent. *)
Lemma in_range_bounded (a : num) : in_range a ↔ within 100 a.
Proof.
  unfold in_range. destruct a as [n|[s|s| |s m e]].
  - rewrite (le_finite (Int 0) (Int n) 0 0 n 0), (le_finite (Int n) (Int 100) n 0 100 0) by done.
    rewrite !Z.min_id, !Z.sub_diag, !Z.pow_0_r. simpl. lia.
  - rewrite (le_finite (Int 0) (Float (S754_zero s)) 0 0 0 0),
      (le_finite (Float (S754_zero s)) (Int 100) 0 0 100 0) by done.
    rewrite !Z.min_id, !Z.sub_diag, !Z.pow_0_r. simpl. lia.
  - simpl. split; [|done]. intros [H1 H2]. by destruct s.
  - simpl. split; [|done]. by intros [H1 H2].
  - rewrite (le_finite (Int 0) (Float (S754_finite s m e)) 0 0 (cond_Zopp s (Zpos m)) e),
      (le_finite (Float (S754_finite s m e)) (Int 100) (cond_Zopp s (Zpos m)) e 100 0) by done.
    rewrite Z.mul_0_l.
    assert (0 < 2 ^ (e - Z.min 0 e)) by (apply Z.pow_pos_nonneg; lia).
    destruct s; simpl cond_Zopp; simpl within.
    + split; [|done]. intros [H1 _].
      assert (0 < Zpos m * 2 ^ (e - Z.min 0 e)) by lia. lia.
    + unfold scaled_le. split; [by intros [_ ?]|]. intros Hle. split; [lia|done].
Qed.

Lemma lt_0_float (x : spec_float) :
  lt (Int 0) (Float x) = true →
  x = S754_infinity false ∨ ∃ m e, x = S754_finite false m e.
Proof.
  destruct x as [s|[]| |[] m e]; intros H.
  - rewrite (lt_finite (Int 0) (Float (S754_zero s)) 0 0 0 0) in H by done. lia.
  - by vm_compute in H.
  - by left.
  - by vm_compute in H.
  - rewrite (lt_finite (Int 0) (Float (S754_finite true m e)) 0 0 (Zneg m) e) in H by done.
    assert (0 < 2 ^ (e - Z.min 0 e)) by (apply Z.pow_pos_nonneg; lia). lia.
  - right. by eexists _, _.
Qed.

Lemma lt_float_100 (m : positive) (e : Z) :
  lt (Float (S754_finite false m e)) (Int 100) = true ↔ scaled_lt (Zpos m) e 100.
Proof. by rewrite (lt_finite _ _ (Zpos m) e 100 0). Qed.

End Comparisons.

(** ** Operations that raise nothing *)

Section Totality.

Lemma shr_fexp_pos (m e : Z) (l : location) :
  0 < m → -1074 ≤ e →
  let '(mrs, e') := shr_fexp prec emax m e l in 0 < shr_m mrs ∧ -1074 ≤ e'.
Proof.
  intros Hm He. unfold shr_fexp. rewrite fexp_eq.
  pose proof (shr_spec m l e (Z.max (Zdigits2 m + e - 53) (-1074) - e) ltac:(lia)) as H.
  destruct (shr _ _ _) as [mrs e']. destruct H as [_ [(Hn & -> & ->)|(Hn & -> & Em & _)]].
  - by rewrite shr_m_record_of_loc.
  - split; [|lia]. rewrite Em.
    destruct (Zdigits2_bounds m) as (Hd0 & _ & Hd); [lia|]. specialize (Hd Hm).
    assert (Z.max (Zdigits2 m + e - 53) (-1074) - e = Zdigits2 m - 53) as -> by lia.
    apply Z.div_str_pos. split; [apply Z.pow_pos_nonneg; lia|].
    etrans; [|exact Hd]. apply Z.pow_le_mono_r; lia.
Qed.

Lemma binary_round_aux_nonzero (sx : bool) (mx ex : Z) (lx : location) :
  0 < mx → -1074 ≤ ex → is_zero (binary_round_aux prec emax sx mx ex lx) = false.
Proof.
  intros Hm He. unfold binary_round_aux.
  pose proof (shr_fexp_pos mx ex lx Hm He) as H1.
  destruct (shr_fexp _ _ mx ex lx) as [mrs' e']. destruct H1 as [Hm1 He1].
  pose proof (round_nearest_even_bounds mrs') as [Hm2 _]. simpl in Hm2.
  pose proof (shr_fexp_pos (round_nearest_even (shr_m mrs') (loc_of_shr_record mrs')) e'
                loc_Exact ltac:(lia) He1) as H2.
  destruct (shr_fexp _ _ _ e' loc_Exact) as [mrs'' e'']. destruct H2 as [Hm3 _].
  destruct (shr_m mrs'') as [|m3|m3]; [lia| |lia].
  by destruct (_ <=? _).
Qed.

Lemma binary_normalize_nonzero (M e : Z) (szero : bool) :
  M ≠ 0 → -1074 ≤ e → is_zero (binary_normalize prec emax M e szero) = false.
Proof.
  intros HM He.
  assert (∀ sx m, is_zero (binary_round prec emax sx m e) = false) as Hround.
  { intros sx m. unfold binary_round.
    pose proof (shl_align_spec m e (fexp prec emax (Zpos (digits2_pos m) + e))) as Hs.
    destruct (shl_align _ _ _) as [mz ez]. destruct Hs as (Ez & _ & _).
    rewrite fexp_eq in Ez. apply binary_round_aux_nonzero; lia. }
  destruct M as [|m|m]; [done|apply Hround..].
Qed.

Lemma valid_binary_exponent (s : bool) (m : positive) (e : Z) :
  valid_binary prec emax (S754_finite s m e) = true → -1074 ≤ e.
Proof.
  unfold valid_binary, SpecFloat.bounded, canonical_mantissa. rewrite fexp_eq.
  intros H. apply andb_prop in H as [H _]. apply Z.eqb_eq in H. lia.
Qed.

Lemma cond_Zopp_mul (s : bool) (a b : Z) : cond_Zopp s a * b = cond_Zopp s (a * b).
Proof. destruct s; simpl; lia. Qed.

(** Two binary64 values that differ have a difference that is not zero. *)
Lemma SFsub_nonzero (x y : spec_float) :
  valid_binary prec emax x = true → valid_binary prec emax y = true →
  eq (Float x) (Float y) = false → is_zero (SFsub prec emax x y) = false.
Proof.
  intros Hx Hy Hne.
  destruct x as [sx|sx| |sx mx ex], y as [sy|sy| |sy my ey]; try done;
    try (by destruct sx, sy).
  apply valid_binary_exponent in Hx, Hy.
  apply not_true_iff_false in Hne.
  rewrite (eq_finite _ _ (cond_Zopp sx (Zpos mx)) ex (cond_Zopp sy (Zpos my)) ey) in Hne by done.
  unfold SFsub. set (ez := Z.min ex ey) in *.
  pose proof (shl_align_spec mx ex ez) as Ha. pose proof (shl_align_spec my ey ez) as Hb.
  destruct (shl_align mx ex ez) as [ma ea], (shl_align my ey ez) as [mb eb].
  destruct Ha as (Ea & Ema & _), Hb as (Eb & Emb & _). simpl fst.
  replace ea with ez in * by lia. replace eb with ez in * by lia.
  apply binary_normalize_nonzero; [|lia].
  rewrite Ema, Emb, <- !cond_Zopp_mul. lia.
Qed.

(** [float(n)] for an int below [2^53] in magnitude holds exactly [n]. *)
Lemma of_int_exact_signed (n : Z) :
  n ≠ 0 → - 2 ^ 53 < n < 2 ^ 53 →
  ∃ m e, of_int n = Ok (S754_finite (n <? 0) m e)
         ∧ e ≤ 0 ∧ Zpos m = Z.abs n * 2 ^ (0 - e)
         ∧ valid_binary prec emax (S754_finite (n <? 0) m e) = true.
Proof.
  intros Hnz Hn.
  assert (∀ (sx : bool) (p : positive), Zpos p < 2 ^ 53 →
            ∃ m e, binary_round prec emax sx p 0 = S754_finite sx m e
                   ∧ e ≤ 0 ∧ Zpos m = Zpos p * 2 ^ (0 - e)
                   ∧ valid_binary prec emax (S754_finite sx m e) = true) as Hround.
  { intros sx p Hp. unfold binary_round.
    pose proof (shl_align_spec p 0 (fexp prec emax (Zpos (digits2_pos p) + 0))) as Hs.
    destruct (shl_align _ _ _) as [mz ez]. destruct Hs as (Ez & Em & Ed).
    pose proof (digits2_pos_bounds p) as Hd.
    assert (Zpos (digits2_pos p) ≤ 53) as Hd53.
    { destruct (Z.le_gt_cases (Zpos (digits2_pos p)) 53) as [|Hgt]; [done|].
      assert (2 ^ 53 ≤ 2 ^ (Zpos (digits2_pos p) - 1)) by (apply Z.pow_le_mono_r; lia). lia. }
    rewrite fexp_eq in Ez.
    rewrite binary_round_aux_exact; [|rewrite Ed, fexp_eq; lia|lia].
    exists mz, ez. split; [done|]. split; [lia|]. split; [done|].
    unfold valid_binary, SpecFloat.bounded, canonical_mantissa.
    rewrite Ed, fexp_eq. apply andb_true_intro. split.
    - apply Z.eqb_eq. lia.
    - apply Z.leb_le. change (emax - prec) with 971. lia. }
  unfold of_int, binary_normalize. destruct n as [|p|p]; [done| |].
  - destruct (Hround false p) as (m & e & -> & ?); [lia|]. by exists m, e.
  - destruct (Hround true p) as (m & e & -> & ?); [lia|]. by exists m, e.
Qed.

Lemma Zcompare_mul_r (n m p : Z) : 0 < p → (n * p ?= m * p) = (n ?= m).
Proof.
  intros Hp. destruct (Z.compare_spec n m) as [->|Hlt|Hgt].
  - apply Z.compare_refl.
  - apply Z.compare_lt_iff. by apply Z.mul_lt_mono_pos_r.
  - apply Z.compare_gt_iff. by apply Z.mul_lt_mono_pos_r.
Qed.

Lemma compare_extended_scale_l (n k : Z) (y : extended) :
  0 ≤ k → compare_extended (Finite (n * 2 ^ k) (- k)) y = compare_extended (Finite n 0) y.
Proof.
  intros Hk. destruct y as [m2 e2|t|]; [|done..]. simpl.
  set (c1 := Z.min (- k) e2). set (c2 := Z.min 0 e2). f_equal.
  assert (0 < 2 ^ (c2 - c1)) as Hp by (apply Z.pow_pos_nonneg; lia).
  rewrite <- (Zcompare_mul_r (n * 2 ^ (0 - c2)) _ (2 ^ (c2 - c1))) by done.
  f_equal.
  - rewrite <- !Z.mul_assoc, <- !Z.pow_add_r by lia. do 2 f_equal. lia.
  - rewrite <- !Z.mul_assoc, <- !Z.pow_add_r by lia. do 2 f_equal. lia.
Qed.

Lemma compare_extended_scale_r (n k : Z) (x : extended) :
  0 ≤ k → compare_extended x (Finite (n * 2 ^ k) (- k)) = compare_extended x (Finite n 0).
Proof.
  intros Hk. destruct x as [m1 e1|t|]; [|done..]. simpl.
  set (c1 := Z.min e1 (- k)). set (c2 := Z.min e1 0). f_equal.
  assert (0 < 2 ^ (c2 - c1)) as Hp by (apply Z.pow_pos_nonneg; lia).
  rewrite <- (Zcompare_mul_r (m1 * 2 ^ (e1 - c2)) _ (2 ^ (c2 - c1))) by done.
  f_equal.
  - rewrite <- !Z.mul_assoc, <- !Z.pow_add_r by lia. do 2 f_equal. lia.
  - rewrite <- !Z.mul_assoc, <- !Z.pow_add_r by lia. do 2 f_equal. lia.
Qed.

(** The conversion of a small [int] is exact. *)
Lemma of_int_represents (n : Z) :
  - 2 ^ 53 < n < 2 ^ 53 →
  ∃ f, of_int n = Ok f ∧ represents f (Int n) ∧ (n ≠ 0 → is_zero f = false).
Proof.
  intros Hn. destruct (Z.eq_dec n 0) as [->|Hnz].
  { exists (S754_zero false). by repeat split. }
  destruct (of_int_exact_signed n Hnz Hn) as (m & e & -> & He & Em & Hv).
  eexists. split; [done|]. split; [|done]. split; [done|].
  assert (value (Float (S754_finite (n <? 0) m e)) = Finite (n * 2 ^ (0 - e)) (- (0 - e))) as Ev.
  { simpl. f_equal; [|lia]. rewrite Em. destruct (Z.ltb_spec n 0); simpl; nia. }
  intros b. unfold compare. rewrite Ev. simpl (value (Int n)).
  split; [apply compare_extended_scale_l|apply compare_extended_scale_r]; lia.
Qed.

Lemma to_float_represents (a : num) :
  regular a → ∃ f, to_float a = Ok f ∧ represents f a.
Proof.
  destruct a as [n|f]; simpl; intros Ha.
  - destruct (of_int_represents n) as (f & ? & ? & _); [|by exists f].
    assert (2 ^ 52 < 2 ^ 53) by done. lia.
  - exists f. by repeat split.
Qed.

Lemma of_int_small (n : Z) : - 2 ^ 53 < n < 2 ^ 53 → ∃ f, of_int n = Ok f.
Proof. intros Hn. destruct (of_int_represents n Hn) as (f & ? & _). by exists f. Qed.

(** With regular operands a difference is computed, and a quotient. *)
Lemma sub_regular (a b : num) :
  regular a → regular b →
  ∃ c, sub a b = Ok c ∧ small c ∧ (eq a b = false → nonzero c).
Proof.
  intros Ha Hb.
  destruct a as [m|x], b as [n|y].
  - simpl in Ha, Hb. exists (Int (m - n)). split; [done|].
    assert (2 ^ 53 = 2 * 2 ^ 52) by done. split; [simpl; lia|].
    intros Hne. apply not_true_iff_false in Hne.
    rewrite (eq_finite _ _ m 0 n 0) in Hne by done.
    rewrite !Z.min_id, !Z.sub_diag, !Z.pow_0_r in Hne. simpl. lia.
  - destruct (to_float_represents (Int m) Ha) as (x & Hx & Hxv & Hxc).
    unfold sub, arith. rewrite Hx. cbn [to_float mbind result_bind].
    eexists. split; [done|]. split; [done|]. intros Hne. simpl.
    apply SFsub_nonzero; [done..|].
    unfold eq in *. by rewrite (proj1 (Hxc _)).
  - destruct (to_float_represents (Int n) Hb) as (y & Hy & Hyv & Hyc).
    unfold sub, arith. rewrite Hy. cbn [to_float mbind result_bind].
    eexists. split; [done|]. split; [done|]. intros Hne. simpl.
    apply SFsub_nonzero; [done..|].
    unfold eq in *. by rewrite (proj2 (Hyc _)).
  - unfold sub, arith. cbn [to_float mbind result_bind].
    eexists. split; [done|]. split; [done|]. intros Hne. simpl.
    by apply SFsub_nonzero.
Qed.

Lemma SFdiv_finite_not_infinity (K : Z) (s1 s2 : bool) (m1 m2 : positive) (e1 e2 : Z) :
  0 ≤ K < 2 ^ 53 →
  Zpos m1 * 2 ^ (e1 - Z.min e1 e2) ≤ K * Zpos m2 * 2 ^ (e2 - Z.min e1 e2) →
  float_le (xorb s1 s2) K
    (SFdiv prec emax (S754_finite s1 m1 e1) (S754_finite s2 m2 e2)).
Proof.
  intros HK H. unfold SFdiv.
  pose proof (SFdiv_core_le K m1 m2 e1 e2 HK H) as Hc.
  destruct (SFdiv_core_binary _ _ _ _ _ _) as [[q e'] l].
  destruct Hc as (Hq & Hle & Hl). by apply binary_round_aux_le.
Qed.

Lemma truediv_total (a b : num) :
  small a → small b → nonzero b → ∃ q, truediv a b = Ok (Float q).
Proof.
  intros Ha Hb Hnz. destruct a as [m|x], b as [n|y]; simpl in Ha, Hb, Hnz.
  - unfold truediv, int_truediv.
    assert (2 ^ 53 - 1 < 2 ^ 53) as HK by done.
    destruct n as [|q|q]; [done|..]; (destruct m as [|p|p]; [by eexists|..]);
      simpl (Z.to_pos _); simpl (_ <? 0);
      match goal with
      | |- context [SFdiv _ _ (S754_finite ?s1 ?p1 0) (S754_finite ?s2 ?p2 0)] =>
          pose proof (SFdiv_finite_not_infinity (2 ^ 53 - 1) s1 s2 p1 p2 0 0) as Hf;
          rewrite Z.min_id, Z.sub_diag, Z.pow_0_r in Hf;
          destruct (SFdiv prec emax (S754_finite s1 p1 0) (S754_finite s2 p2 0));
            [by eexists|exfalso; apply Hf; [lia|nia]|by eexists|by eexists]
      end.
  - destruct (of_int_small m Ha) as (x & Hx).
    unfold truediv. cbn [to_float]. rewrite Hx. cbn [mbind result_bind].
    rewrite Hnz. by eexists.
  - destruct (of_int_represents n Hb) as (y & Hy & _ & Hyz).
    unfold truediv. cbn [to_float]. rewrite Hy. cbn [mbind result_bind].
    rewrite (Hyz Hnz). by eexists.
  - unfold truediv. cbn [to_float mbind result_bind]. rewrite Hnz. by eexists.
Qed.

End Totality.

(** ** The normalizer *)

Section NormalizerBinary64.

Import ScoreNormalizer.

(** What the two builtins leave of a number. *)
Lemma clamp_cases (normalized : num) : clamp normalized = spec_clamp normalized.
Proof.
  unfold clamp, spec_clamp, min, max, gt. by destruct (lt normalized (Int 100)).
Qed.

Lemma clamp_result (normalized : num) :
  clamp normalized = Int 0 ∨ clamp normalized = Int 100
  ∨ (clamp normalized = normalized
     ∧ lt (Int 0) normalized = true ∧ lt normalized (Int 100) = true).
Proof.
  rewrite clamp_cases. unfold spec_clamp.
  destruct (lt normalized (Int 100)) eqn:E1; [|by right; left].
  destruct (lt (Int 0) normalized) eqn:E2; [by right; right|by left].
Qed.

Lemma clamp_in_range (normalized : num) : in_range (clamp normalized).
Proof.
  destruct (clamp_result normalized) as [->|[->|(-> & H0 & H1)]]; [done|done|].
  split; by apply lt_le.
Qed.

(** What [normalize] returns: the int 0, the int 100, or a number strictly
    between the two. *)
Lemma normalize_result (value min_value max_value r : num) :
  normalize value min_value max_value = Ok r →
  r = Int 0 ∨ r = Int 100 ∨ (lt (Int 0) r = true ∧ lt r (Int 100) = true).
Proof.
  unfold normalize. destruct (eq max_value min_value); [intros [= <-]; by left|].
  destruct (sub value min_value) as [a|]; cbn [mbind result_bind]; [|done].
  destruct (sub max_value min_value) as [b|]; cbn [mbind result_bind]; [|done].
  destruct (truediv a b) as [q|]; cbn [mbind result_bind]; [|done].
  destruct (mul q (Int 100)) as [normalized|]; cbn [mbind result_bind]; [|done].
  intros [= <-].
  destruct (clamp_result normalized) as [->|[->|(-> & H0 & H1)]]; auto.
Qed.

Lemma sub_100_in_range (r : num) :
  r = Int 0 ∨ r = Int 100 ∨ (lt (Int 0) r = true ∧ lt r (Int 100) = true) →
  ∃ r', sub (Int 100) r = Ok r' ∧ in_range r'.
Proof.
  intros [->|[->|[H0 H1]]]; [by eexists|by eexists|].
  destruct r as [n|x].
  - rewrite (lt_finite (Int 0) (Int n) 0 0 n 0) in H0 by done.
    rewrite (lt_finite (Int n) (Int 100) n 0 100 0) in H1 by done.
    rewrite !Z.min_id, !Z.sub_diag, !Z.pow_0_r in H0, H1.
    eexists. split; [done|]. apply in_range_bounded. simpl. lia.
  - destruct (lt_0_float x H0) as [->|(m & e & ->)]; [done|].
    apply lt_float_100 in H1.
    eexists. split; [done|]. apply in_range_bounded. by apply SFsub_100.
Qed.

(** The exceptions of the operations. *)
Lemma to_float_raise (a : num) (e : exn) : to_float a = Raise e → e = OverflowError.
Proof.
  destruct a as [n|f]; simpl; [|done]. unfold of_int.
  destruct (binary_normalize _ _ _ _ _); congruence.
Qed.

Lemma arith_raise (int_op : Z → Z → Z) (float_op : spec_float → spec_float → spec_float)
    (a b : num) (e : exn) :
  arith int_op float_op a b = Raise e → e = OverflowError.
Proof.
  unfold arith.
  assert ((x ← to_float a; y ← to_float b; Ok (Float (float_op x y))) = Raise e
          → e = OverflowError) as H.
  { destruct (to_float a) as [x|e1] eqn:E1; cbn [mbind result_bind].
    - destruct (to_float b) as [y|e2] eqn:E2; cbn [mbind result_bind]; [done|].
      intros [= ->]. by eapply to_float_raise.
    - intros [= ->]. by eapply to_float_raise. }
  destruct a as [m|x], b as [n|y]; [done|exact H..].
Qed.

Lemma truediv_raise (a b : num) (e : exn) :
  truediv a b = Raise e → e = ZeroDivisionError ∨ e = OverflowError.
Proof.
  unfold truediv.
  assert ((x ← to_float a; y ← to_float b;
           if is_zero y then Raise ZeroDivisionError
           else Ok (Float (SFdiv prec emax x y))) = Raise e
          → e = ZeroDivisionError ∨ e = OverflowError) as H.
  { destruct (to_float a) as [x|e1] eqn:E1; cbn [mbind result_bind].
    - destruct (to_float b) as [y|e2] eqn:E2; cbn [mbind result_bind].
      + destruct (is_zero y); [intros [= <-]; by left|done].
      + intros [= ->]. right. by eapply to_float_raise.
    - intros [= ->]. right. by eapply to_float_raise. }
  destruct a as [m|x], b as [n|y]; [|exact H..].
  unfold int_truediv.
  destruct m, n; try done; try (intros [= <-]; by left);
    destruct (SFdiv _ _ _ _); try done; intros [= <-]; by right.
Qed.

Lemma normalize_raise (value min_value max_value : num) (e : exn) :
  normalize value min_value max_value = Raise e →
  e = ZeroDivisionError ∨ e = OverflowError.
Proof.
  unfold normalize. destruct (eq max_value min_value); [done|].
  destruct (sub value min_value) as [a|] eqn:E1; cbn [mbind result_bind];
    [|intros [= ->]; right; by eapply arith_raise].
  destruct (sub max_value min_value) as [b|] eqn:E2; cbn [mbind result_bind];
    [|intros [= ->]; right; by eapply arith_raise].
  destruct (truediv a b) as [q|] eqn:E3; cbn [mbind result_bind];
    [|intros [= ->]; by eapply truediv_raise].
  destruct (mul q (Int 100)) as [n|] eqn:E4; cbn [mbind result_bind];
    [done|intros [= ->]; right; by eapply arith_raise].
Qed.

Lemma normalize_in_range (value min_value max_value r : num) :
  normalize value min_value max_value = Ok r → in_range r.
Proof.
  intros H. destruct (normalize_result _ _ _ _ H) as [->|[->|[H0 H1]]]; [done|done|].
  split; by apply lt_le.
Qed.

Lemma normalize_inverse_cases (value min_value max_value : num) :
  (∃ r, normalize value min_value max_value = Ok r
        ∧ ∃ r', normalize_inverse value min_value max_value = Ok r' ∧ in_range r')
  ∨ (∃ e, normalize value min_value max_value = Raise e
          ∧ normalize_inverse value min_value max_value = Raise e).
Proof.
  unfold normalize_inverse.
  destruct (normalize value min_value max_value) as [r|e] eqn:E; cbn [mbind result_bind].
  - left. exists r. split; [done|]. apply sub_100_in_range. by eapply normalize_result.
  - right. by exists e.
Qed.

Lemma normalize_total (value min_value max_value : num) :
  regular value → regular min_value → regular max_value →
  ∃ r, normalize value min_value max_value = Ok r.
Proof.
  intros Hv Hlo Hhi. unfold normalize.
  destruct (eq max_value min_value) eqn:E; [by eexists|].
  destruct (sub_regular value min_value Hv Hlo) as (a & -> & Ha & _).
  destruct (sub_regular max_value min_value Hhi Hlo) as (b & -> & Hb & Hnz).
  cbn [mbind result_bind].
  destruct (truediv_total a b Ha Hb (Hnz E)) as (q & ->).
  cbn [mbind result_bind]. unfold mul, arith. cbn [to_float mbind result_bind].
  change (of_int 100) with (Ok float_100). cbn [mbind result_bind]. by eexists.
Qed.

(** Each of the eight functions is [normalize] or [normalize_inverse] on its
    arguments, in the order given or with the two ends exchanged. *)
Lemma functions_cases (P : (num → num → num → result num) → Prop) :
  P normalize → P normalize_inverse →
  P (λ value ideal worst, normalize_inverse value worst ideal) →
  P normalize_ratio →
  ∀ f, f ∈ functions → P f.
Proof.
  intros H1 H2 H3 H4 f Hf. unfold functions in Hf.
  repeat (apply elem_of_cons in Hf as [->|Hf]; [done|]).
  by apply elem_of_nil in Hf.
Qed.

(** C2 (amended): on the ints and floats of Python, each of the eight
    functions returns a value in [[0,100]] whenever it returns, raises
    nothing but [ZeroDivisionError] or [OverflowError], and raises nothing
    when every argument is a float or an int below [2^52] in magnitude.
    When [max_value == min_value] is false, [normalize] returns the clamp of
    [((value - min_value) / (max_value - min_value)) * 100] as binary64
    computes it: each operation rounded, a NaN clamped to 100. *)
Theorem normalize_binary64 :
  (∀ f, f ∈ functions →
     ∀ value min_value max_value : num,
       (∀ r, f value min_value max_value = Ok r → in_range r)
       ∧ (∀ e, f value min_value max_value = Raise e →
            e = ZeroDivisionError ∨ e = OverflowError)
       ∧ (regular value → regular min_value → regular max_value →
          ∃ r, f value min_value max_value = Ok r))
  ∧ (∀ value min_value max_value : num,
       eq max_value min_value = false →
       normalize value min_value max_value
       = (a ← sub value min_value;
          b ← sub max_value min_value;
          q ← truediv a b;
          normalized ← mul q (Int 100);
          Ok (spec_clamp normalized))).
Proof.
  split.
  - pose (P := λ f : num → num → num → result num,
            ∀ value min_value max_value : num,
              (∀ r, f value min_value max_value = Ok r → in_range r)
              ∧ (∀ e, f value min_value max_value = Raise e →
                   e = ZeroDivisionError ∨ e = OverflowError)
              ∧ (regular value → regular min_value → regular max_value →
                 ∃ r, f value min_value max_value = Ok r)).
    assert (P normalize) as Hn.
    { intros value min_value max_value.
      split; [apply normalize_in_range|]. split; [apply normalize_raise|].
      apply normalize_total. }
    assert (P normalize_inverse) as Hi.
    { intros value min_value max_value.
      destruct (normalize_inverse_cases value min_value max_value)
        as [(r & Hr & r' & Hr' & Hin)|(e & He & He')].
      - rewrite Hr'. split; [by intros ? [= <-]|]. split; [done|]. by eexists.
      - rewrite He'. split; [done|].
        split; [intros ? [= <-]; by eapply normalize_raise|].
        intros Hv Hlo Hhi. destruct (normalize_total _ _ _ Hv Hlo Hhi) as [r Hr].
        congruence. }
    apply (functions_cases P); [exact Hn|exact Hi| |].
    + intros value ideal worst. destruct (Hi value worst ideal) as (? & ? & ?).
      split; [done|]. split; [done|]. auto.
    + intros value ideal worst. unfold normalize_ratio. destruct (gt ideal worst).
      * destruct (Hi value worst ideal) as (? & ? & ?).
        split; [done|]. split; [done|]. auto.
      * apply Hn.
  - intros value min_value max_value Hne. unfold normalize. rewrite Hne.
    destruct (sub value min_value) as [a|]; cbn [mbind result_bind]; [|done].
    destruct (sub max_value min_value) as [b|]; cbn [mbind result_bind]; [|done].
    destruct (truediv a b) as [q|]; cbn [mbind result_bind]; [|done].
    destruct (mul q (Int 100)) as [normalized|]; cbn [mbind result_bind]; [|done].
    by rewrite clamp_cases.
Qed.

Lemma normalize_binary64_witness :
  normalize (decimal 35 100) (Int 0) (Int 1) = Ok (decimal 35 1)
  ∧ in_range (decimal 35 1)
  ∧ normalize_ratio (decimal 7 10) (Int 1) (Int 0)
    = Ok (Float (SFsub prec emax float_100 (ratio 70 1)))
  ∧ ∃ r, normalize_inverse (Int 3) (decimal 1 10) (Int 7) = Ok r.
Proof.
  destruct normalize_binary64 as [Hall _].
  destruct (Hall normalize ltac:(by left) (decimal 35 100) (Int 0) (Int 1))
    as (Hrange & _ & _).
  destruct (Hall normalize_inverse ltac:(right; by left) (Int 3) (decimal 1 10) (Int 7))
    as (_ & _ & Htotal).
  split; [by vm_compute|]. split; [apply Hrange; by vm_compute|].
  split; [by vm_compute|].
  apply Htotal; by vm_compute.
Defined.

(** C2 (counterexample): finite arguments on which [normalize] raises or
    does not return the clamp of the exact value.  [2**53 + 1] and
    [2.0**53] differ, but their difference is computed as [0.0], so that
    [normalize(0, 2.0**53, 2**53 + 1)] raises [ZeroDivisionError];
    [normalize(10**400, 0, 1)] raises [OverflowError] when the int
    [10**400] is converted for the division; and
    [normalize(0, -1e308, 1e308)] returns 0, not 50, since
    [max_value - min_value] overflows to infinity. *)
Lemma normalize_finite_inputs_raise :
  normalize (Int 0) (decimal (2 ^ 53) 1) (Int (2 ^ 53 + 1)) = Raise ZeroDivisionError
  ∧ eq (Int (2 ^ 53 + 1)) (decimal (2 ^ 53) 1) = false
  ∧ normalize (Int (10 ^ 400)) (Int 0) (Int 1) = Raise OverflowError
  ∧ normalize (Int 0) (decimal (- 10 ^ 308) 1) (decimal (10 ^ 308) 1) = Ok (Int 0).
Proof. vm_compute. repeat split; reflexivity. Qed.


End NormalizerBinary64.

(** ** The aggregator *)

Section AggregatorBinary64.

Import ScoreAggregator.

Lemma sum_from_ints (acc : Z) (l : list Z) :
  sum_from (Int acc) (Int <$> l) = Ok (Int (acc + foldr Z.add 0 l)).
Proof.
  revert acc. induction l as [|n l IH]; intros acc; simpl.
  - by rewrite Z.add_0_r.
  - rewrite IH. do 2 f_equal. lia.
Qed.

Lemma sum_ints_ints (acc : Z) (l : list Z) :
  sum_ints acc (Int <$> l) = Ok (Int (acc + foldr Z.add 0 l)).
Proof.
  revert acc. induction l as [|n l IH]; intros acc; simpl.
  - by rewrite Z.add_0_r.
  - destruct (fits_long n && fits_long (acc + n)).
    + rewrite IH. do 2 f_equal. lia.
    + rewrite sum_from_ints. do 2 f_equal. lia.
Qed.

(** Both algorithms add integers exactly. *)
Lemma sum_ints_exact (algorithm : summation) (l : list Z) :
  sum algorithm (Int <$> l) = Ok (Int (foldr Z.add 0 l)).
Proof. destruct algorithm; simpl; [apply sum_from_ints|apply sum_ints_ints]. Qed.

Lemma foldr_add_Permutation (l l' : list Z) :
  l ≡ₚ l' → foldr Z.add 0 l = foldr Z.add 0 l'.
Proof. induction 1; simpl; lia. Qed.

Lemma mul_bounded (s : num) (w : Z) :
  within 100 s → 0 ≤ w → 100 * w < 2 ^ 53 →
  ∃ p, mul s (Int w) = Ok p ∧ within (100 * w) p.
Proof.
  intros Hs Hw Hlt. destruct s as [n|x]; simpl in Hs.
  - eexists. split; [done|]. simpl. nia.
  - unfold mul, arith. simpl to_float. cbn [mbind result_bind].
    destruct (of_int_bounded w w) as (y & -> & Hy); [lia..|].
    cbn [mbind result_bind]. eexists. split; [done|].
    by apply SFmul_bounded.
Qed.

Lemma add_bounded (A B : Z) (a b : num) :
  0 ≤ A → 0 ≤ B → A + B < 2 ^ 53 → within A a → within B b →
  ∃ c, add a b = Ok c ∧ within (A + B) c.
Proof.
  intros HA HB Hlt Ha Hb.
  destruct (to_float_bounded a A Ha) as (x & Hx & Hxb); [lia|].
  destruct (to_float_bounded b B Hb) as (y & Hy & Hyb); [lia|].
  pose proof (SFadd_bounded A B x y HA HB Hlt Hxb Hyb) as Hsum.
  destruct a as [m|x'], b as [n|y']; unfold add, arith.
  - eexists. split; [done|]. simpl in *. lia.
  - rewrite Hx. simpl in Hy. injection Hy as ->. by eexists.
  - rewrite Hy. simpl in Hx. injection Hx as ->. by eexists.
  - simpl in Hx, Hy. injection Hx as ->. injection Hy as ->. by eexists.
Qed.

Lemma getitem2_score (metrics : gmap string (gmap string num)) (score : string → num)
    (c : string) :
  has_scores metrics score → c ∈ categories →
  getitem2 metrics c (score_field c) = Ok (score c).
Proof.
  intros Hs Hc. destruct (Hs c Hc) as (summary & Hm & Hf).
  unfold getitem2, getitem. rewrite Hm. cbn [mbind result_bind]. by rewrite Hf.
Qed.

Lemma dict_getitem_six (weights : list (string * num)) (weight : string → num) (c : string) :
  six_items weights weight → c ∈ categories → dict_getitem weights c = Ok (weight c).
Proof.
  intros Hw Hc. unfold dict_getitem, getitem.
  assert (NoDup ((λ c, (c, weight c)) <$> categories).*1) as Hnd.
  { simpl. apply (bool_decide_unpack _). by vm_compute. }
  rewrite (list_to_map_proper (M := gmap string) weights
             ((λ c, (c, weight c)) <$> categories)); [| |exact Hw].
  - erewrite elem_of_list_to_map_1; [done|exact Hnd|].
    by apply (list_elem_of_fmap_2 (λ c, (c, weight c))).
  - unfold six_items in Hw. by rewrite Hw.
Qed.

Lemma six_items_values (weights : list (string * num)) (weight : string → num) :
  six_items weights weight → weights.*2 ≡ₚ weight <$> categories.
Proof.
  intros Hw. rewrite Hw. by rewrite <- list_fmap_compose.
Qed.

Lemma sum_six_ints (algorithm : summation) (weights : list (string * num)) (w : string → Z) :
  six_items weights (λ c, Int (w c)) → sum algorithm weights.*2 = Ok (Int (total w)).
Proof.
  intros Hw. apply six_items_values in Hw.
  assert (∃ l, weights.*2 = Int <$> l ∧ l ≡ₚ w <$> categories) as (l & -> & Hl).
  { rewrite (list_fmap_compose w Int) in Hw.
    apply (Permutation_map_inv Int) in Hw as (l & El & Hl). exists l. by split. }
  rewrite sum_ints_exact. do 2 f_equal. by rewrite (foldr_add_Permutation _ _ Hl).
Qed.

(** [aggregate] on six scores and a weights dict over the six categories,
    whatever the order of its items. *)
Lemma aggregate_unfold (algorithm : summation) (config : gmap string (list (string * num)))
    (metrics : gmap string (gmap string num)) (weights : list (string * num))
    (score weight : string → num) :
  has_scores metrics score →
  config !! "weights" = Some weights →
  six_items weights weight →
  aggregate algorithm config metrics
  = (total ← weighted_sum score weight;
     divisor ← sum algorithm weights.*2;
     overall_score ← truediv total divisor;
     Ok (overall_score, score_items score)).
Proof.
  intros Hs Hc Hw. unfold aggregate.
  pose proof (getitem2_score metrics score "complexity" Hs ltac:(category)) as E1.
  pose proof (getitem2_score metrics score "duplication" Hs ltac:(category)) as E2.
  pose proof (getitem2_score metrics score "test_quality" Hs ltac:(category)) as E3.
  pose proof (getitem2_score metrics score "dependencies" Hs ltac:(category)) as E4.
  pose proof (getitem2_score metrics score "churn" Hs ltac:(category)) as E5.
  pose proof (getitem2_score metrics score "readability" Hs ltac:(category)) as E6.
  change (score_field "complexity") with "overall_score" in E1.
  change (score_field "duplication") with "score" in E2.
  change (score_field "test_quality") with "overall_score" in E3.
  change (score_field "dependencies") with "score" in E4.
  change (score_field "churn") with "score" in E5.
  change (score_field "readability") with "score" in E6.
  rewrite E1, E2, E3, E4, E5, E6. cbn [mbind result_bind].
  unfold getitem at 1. rewrite Hc. cbn [mbind result_bind].
  rewrite !(dict_getitem_six weights weight _ Hw) by category.
  cbn [mbind result_bind]. unfold weighted_sum. simpl foldl.
  repeat match goal with
         | |- context [mul ?a ?b] => destruct (mul a b); cbn [mbind result_bind]; try done
         | |- context [add ?a ?b] => destruct (add a b); cbn [mbind result_bind]; try done
         end.
Qed.

(** With scores in range and int weights that are not negative, the
    numerator is at most 100 times the sum of the weights. *)
Lemma weighted_sum_bounded (score : string → num) (w : string → Z) :
  (∀ c, c ∈ categories → within 100 (score c)) →
  (∀ c, c ∈ categories → 0 ≤ w c) →
  100 * total w < 2 ^ 53 →
  ∃ t, weighted_sum score (λ c, Int (w c)) = Ok t ∧ within (100 * total w) t.
Proof.
  intros Hs Hw Hlt.
  assert (total w = w "complexity" + w "duplication" + w "test_quality"
                    + w "dependencies" + w "churn" + w "readability") as Et.
  { unfold total. simpl. lia. }
  rewrite Et in *. clear Et.
  pose proof (Hw "complexity" ltac:(category)).
  pose proof (Hw "duplication" ltac:(category)).
  pose proof (Hw "test_quality" ltac:(category)).
  pose proof (Hw "dependencies" ltac:(category)).
  pose proof (Hw "churn" ltac:(category)).
  pose proof (Hw "readability" ltac:(category)).
  unfold weighted_sum. simpl foldl.
  destruct (mul_bounded (score "complexity") (w "complexity")) as (p1 & -> & B1);
    [apply Hs; category|lia..|].
  cbn [mbind result_bind].
  destruct (mul_bounded (score "duplication") (w "duplication")) as (p2 & -> & B2);
    [apply Hs; category|lia..|].
  cbn [mbind result_bind].
  destruct (add_bounded (100 * w "complexity") (100 * w "duplication") p1 p2
              ltac:(lia) ltac:(lia) ltac:(lia) B1 B2) as (t2 & -> & T2).
  cbn [mbind result_bind].
  destruct (mul_bounded (score "test_quality") (w "test_quality")) as (p3 & -> & B3);
    [apply Hs; category|lia..|].
  cbn [mbind result_bind].
  destruct (add_bounded (100 * w "complexity" + 100 * w "duplication") (100 * w "test_quality") t2 p3
              ltac:(lia) ltac:(lia) ltac:(lia) T2 B3) as (t3 & -> & T3).
  cbn [mbind result_bind].
  destruct (mul_bounded (score "dependencies") (w "dependencies")) as (p4 & -> & B4);
    [apply Hs; category|lia..|].
  cbn [mbind result_bind].
  destruct (add_bounded (100 * w "complexity" + 100 * w "duplication" + 100 * w "test_quality") (100 * w "dependencies") t3 p4
              ltac:(lia) ltac:(lia) ltac:(lia) T3 B4) as (t4 & -> & T4).
  cbn [mbind result_bind].
  destruct (mul_bounded (score "churn") (w "churn")) as (p5 & -> & B5);
    [apply Hs; category|lia..|].
  cbn [mbind result_bind].
  destruct (add_bounded (100 * w "complexity" + 100 * w "duplication" + 100 * w "test_quality" + 100 * w "dependencies") (100 * w "churn") t4 p5
              ltac:(lia) ltac:(lia) ltac:(lia) T4 B5) as (t5 & -> & T5).
  cbn [mbind result_bind].
  destruct (mul_bounded (score "readability") (w "readability")) as (p6 & -> & B6);
    [apply Hs; category|lia..|].
  cbn [mbind result_bind].
  destruct (add_bounded (100 * w "complexity" + 100 * w "duplication" + 100 * w "test_quality" + 100 * w "dependencies" + 100 * w "churn") (100 * w "readability") t5 p6
              ltac:(lia) ltac:(lia) ltac:(lia) T5 B6) as (t6 & -> & T6).
  exists t6. split; [done|].
  replace (100 * (w "complexity" + w "duplication" + w "test_quality"
                  + w "dependencies" + w "churn" + w "readability"))
    with (100 * w "complexity" + 100 * w "duplication" + 100 * w "test_quality"
          + 100 * w "dependencies" + 100 * w "churn" + 100 * w "readability") by lia.
  exact T6.
Qed.

Lemma elem_of_six (P : string → Prop) :
  P "complexity" → P "duplication" → P "test_quality" →
  P "dependencies" → P "churn" → P "readability" →
  ∀ c, c ∈ categories → P c.
Proof.
  intros ? ? ? ? ? ? c Hc. unfold categories in Hc.
  repeat (apply elem_of_cons in Hc as [->|Hc]; [done|]).
  by apply elem_of_nil in Hc.
Qed.

Lemma six_scores_has_scores (a b c d e f : num) :
  has_scores (six_scores a b c d e f) (six a b c d e f).
Proof.
  unfold has_scores. apply elem_of_six; eexists; (split; [reflexivity|]); reflexivity.
Qed.

(** C7 (amended): when each of the six scores lies in [[0,100]] and the
    weights dict holds exactly the six categories with ints that are not
    negative, not all zero and add up to less than [2^53 / 100],
    [aggregate] returns - under either summation algorithm - the six scores
    and an overall score in [[0,100]]. *)
Theorem aggregate_int_weights_in_range (algorithm : summation)
    (config : gmap string (list (string * num))) (metrics : gmap string (gmap string num))
    (weights : list (string * num)) (score : string → num) (w : string → Z) :
  has_scores metrics score →
  config !! "weights" = Some weights →
  six_items weights (λ c, Int (w c)) →
  (∀ c, c ∈ categories → in_range (score c)) →
  (∀ c, c ∈ categories → 0 ≤ w c) →
  0 < total w → 100 * total w < 2 ^ 53 →
  ∃ overall_score,
    aggregate algorithm config metrics = Ok (overall_score, score_items score)
    ∧ in_range overall_score.
Proof.
  intros Hs Hc Hw Hr Hpos Hnz Hlt.
  rewrite (aggregate_unfold algorithm config metrics weights score _ Hs Hc Hw).
  destruct (weighted_sum_bounded score w) as (t & -> & Ht); [|done|done|].
  { intros c Hcat. by apply in_range_bounded, Hr. }
  cbn [mbind result_bind]. rewrite (sum_six_ints algorithm weights w Hw).
  cbn [mbind result_bind].
  assert (total w < 2 ^ 53) as Hlt' by (assert (0 < 2 ^ 53) by done; lia).
  destruct (truediv_bounded 100 (total w) t ltac:(done) Hnz Hlt Hlt' Ht) as (f & -> & Hf).
  cbn [mbind result_bind]. eexists. split; [done|]. by apply in_range_bounded.
Qed.

Lemma aggregate_int_weights_in_range_witness :
  ∃ overall_score,
    aggregate compensated (six_weights (Int 3) (Int 2) (Int 3) (Int 2) (Int 1) (Int 2))
      (six_scores (decimal 255 10) (Int 0) (decimal 999 10) (Int 100) (decimal 1 3) (Int 100))
    = Ok (overall_score,
          [("complexity", decimal 255 10); ("duplication", Int 0);
           ("test_quality", decimal 999 10); ("dependencies", Int 100);
           ("churn", decimal 1 3); ("readability", Int 100)])
    ∧ in_range overall_score.
Proof.
  apply (aggregate_int_weights_in_range compensated
           (six_weights (Int 3) (Int 2) (Int 3) (Int 2) (Int 1) (Int 2))
           (six_scores (decimal 255 10) (Int 0) (decimal 999 10) (Int 100)
              (decimal 1 3) (Int 100))
           [("complexity", Int 3); ("duplication", Int 2); ("test_quality", Int 3);
            ("dependencies", Int 2); ("churn", Int 1); ("readability", Int 2)]
           (six (decimal 255 10) (Int 0) (decimal 999 10) (Int 100) (decimal 1 3) (Int 100))
           (six 3 2 3 2 1 2)).
  - apply six_scores_has_scores.
  - reflexivity.
  - unfold six_items. reflexivity.
  - apply elem_of_six; split; by vm_compute.
  - apply elem_of_six; by vm_compute.
  - reflexivity.
  - reflexivity.
Defined.

(** C7 (counterexample): six scores of 100 with the weights 0.1, 0.7, 0.0,
    0.0, 0.0, 0.0 - none negative, not all zero - give the overall score
    100.00000000000001 under either summation algorithm: the products add
    up to 80.0, the weights to 0.7999999999999999. *)
Lemma aggregate_above_100 :
  let config := six_weights (decimal 1 10) (decimal 7 10) (decimal 0 1) (decimal 0 1)
                  (decimal 0 1) (decimal 0 1) in
  let metrics := six_scores (Int 100) (Int 100) (Int 100) (Int 100) (Int 100) (Int 100) in
  overall_of (aggregate left_to_right config metrics)
    = Ok (decimal 10000000000000001 100000000000000)
  ∧ overall_of (aggregate compensated config metrics)
    = Ok (decimal 10000000000000001 100000000000000)
  ∧ gt (decimal 10000000000000001 100000000000000) (Int 100) = true
  ∧ ¬ in_range (decimal 10000000000000001 100000000000000).
Proof.
  split; [by vm_compute|]. split; [by vm_compute|]. split; [by vm_compute|].
  intros [_ H]. by vm_compute in H.
Qed.

Lemma weighted_sum_ints (s w : string → Z) :
  weighted_sum (λ c, Int (s c)) (λ c, Int (w c)) = Ok (Int (dot s w)).
Proof. unfold weighted_sum, dot. simpl. do 2 f_equal. lia. Qed.

(** C1 (amended): with the six scores present and a weights dict over
    exactly the six categories, [aggregate] is the binary64 evaluation of
    [Σ(category_scores[c] * weights[c]) / sum(weights.values())]: the
    products are added from the left, each operation rounded, and the
    divisor is the [sum] of the weights in the order of the dict.  When the
    scores and the weights are ints and the weights do not add up to zero,
    the overall score is the quotient of the two exact sums rounded once -
    the float nearest to the weighted mean - and [ZeroDivisionError] is not
    raised; with unit weights it is the sum of the six scores divided by 6.
    On the scores 80, 20, 50, 0, 40, 60 with unit weights it is
    41.666666666666664. *)
Theorem aggregate_binary64 :
  (∀ (algorithm : summation) (config : gmap string (list (string * num)))
     (metrics : gmap string (gmap string num)) (weights : list (string * num))
     (score weight : string → num),
     has_scores metrics score →
     config !! "weights" = Some weights →
     six_items weights weight →
     aggregate algorithm config metrics
     = (total ← weighted_sum score weight;
        divisor ← sum algorithm weights.*2;
        overall_score ← truediv total divisor;
        Ok (overall_score, score_items score)))
  ∧ (∀ (algorithm : summation) (config : gmap string (list (string * num)))
       (metrics : gmap string (gmap string num)) (weights : list (string * num))
       (s w : string → Z),
       has_scores metrics (λ c, Int (s c)) →
       config !! "weights" = Some weights →
       six_items weights (λ c, Int (w c)) →
       total w ≠ 0 →
       aggregate algorithm config metrics
       = (overall_score ← int_truediv (dot s w) (total w);
          Ok (overall_score, score_items (λ c, Int (s c))))
       ∧ aggregate algorithm config metrics ≠ Raise ZeroDivisionError
       ∧ ((∀ c, c ∈ categories → w c = 1) →
          aggregate algorithm config metrics
          = (overall_score ←
               int_truediv (s "complexity" + s "duplication" + s "test_quality"
                            + s "dependencies" + s "churn" + s "readability") 6;
             Ok (overall_score, score_items (λ c, Int (s c))))))
  ∧ (∀ algorithm : summation,
       overall_of (aggregate algorithm
                     (six_weights (Int 1) (Int 1) (Int 1) (Int 1) (Int 1) (Int 1))
                     (six_scores (Int 80) (Int 20) (Int 50) (Int 0) (Int 40) (Int 60)))
       = Ok (decimal 41666666666666664 1000000000000000)).
Proof.
  split; [exact aggregate_unfold|]. split.
  - intros algorithm config metrics weights s w Hs Hc Hw Hnz.
    assert (aggregate algorithm config metrics
            = (overall_score ← int_truediv (dot s w) (total w);
               Ok (overall_score, score_items (λ c, Int (s c))))) as Hagg.
    { rewrite (aggregate_unfold algorithm config metrics weights _ _ Hs Hc Hw).
      rewrite weighted_sum_ints. cbn [mbind result_bind].
      by rewrite (sum_six_ints algorithm weights w Hw). }
    split; [exact Hagg|]. split.
    + rewrite Hagg. unfold int_truediv.
      destruct (dot s w), (total w); try done; cbn [mbind result_bind];
        destruct (SFdiv _ _ _ _); done.
    + intros Hone. rewrite Hagg.
      pose proof (Hone "complexity" ltac:(category)) as E1.
      pose proof (Hone "duplication" ltac:(category)) as E2.
      pose proof (Hone "test_quality" ltac:(category)) as E3.
      pose proof (Hone "dependencies" ltac:(category)) as E4.
      pose proof (Hone "churn" ltac:(category)) as E5.
      pose proof (Hone "readability" ltac:(category)) as E6.
      assert (total w = 6) as ->.
      { unfold total. simpl. lia. }
      assert (dot s w = s "complexity" + s "duplication" + s "test_quality"
                        + s "dependencies" + s "churn" + s "readability") as ->.
      { unfold dot. simpl. rewrite E1, E2, E3, E4, E5, E6. lia. }
      done.
  - intros []; vm_compute; reflexivity.
Qed.

Lemma aggregate_binary64_witness :
  aggregate left_to_right (six_weights (Int 1) (Int 1) (Int 1) (Int 1) (Int 1) (Int 1))
    (six_scores (Int 80) (Int 20) (Int 50) (Int 0) (Int 40) (Int 60))
  = (overall_score ← int_truediv 250 6;
     Ok (overall_score, score_items (λ c, Int (six 80 20 50 0 40 60 c)))).
Proof.
  destruct aggregate_binary64 as (_ & Hints & _).
  destruct (Hints left_to_right
              (six_weights (Int 1) (Int 1) (Int 1) (Int 1) (Int 1) (Int 1))
              (six_scores (Int 80) (Int 20) (Int 50) (Int 0) (Int 40) (Int 60))
              [("complexity", Int 1); ("duplication", Int 1); ("test_quality", Int 1);
               ("dependencies", Int 1); ("churn", Int 1); ("readability", Int 1)]
              (six 80 20 50 0 40 60) (λ _, 1)) as (_ & _ & Hunit).
  - unfold has_scores. apply elem_of_six; eexists; (split; [reflexivity|]); reflexivity.
  - reflexivity.
  - unfold six_items. reflexivity.
  - vm_compute. discriminate.
  - apply Hunit. intros c _. reflexivity.
Defined.

(** C1 (counterexample): weights over the six keys with nonzero total for
    which the overall score is not the weighted mean.  With the weights
    1e16, 1.0, -1e16, 0.0, 0.0, 0.0 and six scores of 50 the weighted mean
    is 50; the products add up to 64.0, and the weights to 0.0 when added
    plainly - [aggregate] raises [ZeroDivisionError] - and to 1.0 when added
    with compensation - [aggregate] returns 64.0.  With the weights 0.5,
    0.2, 0.8, 1.3, 0.8, 0.8, all positive, and six scores of 100 the
    weighted mean is 100; the products add up to 440.0, and [aggregate]
    returns 100.00000000000001 when the weights are added plainly (to
    4.3999999999999995) and 99.99999999999999 when they are added with
    compensation (to 4.4, a float above the fraction 44/10). *)
Lemma aggregate_cancelling_weights :
  let cancelling := six_weights (decimal (10 ^ 16) 1) (decimal 1 1) (decimal (- 10 ^ 16) 1)
                      (decimal 0 1) (decimal 0 1) (decimal 0 1) in
  let fifty := six_scores (Int 50) (Int 50) (Int 50) (Int 50) (Int 50) (Int 50) in
  let positive := six_weights (decimal 5 10) (decimal 2 10) (decimal 8 10)
                    (decimal 13 10) (decimal 8 10) (decimal 8 10) in
  let hundred := six_scores (Int 100) (Int 100) (Int 100) (Int 100) (Int 100) (Int 100) in
  overall_of (aggregate left_to_right cancelling fifty) = Raise ZeroDivisionError
  ∧ overall_of (aggregate compensated cancelling fifty) = Ok (decimal 64 1)
  ∧ eq (decimal 64 1) (Int 50) = false
  ∧ overall_of (aggregate left_to_right positive hundred)
    = Ok (decimal 10000000000000001 100000000000000)
  ∧ overall_of (aggregate compensated positive hundred)
    = Ok (decimal 9999999999999999 100000000000000)
  ∧ eq (decimal 10000000000000001 100000000000000) (Int 100) = false
  ∧ eq (decimal 9999999999999999 100000000000000) (Int 100) = false.
Proof. vm_compute. repeat split; reflexivity. Qed.


End AggregatorBinary64.

End Binary64Properties.
